(** * GraphBoy: connection synchronisation and interactive wiring

    A shallow embedding of the connection core of [frontend/main.js]
    (the WebSocket message handler, [createWire], [renderLoadedConnection],
    [processPendingConnections], the debounced drain and the port / stage
    pointer handlers) together with the properties of its specification.

    The canvas (Konva) is modelled as far as the program observes it:
    the children of [mainLayer] in z-order, each object carrying the
    identity the program compares with [===] / [!==]. *)

From stdpp Require Import base option list gmap strings.
From Stdlib Require Import ZArith Lia.

Open Scope string_scope.
Open Scope list_scope.
Open Scope Z_scope.

(** ** Canvas objects *)

(** Identity of a Konva object (what [===] on two node references compares). *)
Definition oid := nat.

(** [getClassName()] of the shapes a component group holds. *)
Inductive className := Rect | Text | Circle.

Global Instance className_eq_dec : EqDecision className.
Proof. solve_decision. Defined.

(** A shape inside a component group ([Konva.Rect], [Konva.Text],
    [Konva.Circle]).  Such shapes are created without an [id]; [name()] is
    [undefined] ([None]) unless given. *)
Record shape := Shape {
  s_oid : oid;
  s_class : className;
  s_name : option string;
  s_x : Z;
  s_y : Z;
  s_height : Z;
  s_text : string
}.

(** A [Konva.Group]: a placed component. *)
Record group := Group {
  g_oid : oid;
  g_id : option string;
  g_name : option string;
  g_x : Z;
  g_y : Z;
  g_draggable : bool;
  g_children : list shape
}.

(** A [Konva.Line]: a committed wire ([l_dash = false]) or the dashed
    draft of a wiring gesture ([l_dash = true], created without an id). *)
Record line := Line {
  l_oid : oid;
  l_id : option string;
  l_points : Z * Z * Z * Z;
  l_dash : bool
}.

(** A child of [mainLayer]. *)
Inductive node :=
| NGroup (g : group)
| NLine (l : line)
| NShape (sh : shape).

Definition node_oid (n : node) : oid :=
  match n with
  | NGroup g => g_oid g
  | NLine l => l_oid l
  | NShape sh => s_oid sh
  end.

(** [n.id()]: only groups and lines are ever given one. *)
Definition node_id (n : node) : option string :=
  match n with
  | NGroup g => g_id g
  | NLine l => l_id l
  | NShape _ => None
  end.

(** A reference to a port circle: the circle and the identity of the
    group holding it (a circle never changes parent). *)
Record port := Port {
  p_parent : oid;
  p_shape : shape
}.

Definition port_name (p : port) : option string := s_name (p_shape p).

(** ** Messages *)

(** The [params] object of a message.  A field that is absent reads as
    [undefined] ([None]).  [data_json] stands for [JSON.stringify(params.data)]. *)
Record params := Params {
  connectionId : option string;
  sourceComponentId : option string;
  sourcePortName : option string;
  targetComponentId : option string;
  targetPortName : option string;
  componentId : option string;
  outputName : option string;
  data_json : string
}.

Definition emptyParams : params :=
  Params None None None None None None None "undefined".

(** What [parsedMessage.params] can be: [null]/[undefined], another
    primitive (truthy or falsy; every field of it reads [undefined]) or
    an object. *)
Inductive jparams :=
| PNull
| PPrim (truthy : bool)
| PObj (f : params).

(** [event.data] after [JSON.parse]: a syntax error, [null], or a value
    with its [method] and [params] properties. *)
Inductive payload :=
| Malformed
| JNull
| JVal (method : option string) (ps : jparams).

(** An entry of the [connections] map. *)
Record connection := Connection {
  c_id : option string;
  c_from : port;
  c_to : port;
  c_line : oid
}.

(** ** Program state: the globals of [main.js] and the canvas *)

Record state := State {
  layer : list node;                       (* mainLayer children, bottom first *)
  next_oid : oid;                          (* allocator of object identities *)
  connections : gmap (option string) connection;
  pendingConnections : list params;
  isWiring : bool;
  currentWire : option oid;
  startPort : option port;
  socketOpen : bool;                       (* socket.readyState === WebSocket.OPEN *)
  clock : nat;                             (* current time, ms *)
  timeout : option nat                     (* live timer of the debounce closure: its deadline *)
}.

Definition set_layer (f : list node → list node) (s : state) : state :=
  State (f (layer s)) (next_oid s) (connections s) (pendingConnections s)
        (isWiring s) (currentWire s) (startPort s) (socketOpen s) (clock s) (timeout s).

Definition set_next_oid (n : oid) (s : state) : state :=
  State (layer s) n (connections s) (pendingConnections s)
        (isWiring s) (currentWire s) (startPort s) (socketOpen s) (clock s) (timeout s).

Definition set_connections
    (f : gmap (option string) connection → gmap (option string) connection)
    (s : state) : state :=
  State (layer s) (next_oid s) (f (connections s)) (pendingConnections s)
        (isWiring s) (currentWire s) (startPort s) (socketOpen s) (clock s) (timeout s).

Definition set_pending (f : list params → list params) (s : state) : state :=
  State (layer s) (next_oid s) (connections s) (f (pendingConnections s))
        (isWiring s) (currentWire s) (startPort s) (socketOpen s) (clock s) (timeout s).

Definition set_wiring (w : bool) (cw : option oid) (sp : option port) (s : state) : state :=
  State (layer s) (next_oid s) (connections s) (pendingConnections s)
        w cw sp (socketOpen s) (clock s) (timeout s).

Definition set_currentWire (cw : option oid) (s : state) : state :=
  set_wiring (isWiring s) cw (startPort s) s.

Definition set_socketOpen (b : bool) (s : state) : state :=
  State (layer s) (next_oid s) (connections s) (pendingConnections s)
        (isWiring s) (currentWire s) (startPort s) b (clock s) (timeout s).

Definition set_clock (t : nat) (s : state) : state :=
  State (layer s) (next_oid s) (connections s) (pendingConnections s)
        (isWiring s) (currentWire s) (startPort s) (socketOpen s) t (timeout s).

Definition set_timeout (d : option nat) (s : state) : state :=
  State (layer s) (next_oid s) (connections s) (pendingConnections s)
        (isWiring s) (currentWire s) (startPort s) (socketOpen s) (clock s) d.

(** ** Effects and the handler monad *)

Inductive level := Info | Warn | Error.

(** What a handler emits: console lines, [mainLayer.draw()] and
    [socket.send] (the transport request id is left out). *)
Inductive effect :=
| Log (lv : level) (msg : string)
| Draw
| Send (method : string) (ps : params).

(** A computation returns or throws (a [TypeError] or the [SyntaxError]
    of [JSON.parse]).  A throw keeps the state reached so far: nothing is
    rolled back. *)
Inductive result (A : Type) :=
| Ret (a : A)
| Throw.
Arguments Ret {A} a.
Arguments Throw {A}.

Record outcome (A : Type) := Outcome {
  res : result A;
  st : state;
  out : list effect
}.
Arguments Outcome {A} _ _ _.
Arguments res {A} _.
Arguments st {A} _.
Arguments out {A} _.

Definition M (A : Type) := state → outcome A.

Definition ret {A} (a : A) : M A := λ s, Outcome (Ret a) s [].

Definition throw {A} : M A := λ s, Outcome Throw s [].

Definition bind {A B} (m : M A) (k : A → M B) : M B := λ s,
  let o := m s in
  match res o with
  | Ret a => let o' := k a (st o) in Outcome (res o') (st o') (out o ++ out o')
  | Throw => Outcome Throw (st o) (out o)
  end.

Notation "x <- m ;; k" := (bind m (λ x, k))
  (at level 100, m at next level, right associativity).
Notation "m ;; k" := (bind m (λ _, k))
  (at level 100, right associativity).

Definition gets {A} (f : state → A) : M A := λ s, Outcome (Ret (f s)) s [].
Definition modify (f : state → state) : M unit := λ s, Outcome (Ret tt) (f s) [].
Definition emit (e : effect) : M unit := λ s, Outcome (Ret tt) s [e].
Definition log (lv : level) (msg : string) : M unit := emit (Log lv msg).
Definition draw : M unit := emit Draw.
Definition lift {A} (r : result A) : M A := λ s, Outcome r s [].

(** [try { m } catch (error) { h }] *)
Definition try_catch (m : M unit) (h : M unit) : M unit := λ s,
  let o := m s in
  match res o with
  | Ret a => o
  | Throw => let o' := h (st o) in Outcome (res o') (st o') (out o ++ out o')
  end.

(** [new Konva.X(...)]: a fresh object identity. *)
Definition new_oid : M oid := λ s,
  Outcome (Ret (next_oid s)) (set_next_oid (S (next_oid s)) s) [].

(** ** Konva queries the program uses *)

(** ['#' + v]: string concatenation turns [undefined] into ["undefined"]. *)
Definition sel (v : option string) : string := default "undefined" v.

(** [mainStage.findOne('#' + v)]: the first node, in depth-first order,
    whose [id()] is the string.  Shapes inside groups have no id, so the
    search is over the layer's children. *)
Definition findOne_id (ly : list node) (v : option string) : option node :=
  snd <$> list_find (λ n, node_id n = Some (sel v)) ly.

(** [c.find(node => node.name() === name && node.getClassName() === 'Circle')]
    followed by [nodes.length > 0 ? nodes.toArray()[0] : null].  Only a
    container has [find]: on a line or a shape the call is a [TypeError]. *)
Definition find_circle (c : node) (name : option string) : result (option port) :=
  match c with
  | NGroup g =>
      Ret (Port (g_oid g) <$>
           head (filter (λ sh, s_name sh = name ∧ s_class sh = Circle) (g_children g)))
  | _ => Throw
  end.

(** [p.getParent()]: the group holding the circle, while it is on the
    layer; [null] once the group has been destroyed. *)
Definition as_group (n : node) : option group :=
  match n with NGroup g => Some g | _ => None end.

Definition getParent (ly : list node) (p : port) : option group :=
  snd <$> list_find (λ g, g_oid g = p_parent p) (omap as_group ly).

(** [p.getAbsolutePosition()]: always an object. *)
Definition getAbsolutePosition (ly : list node) (p : port) : option (Z * Z) :=
  match getParent ly p with
  | Some g => Some (g_x g + s_x (p_shape p), g_y g + s_y (p_shape p))
  | None => Some (s_x (p_shape p), s_y (p_shape p))
  end.

(** [n.destroy()]: the object leaves the layer. *)
Definition destroy (o : oid) (ly : list node) : list node :=
  filter (λ n, node_oid n ≠ o) ly.

(** In-place update of the group with identity [o] (no effect when the
    group is not on the layer). *)
Definition alter_group (o : oid) (f : group → group) (ly : list node) : list node :=
  (λ n, match n with
        | NGroup g => if decide (g_oid g = o) then NGroup (f g) else n
        | _ => n
        end) <$> ly.

(** In-place update of the line with identity [o]. *)
Definition alter_line (o : oid) (f : line → line) (ly : list node) : list node :=
  (λ n, match n with
        | NLine l => if decide (l_oid l = o) then NLine (f l) else n
        | _ => n
        end) <$> ly.

(** [g.draggable(b)] *)
Definition with_draggable (b : bool) (g : group) : group :=
  Group (g_oid g) (g_id g) (g_name g) (g_x g) (g_y g) b (g_children g).

Definition set_draggable (o : oid) (b : bool) (ly : list node) : list node :=
  alter_group o (with_draggable b) ly.

(** [g.add(child)] / replacing the children of a group *)
Definition with_children (f : list shape → list shape) (g : group) : group :=
  Group (g_oid g) (g_id g) (g_name g) (g_x g) (g_y g) (g_draggable g) (f (g_children g)).

Definition require {A} (o : option A) : M A :=
  match o with
  | Some a => ret a
  | None => throw
  end.

Definition when (b : bool) (m : M unit) : M unit :=
  if b then m else ret tt.

(** ** The connection store: [createWire] *)

(** [createWire({ id, fromPort, toPort })].  The opening log line reads
    [fromPort.getParent().id()] and [toPort.getParent().id()].  The new
    line is added to [mainLayer] and moved to the bottom, i.e. to the
    front of the children; the ['add'] signal of a line does not concern
    the stage handler (its name is not ['component_group']).  Returns the
    wire, or [null] ([None]). *)
Definition createWire (id : option string) (fromPort toPort : port) : M (option oid) :=
  ly <- gets layer ;;
  _ <- require (getParent ly fromPort) ;;
  _ <- require (getParent ly toPort) ;;
  log Info "[createWire] Creating wire." ;;
  match getAbsolutePosition ly fromPort, getAbsolutePosition ly toPort with
  | Some (sx, sy), Some (tx, ty) =>
      wire <- new_oid ;;
      modify (set_layer (λ l, NLine (Line wire id (sx, sy, tx, ty) false) :: l)) ;;
      modify (set_connections <[id := Connection id fromPort toPort wire]>) ;;
      draw ;;
      log Info "[createWire] Wire created and stored." ;;
      ret (Some wire)
  | _, _ =>
      log Error "[createWire] Could not get absolute positions for ports." ;;
      ret None
  end.

(** ** Render-or-queue: [renderLoadedConnection] *)

(** The two deferral branches share this block:
    [pendingConnections.find(p => p.connectionId === params.connectionId)],
    then [push] of a deep copy unless one was found. *)
Definition queue_unless_queued (p : params) (msg : string) : M unit :=
  pq <- gets pendingConnections ;;
  match list_find (λ q, connectionId q = connectionId p) pq with
  | None =>
      log Info msg ;;
      modify (set_pending (λ l, l ++ [p]))
  | Some _ => ret tt
  end.

Definition renderLoadedConnection (p : params) (isRetry : bool) : M bool :=
  log Info "[renderLoadedConnection] Attempting to render." ;;
  ly <- gets layer ;;
  match findOne_id ly (sourceComponentId p), findOne_id ly (targetComponentId p) with
  | Some sourceComponent, Some targetComponent =>
      sourceOutputPort <- lift (find_circle sourceComponent (sourcePortName p)) ;;
      targetInputPort <- lift (find_circle targetComponent (targetPortName p)) ;;
      match sourceOutputPort, targetInputPort with
      | Some sp, Some tp =>
          match getAbsolutePosition ly sp, getAbsolutePosition ly tp with
          | Some _, Some _ =>
              pq <- gets pendingConnections ;;
              match list_find (λ q, connectionId q = connectionId p) pq with
              | Some (pendingIndex, _) =>
                  modify (set_pending (delete pendingIndex)) ;;
                  log Info "Removed successfully rendered connection from pending queue."
              | None => ret tt
              end ;;
              cs <- gets connections ;;
              let konvaLineExists := findOne_id ly (connectionId p) in
              let mapEntryExists := bool_decide (is_Some (cs !! connectionId p)) in
              match konvaLineExists with
              | Some existing =>
                  log Warn "Line already exists on stage." ;;
                  when (negb mapEntryExists)
                    (log Warn "Line was on stage but not in connections Map. Adding to Map now." ;;
                     modify (set_connections
                               <[connectionId p :=
                                   Connection (connectionId p) sp tp (node_oid existing)]>)) ;;
                  ret true
              | None =>
                  when mapEntryExists
                    (log Warn "Connection exists in Map but not on stage. Proceeding to recreate.") ;;
                  wire <- createWire (connectionId p) sp tp ;;
                  match wire with
                  | Some _ =>
                      log Info "Wire creation successful via createWire." ;;
                      ret true
                  | None =>
                      log Error "Wire creation failed via createWire." ;;
                      ret false
                  end
              end
          | _, _ =>
              log Error "Could not get absolute positions for ports." ;;
              ret false
          end
      | sop, tip =>
          when (bool_decide (sop = None)) (log Warn "Source port Circle not found.") ;;
          when (bool_decide (tip = None)) (log Warn "Target port Circle not found.") ;;
          queue_unless_queued p "Queuing connection due to missing ports." ;;
          ret false
      end
  | sc, tc =>
      when (bool_decide (sc = None)) (log Warn "Source component not found.") ;;
      when (bool_decide (tc = None)) (log Warn "Target component not found.") ;;
      queue_unless_queued p "Queuing connection." ;;
      ret false
  end.

(** ** Draining the pending queue *)

(** The body of [connectionIdsToRetry.forEach(...)], threading
    [successfullyRenderedCount]. *)
Fixpoint retry_each (ids : list (option string)) (count : nat) : M nat :=
  match ids with
  | [] => ret count
  | cid :: rest =>
      pq <- gets pendingConnections ;;
      match snd <$> list_find (λ q, connectionId q = cid) pq with
      | Some ps =>
          ok <- renderLoadedConnection ps true ;;
          retry_each rest (if ok : bool then S count else count)
      | None => retry_each rest count
      end
  end.

Definition processPendingConnections : M unit :=
  pq <- gets pendingConnections ;;
  let connectionIdsToRetry := connectionId <$> pq in
  match connectionIdsToRetry with
  | [] => ret tt
  | _ =>
      log Info "[processPendingConnections] Attempting to process pending connection(s)." ;;
      successfullyRenderedCount <- retry_each connectionIdsToRetry 0%nat ;;
      if bool_decide (0 < successfullyRenderedCount)%nat
      then
        log Info "[processPendingConnections] Successfully rendered connection(s) from queue." ;;
        draw
      else
        remaining <- gets (λ s, length (pendingConnections s)) ;;
        if bool_decide (0 < remaining)%nat
        then log Info "[processPendingConnections] No pending connections were rendered in this pass."
        else log Info "[processPendingConnections] No pending connections rendered, and queue is now empty."
  end.

(** [debounce(func, wait)]: the closure keeps one timer.  Calling the
    debounced function clears it and arms a new one [wait] ms ahead; when
    the timer fires, [later] clears the handle and calls [func]. *)
Definition debounce_executedFunction (wait : nat) : M unit :=
  modify (set_timeout None) ;;
  modify (λ s, set_timeout (Some (clock s + wait)%nat) s).

Definition debounce_later (func : M unit) : M unit :=
  modify (set_timeout None) ;;
  func.

Definition debouncedProcessPendingConnections : M unit :=
  debounce_executedFunction 16.

(** [mainStage.on('add', ...)]: [name] is [evt.target.name()],
    [onMainLayer] is [evt.target.getLayer() === mainLayer]. *)
Definition stage_on_add (name : option string) (onMainLayer : bool) : M unit :=
  if bool_decide (name = Some "component_group") && onMainLayer
  then
    log Info "[mainStage add event] Component group added to mainLayer." ;;
    debouncedProcessPendingConnections
  else ret tt.

(** ** The WebSocket message handler *)

(** Reading a property of [parsedMessage.params]: a [TypeError] on
    [null]/[undefined], [undefined] for every field of another primitive.
    The result stands for the value by its fields: it does not tell a
    primitive from an object without these fields.  The two differ where
    the value itself is tested after it has been queued
    ([if (!alreadyQueued)], [if (params)]), and there only for a falsy
    primitive. *)
Definition fields (ps : jparams) : result params :=
  match ps with
  | PNull => Throw
  | PPrim _ => Ret emptyParams
  | PObj f => Ret f
  end.

Definition truthy (ps : jparams) : bool :=
  match ps with
  | PNull => false
  | PPrim b => b
  | PObj _ => true
  end.

Definition with_text (t : string) (sh : shape) : shape :=
  Shape (s_oid sh) (s_class sh) (s_name sh) (s_x sh) (s_y sh) (s_height sh) t.

(** The [component.emitOutput] branch: show the data under the component. *)
Definition emitOutput (ps : jparams) : M unit :=
  p <- lift (fields ps) ;;
  log Info "[WebSocket] Received component.emitOutput." ;;
  ly <- gets layer ;;
  match findOne_id ly (componentId p) with
  | Some (NGroup g) =>
      let text := "Output " +:+ sel (outputName p) +:+ ": " +:+ data_json p in
      match list_find (λ sh, s_name sh = Some "data-display") (g_children g) with
      | None =>
          rect <- require (snd <$> list_find (λ sh, s_class sh = Rect) (g_children g)) ;;
          o <- new_oid ;;
          let dataDisplay := Shape o Text (Some "data-display") 5 (s_height rect + 5) 0 text in
          modify (set_layer (alter_group (g_oid g) (with_children (λ c, c ++ [dataDisplay]))))
      | Some (i, dataDisplay) =>
          modify (set_layer (alter_group (g_oid g)
                    (with_children (λ c, <[i := with_text text dataDisplay]> c))))
      end ;;
      draw
  | Some _ => throw
  | None => log Warn "[WebSocket] Component not found on stage to display output."
  end.

(** The [v1.connection.created] branch. *)
Definition on_created (ps : jparams) : M unit :=
  log Info "[WebSocket] Received v1.connection.created." ;;
  p <- lift (fields ps) ;;
  cs <- gets connections ;;
  if bool_decide (is_Some (cs !! connectionId p))
  then log Info "[WebSocket] Connection already exists (likely self-echo). Ignoring v1.connection.created."
  else
    success <- renderLoadedConnection p false ;;
    if success : bool
    then log Info "[WebSocket] Live connection created successfully."
    else log Info "[WebSocket] Live connection queued or failed to render immediately.".

(** The [v1.connection.removed] branch. *)
Definition on_removed (ps : jparams) : M unit :=
  log Info "[WebSocket] Received v1.connection.removed." ;;
  p <- lift (fields ps) ;;
  let connectionIdToRemove := connectionId p in
  cs <- gets connections ;;
  match cs !! connectionIdToRemove with
  | Some connEntry =>
      modify (set_layer (destroy (c_line connEntry))) ;;
      modify (set_connections (delete connectionIdToRemove)) ;;
      draw ;;
      log Info "[WebSocket] Live connection removed successfully via v1.connection.removed."
  | None =>
      log Warn "[WebSocket] Could not find connection to remove via v1.connection.removed."
  end.

(** The body of the [try] block of [socket.onmessage]. *)
Definition dispatch (d : payload) : M unit :=
  match d with
  | Malformed => throw
  | JNull =>
      log Info "[WebSocket] Parsed message." ;;
      throw
  | JVal method ps =>
      log Info "[WebSocket] Parsed message." ;;
      if bool_decide (method = Some "v1.connection.load") then
        if truthy ps then
          p <- lift (fields ps) ;;
          _ <- renderLoadedConnection p false ;;
          ret tt
        else log Error "[WebSocket] v1.connection.load message received without params."
      else if bool_decide (method = Some "component.emitOutput") then emitOutput ps
      else if bool_decide (method = Some "v1.connection.created") then on_created ps
      else if bool_decide (method = Some "v1.connection.removed") then on_removed ps
      else ret tt
  end.

Definition onmessage (d : payload) : M unit :=
  log Info "[WebSocket] Message received." ;;
  try_catch (dispatch d)
            (log Error "[WebSocket] Error parsing message or handling method.").

(** ** The wiring gesture *)

Definition with_points (pts : Z * Z * Z * Z) (l : line) : line :=
  Line (l_oid l) (l_id l) pts (l_dash l).

(** [if (startPort) { const g = startPort.getParent(); if (g) g.draggable(true) }] *)
Definition reenable_drag (msg : string) : M unit :=
  sp <- gets startPort ;;
  match sp with
  | Some p =>
      ly <- gets layer ;;
      match getParent ly p with
      | Some g =>
          modify (set_layer (set_draggable (g_oid g) true)) ;;
          log Info msg
      | None => ret tt
      end
  | None => ret tt
  end.

(** [if (currentWire) currentWire.destroy()] *)
Definition destroy_currentWire (msg : string) : M unit :=
  cw <- gets currentWire ;;
  match cw with
  | Some w =>
      modify (set_layer (destroy w)) ;;
      log Info msg
  | None => ret tt
  end.

(** [outputPort.on('mousedown', ...)] for the circle [outputPort]. *)
Definition outputPort_mousedown (outputPort : port) : M unit :=
  modify (λ s, set_wiring true (currentWire s) (Some outputPort) s) ;;
  ly <- gets layer ;;
  match getParent ly outputPort with
  | Some g =>
      modify (set_layer (set_draggable (g_oid g) false)) ;;
      log Info "[output mousedown] Disabled dragging for component."
  | None => ret tt
  end ;;
  ly <- gets layer ;;
  startPos <- require (getAbsolutePosition ly outputPort) ;;
  log Info "[output mousedown] startPos." ;;
  w <- new_oid ;;
  modify (set_currentWire (Some w)) ;;
  log Info "[output mousedown] currentWire created." ;;
  modify (set_layer (λ l, l ++ [NLine (Line w None
                                  (startPos.1, startPos.2, startPos.1, startPos.2) true)])) ;;
  log Info "[output mousedown] About to draw mainLayer." ;;
  draw.

(** [mainStage.on('mousemove', ...)] with the pointer at [pos]. *)
Definition stage_mousemove (pos : Z * Z) : M unit :=
  w <- gets isWiring ;;
  cw <- gets currentWire ;;
  match w, cw with
  | true, Some c =>
      log Info "[stage mousemove] pos." ;;
      modify (set_layer (alter_line c
                (λ l, with_points ((l_points l).1.1.1, (l_points l).1.1.2, pos.1, pos.2) l))) ;;
      log Info "[stage mousemove] currentWire points updated." ;;
      log Info "[stage mousemove] About to draw mainLayer." ;;
      draw
  | _, _ => ret tt
  end.

(** [mainStage.on('mouseup', ...)]; [targetName] is [e.target.name()]. *)
Definition stage_mouseup (targetName : option string) : M unit :=
  log Info "[stage mouseup] Triggered." ;;
  w <- gets isWiring ;;
  cw <- gets currentWire ;;
  if w && bool_decide (targetName ≠ Some "input") then
    destroy_currentWire "[stage mouseup] Wiring cancelled on stage. Destroying currentWire." ;;
    reenable_drag "[stage mouseup] Re-enabled dragging for source component." ;;
    modify (set_wiring false None None) ;;
    draw
  else if negb w && bool_decide (is_Some cw) then
    destroy_currentWire "[stage mouseup] Cleanup: !isWiring but currentWire exists." ;;
    modify (set_currentWire None) ;;
    draw
  else ret tt.

(** [inputPort.on('mouseup', ...)] for the circle [inputPort];
    [connectionId] is the id minted by
    ['conn_' + Date.now() + '_' + Math.random()...]. *)
Definition inputPort_mouseup (inputPort : port) (connectionId : string) : M unit :=
  log Info "[input mouseup] Triggered." ;;
  log Info "[input mouseup] Condition check." ;;
  w <- gets isWiring ;;
  sp <- gets startPort ;;
  ly <- gets layer ;;
  match w, sp with
  | true, Some start =>
      if bool_decide (g_oid <$> getParent ly start ≠ g_oid <$> getParent ly inputPort) then
        log Info "[input mouseup] Successful connection attempt." ;;
        destroy_currentWire "[input mouseup] Destroyed temporary currentWire." ;;
        ly' <- gets layer ;;
        sg <- require (getParent ly' start) ;;
        tg <- require (getParent ly' inputPort) ;;
        let sourceComponentId := g_id sg in
        let targetComponentId := g_id tg in
        newWireObject <- createWire (Some connectionId) start inputPort ;;
        match newWireObject with
        | Some _ =>
            log Info "[input mouseup] Permanent wire created via createWire." ;;
            let message := Params (Some connectionId) sourceComponentId (port_name start)
                                  targetComponentId (port_name inputPort)
                                  None None "undefined" in
            open <- gets socketOpen ;;
            if open : bool then
              emit (Send "v1.connection.create" message) ;;
              log Info "[input mouseup] Sent connection.create message."
            else
              log Error "[input mouseup] WebSocket is not open. Cannot send connection.create message."
        | None =>
            log Error "[input mouseup] Failed to create permanent wire."
        end ;;
        reenable_drag "[input mouseup] Re-enabled dragging for source component." ;;
        modify (set_wiring false None None)
      else
        log Info "[input mouseup] Failed connection or self-connection attempt." ;;
        destroy_currentWire "[input mouseup] Destroyed temporary currentWire due to failed connection." ;;
        reenable_drag "[input mouseup][failure path] Re-enabled dragging for source component." ;;
        modify (set_wiring false None None) ;;
        draw
  | _, _ =>
      log Info "[input mouseup] Failed connection or self-connection attempt." ;;
      destroy_currentWire "[input mouseup] Destroyed temporary currentWire due to failed connection." ;;
      reenable_drag "[input mouseup][failure path] Re-enabled dragging for source component." ;;
      modify (set_wiring false None None) ;;
      draw
  end.

(** Releasing the pointer over an input port: the port's handler runs,
    then the event bubbles to the stage handler with the port as target. *)
Definition release_on_input (inputPort : port) (connectionId : string) : M unit :=
  inputPort_mouseup inputPort connectionId ;;
  stage_mouseup (port_name inputPort).

(** [wire.on('contextmenu', ...)] of the wire [wire] created under [id];
    [confirmed] is the answer to [confirm('Delete this connection?')]. *)
Definition wire_contextmenu (id : option string) (wire : oid) (confirmed : bool) : M unit :=
  if confirmed then
    open <- gets socketOpen ;;
    (if open : bool then
       emit (Send "v1.connection.delete"
               (Params id None None None None None None "undefined")) ;;
       log Info "[createWire] Sent connection.delete."
     else log Error "[createWire] WebSocket not open. Cannot send connection.delete.") ;;
    cs <- gets connections ;;
    (if bool_decide (is_Some (cs !! id)) then
       modify (set_connections (delete id)) ;;
       log Info "[createWire] Connection removed from Map."
     else log Warn "[createWire] Connection not found in Map for deletion.") ;;
    modify (set_layer (destroy wire)) ;;
    draw ;;
    log Info "[createWire] Connection visual line deleted from frontend."
  else ret tt.

(** ** Dropping a component on the canvas *)

(** [dummyComponent.on('dragend', ...)]: [pointerPosition] is
    [mainStage.getPointerPosition()], [id] the minted
    ['comp_' + Date.now() + '_' + ...].  The stage is 500 x 500 and the
    palette component 50 x 50.  (Resetting and redrawing the palette
    touches the sidebar stage only.) *)
Definition dummyComponent_dragend (pointerPosition : option (Z * Z)) (id : string) : M unit :=
  log Info "Sidebar dummy component drag ended." ;;
  log Info "Sidebar dummy component position reset." ;;
  match pointerPosition with
  | None => log Warn "Drop event occurred, but pointer position is not available."
  | Some (x, y) =>
      let withinXBounds := bool_decide (0 < x) && bool_decide (x < 500) in
      let withinYBounds := bool_decide (0 < y) && bool_decide (y < 500) in
      if withinXBounds && withinYBounds then
        log Info "Drop position - Within bounds." ;;
        g <- new_oid ;;
        r <- new_oid ;;
        t <- new_oid ;;
        i <- new_oid ;;
        o <- new_oid ;;
        let newRect := Shape r Rect None 0 0 50 "" in
        let label := Shape t Text None 0 0 50 "Dummy Component" in
        let inputPort := Shape i Circle (Some "input") 0 25 10 "" in
        let outputPort := Shape o Circle (Some "output") 50 25 10 "" in
        let componentGroup :=
          Group g (Some id) (Some "component_group") (x - 25) (y - 25) true
                [newRect; label; inputPort; outputPort] in
        modify (set_layer (λ l, l ++ [NGroup componentGroup])) ;;
        stage_on_add (g_name componentGroup) true ;;
        draw ;;
        log Info "New component group with ports created on main stage."
      else log Info "Drop position - Outside main stage bounds."
  end.

(** ** Events of one client *)

(** What can happen to the page.  Each event runs one handler to
    completion; an exception that escapes a handler is reported by the
    browser and the globals stay as the handler left them. *)
Inductive event :=
| EDrop (pointerPosition : option (Z * Z)) (id : string)
| EOutputDown (outputPort : port)
| EMouseMove (pos : Z * Z)
| EInputUp (inputPort : port) (connectionId : string)
| EStageUp (targetName : option string)
| EMessage (d : payload)
| EContextMenu (wire : oid) (confirmed : bool)
| ESocket (open : bool)
| EElapse (dt : nat)
| ETimer.

(** The circle [p] is a port named [name] of a group on the layer. *)
Definition port_on_layer (ly : list node) (p : port) (name : string) : Prop :=
  ∃ g, NGroup g ∈ ly ∧ g_oid g = p_parent p ∧ p_shape p ∈ g_children g ∧
       s_class (p_shape p) = Circle ∧ s_name (p_shape p) = Some name.

(** The committed wire with identity [w] on the layer. *)
Definition wire_on_layer (ly : list node) (w : oid) : option line :=
  match list_find (λ n, node_oid n = w) ly with
  | Some (_, NLine l) => if l_dash l then None else Some l
  | _ => None
  end.

(** When an event can occur: pointer events reach the handlers of
    objects on the canvas; a minted connection id is new to the canvas
    and to the store; the timer fires once its deadline has passed. *)
Definition enabled (e : event) (s : state) : Prop :=
  match e with
  | EOutputDown p => port_on_layer (layer s) p "output"
  | EInputUp q cid =>
      port_on_layer (layer s) q "input" ∧
      findOne_id (layer s) (Some cid) = None ∧
      connections s !! Some cid = None
  | EStageUp name => name ≠ Some "input"
  | EContextMenu w _ => is_Some (wire_on_layer (layer s) w)
  | ETimer => ∃ d, timeout s = Some d ∧ (d ≤ clock s)%nat
  | _ => True
  end.

Definition handler (e : event) : M unit :=
  match e with
  | EDrop pos id => dummyComponent_dragend pos id
  | EOutputDown p => outputPort_mousedown p
  | EMouseMove pos => stage_mousemove pos
  | EInputUp q cid => release_on_input q cid
  | EStageUp name => stage_mouseup name
  | EMessage d => onmessage d
  | EContextMenu w confirmed =>
      ly <- gets layer ;;
      match wire_on_layer ly w with
      | Some l => wire_contextmenu (l_id l) w confirmed
      | None => ret tt
      end
  | ESocket open => modify (set_socketOpen open)
  | EElapse dt => modify (λ s, set_clock (clock s + dt)%nat s)
  | ETimer => debounce_later processPendingConnections
  end.

Definition step (e : event) (s : state) : state := st (handler e s).

Definition run (es : list event) (s : state) : state := foldl (λ s e, step e s) s es.

Inductive trace_ok : list event → state → Prop :=
| trace_nil s : trace_ok [] s
| trace_cons e es s : enabled e s → trace_ok es (step e s) → trace_ok (e :: es) s.

(** The page after loading: [mainRect] alone on the layer. *)
Definition mainRect : shape := Shape 0%nat Rect None 50 50 50 "".

Definition init : state :=
  State [NShape mainRect] 1%nat ∅ [] false None None true 0%nat None.

Definition reachable (s : state) : Prop :=
  ∃ es, trace_ok es init ∧ s = run es init.

(** ** Moving a component *)

(** [line.points(f(line.points()))] on the object [o]: a line on the
    layer gets the new points; a group or a shape has no [points] (a
    [TypeError]); an object that has left the layer changes nothing on
    the canvas. *)
Definition set_line_points (o : oid) (f : Z * Z * Z * Z → Z * Z * Z * Z) : M unit :=
  ly <- gets layer ;;
  match snd <$> list_find (λ n, node_oid n = o) ly with
  | Some (NLine _) => modify (set_layer (alter_line o (λ l, with_points (f (l_points l)) l)))
  | Some _ => throw
  | None => ret tt
  end.

(** The callback of [connections.forEach] in
    [componentGroup.on('dragmove', ...)]; [draggedId] is
    [draggedComponent.id()]. *)
Definition dragmove_callback (draggedId : option string) (connection : connection) : M unit :=
  ly <- gets layer ;;
  fromParent <- require (getParent ly (c_from connection)) ;;
  (if bool_decide (g_id fromParent = draggedId) then
     startPortAbsPos <- require (getAbsolutePosition ly (c_from connection)) ;;
     set_line_points (c_line connection)
       (λ pts, (startPortAbsPos.1, startPortAbsPos.2, pts.1.2, pts.2))
   else ret tt) ;;
  ly' <- gets layer ;;
  toParent <- require (getParent ly' (c_to connection)) ;;
  if bool_decide (g_id toParent = draggedId) then
    endPortAbsPos <- require (getAbsolutePosition ly' (c_to connection)) ;;
    set_line_points (c_line connection)
      (λ pts, (pts.1.1.1, pts.1.1.2, endPortAbsPos.1, endPortAbsPos.2))
  else ret tt.

Fixpoint forEach {A} (f : A → M unit) (l : list A) : M unit :=
  match l with
  | [] => ret tt
  | x :: r => f x ;; forEach f r
  end.

(** [componentGroup.on('dragmove', ...)].  [entries] are the values of
    the [connections] map in the order [forEach] visits them (insertion
    order, which the map of the model does not record). *)
Definition componentGroup_dragmove (entries : list connection) (draggedId : option string)
    : M unit :=
  forEach (dragmove_callback draggedId) entries ;;
  draw.

(** ** Vocabulary of the properties *)

(** How a descriptor resolves against the canvas, following the lookups
    of [renderLoadedConnection] in order: an endpoint component or port
    is missing; a named component is not a container (the lookup is a
    [TypeError]); or both ports are found. *)
Inductive resolution :=
| Missing
| Broken
| Resolved (sp tp : port).

Definition resolve (ly : list node) (p : params) : resolution :=
  match findOne_id ly (sourceComponentId p), findOne_id ly (targetComponentId p) with
  | Some sc, Some tc =>
      match find_circle sc (sourcePortName p) with
      | Throw => Broken
      | Ret a =>
          match find_circle tc (targetPortName p) with
          | Throw => Broken
          | Ret b =>
              match a, b with
              | Some sp, Some tp => Resolved sp tp
              | _, _ => Missing
              end
          end
      end
  | _, _ => Missing
  end.

(** The queue after a deferral of [p], and after a resolution of [cid]. *)
Definition enqueue (p : params) (pq : list params) : list params :=
  match list_find (λ q, connectionId q = connectionId p) pq with
  | None => pq ++ [p]
  | Some _ => pq
  end.

Definition dequeue (cid : option string) (pq : list params) : list params :=
  match list_find (λ q, connectionId q = cid) pq with
  | Some (i, _) => delete i pq
  | None => pq
  end.

(** The points [createWire] gives a wire between two ports. *)
Definition wire_points (ly : list node) (fp tp : port) : Z * Z * Z * Z :=
  match getAbsolutePosition ly fp, getAbsolutePosition ly tp with
  | Some (sx, sy), Some (tx, ty) => (sx, sy, tx, ty)
  | _, _ => (0, 0, 0, 0)
  end.

(** The state [createWire] leaves when it returns a wire. *)
Definition wired (id : option string) (fp tp : port) (s : state) : state :=
  set_connections <[id := Connection id fp tp (next_oid s)]>
    (set_layer (λ l, NLine (Line (next_oid s) id (wire_points (layer s) fp tp) false) :: l)
       (set_next_oid (S (next_oid s)) s)).

(** The committed wires on the canvas carrying the id [X]. *)
Definition as_line (n : node) : option line :=
  match n with NLine l => Some l | _ => None end.

Definition visual_edges (X : string) (ly : list node) : list line :=
  filter (λ l, l_id l = Some X) (omap as_line ly).

(** Number of [mainLayer.draw()] calls among emitted effects. *)
Fixpoint draws (es : list effect) : nat :=
  match es with
  | [] => 0%nat
  | Draw :: r => S (draws r)
  | _ :: r => draws r
  end.

(** The messages handed to [socket.send] among emitted effects. *)
Definition sends (es : list effect) : list (string * params) :=
  omap (λ e, match e with Send m ps => Some (m, ps) | _ => None end) es.

(** *** Invariants of the page *)

(** Object identities on the canvas are below the allocator. *)
Definition fresh_oids (s : state) : Prop :=
  Forall (λ n, (node_oid n < next_oid s)%nat) (layer s).

(** A line that carries an id is the line of the stored connection of that id. *)
Definition line_backed (cs : gmap (option string) connection) (n : node) : Prop :=
  match n with
  | NLine l =>
      match l_id l with
      | Some X => c_line <$> cs !! Some X = Some (l_oid l)
      | None => True
      end
  | _ => True
  end.

Definition consistent (s : state) : Prop :=
  Forall (line_backed (connections s)) (layer s).

(** At most one queued descriptor per connection id. *)
Definition queue_unique (s : state) : Prop :=
  NoDup (connectionId <$> pendingConnections s).

Definition Inv (s : state) : Prop :=
  fresh_oids s ∧ consistent s ∧ queue_unique s.

(** *** Example pages *)

(** Two components dropped on the fresh page: [comp_a] (group 1, ports 4
    and 5) and [comp_b] (group 6, ports 9 and 10). *)
Definition ex_two : state :=
  run [EDrop (Some (100, 100)) "comp_a"; EDrop (Some (300, 100)) "comp_b"] init.

Definition ex_inA : port := Port 1%nat (Shape 4%nat Circle (Some "input") 0 25 10 "").
Definition ex_outA : port := Port 1%nat (Shape 5%nat Circle (Some "output") 50 25 10 "").
Definition ex_inB : port := Port 6%nat (Shape 9%nat Circle (Some "input") 0 25 10 "").
Definition ex_outB : port := Port 6%nat (Shape 10%nat Circle (Some "output") 50 25 10 "").

(** A descriptor from [comp_a.output] to the input of [target]. *)
Definition ex_desc (X target : string) : params :=
  Params (Some X) (Some "comp_a") (Some "output") (Some target) (Some "input")
         None None "undefined".

(** [ex_two] with a descriptor for the absent [comp_z] queued. *)
Definition ex_queued : state :=
  set_pending (λ _, [ex_desc "c9" "comp_z"]) ex_two.

(** [ex_two] with a stale map entry for ["c1"]: no node with that id
    is on the canvas. *)
Definition ex_stale_entry : connection := Connection (Some "c1") ex_outB ex_inA 99%nat.

Definition ex_stale : state :=
  set_connections <[Some "c1" := ex_stale_entry]> ex_two.

(** The canvas after [currentWire.destroy()], when there is a draft. *)
Definition without_draft (cw : option oid) (ly : list node) : list node :=
  match cw with
  | Some w => destroy w ly
  | None => ly
  end.

(** The [params] of the [v1.connection.create] message of a commit. *)
Definition create_params (ly : list node) (start inputPort : port) (cid : string) : params :=
  Params (Some cid) (getParent ly start ≫= g_id) (port_name start)
         (getParent ly inputPort ≫= g_id) (port_name inputPort)
         None None "undefined".

(** The dashed draft [outputPort.on('mousedown')] creates at the port. *)
Definition draft_line (ly : list node) (p : port) (o : oid) : line :=
  let startPos := default (0, 0) (getAbsolutePosition ly p) in
  Line o None (startPos.1, startPos.2, startPos.1, startPos.2) true.

(** [s1] is the page [s0] in the middle of a drag that began on the
    port [p]: the origin group is not draggable, the draft (some line
    with the identity allocated at the press) is the last child of the
    layer, and the wiring globals are set. *)
Definition dragging (s0 : state) (p : port) (s1 : state) : Prop :=
  ∃ l, l_oid l = next_oid s0 ∧ l_id l = None ∧ l_dash l = true ∧
       s1 = State (set_draggable (p_parent p) false (layer s0) ++ [NLine l])
                  (S (next_oid s0)) (connections s0) (pendingConnections s0)
                  true (Some (next_oid s0)) (Some p)
                  (socketOpen s0) (clock s0) (timeout s0).

(** A descriptor that names the input circle of [comp_a] as its source
    and the output circle of [comp_b] as its target. *)
Definition ex_reversed : params :=
  Params (Some "c1") (Some "comp_a") (Some "input") (Some "comp_b") (Some "output")
         None None "undefined".

(** [ex_two] after wiring [comp_a.output] to [comp_b.input] by hand. *)
Definition ex_wired : state :=
  run [EOutputDown ex_outA; EMouseMove (200, 120); EInputUp ex_inB "conn_1"] ex_two.

(** A message [params] that carries a connection id only. *)
Definition ex_id_only (X : string) : params :=
  Params (Some X) None None None None None None "undefined".

(** The id [X] is stored and its entry's line is a line with id [X] on
    the canvas. *)
Definition stored_with_edge (X : string) (s : state) : Prop :=
  ∃ e l, connections s !! Some X = Some e ∧ NLine l ∈ layer s ∧
         l_id l = Some X ∧ c_line e = l_oid l.

(** [ex_queued] after a removal for the queued id ["c9"] has been
    processed and the missing component [comp_z] has been dropped. *)
Definition ex_removed_then_dropped : state :=
  run [EMessage (JVal (Some "v1.connection.removed") (PObj (ex_id_only "c9")));
       EDrop (Some (300, 300)) "comp_z"] ex_queued.



(** What no resolution attempt touches: the wiring session, the socket
    and the timer. *)
Definition same_session (s s' : state) : Prop :=
  isWiring s' = isWiring s ∧ currentWire s' = currentWire s ∧ startPort s' = startPort s ∧
  socketOpen s' = socketOpen s ∧ clock s' = clock s ∧ timeout s' = timeout s.

(** *** Reasoning about every handler *)

(** Started in a state with [P], the computation ends (by returning or
    by throwing) in a state with [Q]. *)
Definition hoare {A} (P : state → Prop) (m : M A) (Q : state → Prop) : Prop :=
  ∀ s, P s → Q (st (m s)).

(** The page is consistent and no node on the canvas has the id [cid]
    (what holds when the release handler mints [cid]). *)
Definition consistent_without (cid : string) (s : state) : Prop :=
  consistent s ∧ findOne_id (layer s) (Some cid) = None.

(** Identities on the canvas are below the allocator, and so is [w]. *)
Definition fresh_oids_with (w : oid) (s : state) : Prop :=
  fresh_oids s ∧ (w < next_oid s)%nat.

(** The page [s0] in the middle of a drag from the port [p], the draft
    having the points [pts]. *)
Definition drag_state (s0 : state) (p : port) (pts : Z * Z * Z * Z) : state :=
  State (set_draggable (p_parent p) false (layer s0) ++
         [NLine (Line (next_oid s0) None pts true)])
        (S (next_oid s0)) (connections s0) (pendingConnections s0)
        true (Some (next_oid s0)) (Some p)
        (socketOpen s0) (clock s0) (timeout s0).

(** [stage.getPointerPosition()] is strictly inside the 500 x 500 stage. *)
Definition within_stage (pos : option (Z * Z)) : Prop :=
  ∃ x y, pos = Some (x, y) ∧ 0 < x < 500 ∧ 0 < y < 500.

(** The component group [dummyComponent.on('dragend')] builds. *)
Definition dropped_group (o : oid) (id : string) (x y : Z) : group :=
  Group o (Some id) (Some "component_group") (x - 25) (y - 25) true
        [Shape (S o) Rect None 0 0 50 "";
         Shape (S (S o)) Text None 0 0 50 "Dummy Component";
         Shape (S (S (S o))) Circle (Some "input") 0 25 10 "";
         Shape (S (S (S (S o)))) Circle (Some "output") 50 25 10 ""].

(** The text and the label [component.emitOutput] shows under a
    component whose rectangle is [rect]. *)
Definition display_text (p : params) : string :=
  "Output " +:+ sel (outputName p) +:+ ": " +:+ data_json p.

Definition data_display (o : oid) (rect : shape) (p : params) : shape :=
  Shape o Text (Some "data-display") 5 (s_height rect + 5) 0 (display_text p).

(** An output of [comp_a]. *)
Definition ex_output (data : string) : params :=
  Params None None None None None (Some "comp_a") (Some "out") data.

(** The points of the line with identity [o] on the canvas. *)
Definition line_points (ly : list node) (o : oid) : option (Z * Z * Z * Z) :=
  match snd <$> list_find (λ n, node_oid n = o) ly with
  | Some (NLine l) => Some (l_points l)
  | _ => None
  end.

(** The wire of the connection [c] runs from its source port to its
    target port. *)
Definition attached (ly : list node) (c : connection) : Prop :=
  line_points ly (c_line c) = Some (wire_points ly (c_from c) (c_to c)).

(** What [dragmove] of the component with id [d] relies on for the
    connection [c]: both ports are on components of the canvas, the wire
    is a line of the canvas, and an end on a component other than [d]
    is in place already. *)
Definition follows (d : option string) (ly : list node) (c : connection) : Prop :=
  ∃ gf gt pts,
    getParent ly (c_from c) = Some gf ∧ getParent ly (c_to c) = Some gt ∧
    line_points ly (c_line c) = Some pts ∧
    (g_id gf ≠ d → getAbsolutePosition ly (c_from c) = Some (pts.1.1.1, pts.1.1.2)) ∧
    (g_id gt ≠ d → getAbsolutePosition ly (c_to c) = Some (pts.1.2, pts.2)).

(** Konva moves the group [o] to [(x, y)]. *)
Definition moved (o : oid) (x y : Z) (ly : list node) : list node :=
  alter_group o (λ g, Group (g_oid g) (g_id g) (g_name g) x y (g_draggable g) (g_children g)) ly.

(** [ex_wired] with [comp_a] dragged to (40, 60), and its one connection. *)
Definition ex_moved : state := set_layer (moved 1%nat 40 60) ex_wired.

Definition ex_conn : connection := Connection (Some "conn_1") ex_outA ex_inB 12%nat.

(** [s'] is [s] with nothing changed but, possibly, the points of the
    line [o]. *)
Definition only_line (o : oid) (s s' : state) : Prop :=
  s' = set_layer (λ _, layer s') s ∧
  omap as_group (layer s') = omap as_group (layer s) ∧
  ∀ o', o' ≠ o → line_points (layer s') o' = line_points (layer s) o'.

(** The wiring globals agree: while [isWiring] is set there is a draft
    and a start port, and otherwise there is neither. *)
Definition session_ok (s : state) : Prop :=
  if isWiring s
  then is_Some (currentWire s) ∧ is_Some (startPort s)
  else currentWire s = None ∧ startPort s = None.

(** The computation hands nothing to the socket, from any state. *)
Definition silent {A} (m : M A) : Prop := ∀ s, sends (out (m s)) = [].

(** A message whose [params] is a falsy primitive ([0], [""], [false]):
    every field of it reads [undefined], as for any other primitive,
    and the value itself is falsy. *)
Definition falsy_params (e : event) : Prop :=
  match e with
  | EMessage (JVal _ (PPrim false)) => True
  | _ => False
  end.

(** * Properties *)

(** ** Reasoning about handlers *)

Lemma res_bind {A B} (m : M A) (k : A → M B) s :
  res (bind m k s) =
  match res (m s) with Ret a => res (k a (st (m s))) | Throw => Throw end.
Proof. unfold bind. simpl. by destruct (res (m s)). Qed.

Lemma st_bind {A B} (m : M A) (k : A → M B) s :
  st (bind m k s) =
  match res (m s) with Ret a => st (k a (st (m s))) | Throw => st (m s) end.
Proof. unfold bind. simpl. by destruct (res (m s)). Qed.

Lemma out_bind {A B} (m : M A) (k : A → M B) s :
  out (bind m k s) =
  match res (m s) with
  | Ret a => out (m s) ++ out (k a (st (m s)))
  | Throw => out (m s)
  end.
Proof. unfold bind. simpl. by destruct (res (m s)). Qed.

Ltac msimpl :=
  repeat (rewrite ?res_bind, ?st_bind, ?out_bind;
          cbn [res st out gets modify emit log draw ret throw lift when require new_oid];
          cbn [fields truthy]).

Ltac msimpl_in H :=
  repeat (rewrite ?res_bind, ?st_bind, ?out_bind in H;
          cbn [res st out gets modify emit log draw ret throw lift when require new_oid] in H;
          cbn [fields truthy] in H).

(** *** Konva lookups *)

Lemma findOne_id_elem ly v n : findOne_id ly v = Some n → n ∈ ly ∧ node_id n = Some (sel v).
Proof.
  unfold findOne_id. destruct (list_find _ ly) as [[i m]|] eqn:E; [|done].
  intros [= <-]. apply list_find_Some in E as (Hi & Hid & _).
  split; [by eapply list_elem_of_lookup_2|done].
Qed.

Lemma findOne_id_None ly v :
  findOne_id ly v = None ↔ Forall (λ n, node_id n ≠ Some (sel v)) ly.
Proof.
  unfold findOne_id. rewrite fmap_None. apply list_find_None.
Qed.

Lemma getParent_elem ly p g : getParent ly p = Some g → NGroup g ∈ ly ∧ g_oid g = p_parent p.
Proof.
  unfold getParent. destruct (list_find _ _) as [[i m]|] eqn:E; [|done].
  intros [= <-]. apply list_find_Some in E as (Hi & Hid & _).
  split; [|done]. apply list_elem_of_lookup_2 in Hi.
  apply list_elem_of_omap in Hi as (n & Hn & Hg). by destruct n; simplify_eq/=.
Qed.

Lemma getParent_is_Some ly p g :
  NGroup g ∈ ly → g_oid g = p_parent p → is_Some (getParent ly p).
Proof.
  intros Hin Ho. unfold getParent.
  destruct (list_find (λ g0, g_oid g0 = p_parent p) (omap as_group ly)) as [[i m]|] eqn:E; [by eexists|].
  apply list_find_None in E. rewrite Forall_forall in E.
  exfalso. apply (E g); [|done]. apply list_elem_of_omap. by exists (NGroup g).
Qed.

Lemma find_circle_port c name p :
  find_circle c name = Ret (Some p) →
  ∃ g, c = NGroup g ∧ p_parent p = g_oid g ∧ p_shape p ∈ g_children g ∧
       s_name (p_shape p) = name ∧ s_class (p_shape p) = Circle.
Proof.
  destruct c as [g| |]; simpl; [|done..]. intros [= H]. exists g. split; [done|].
  destruct (head _) as [sh|] eqn:E; simplify_eq/=.
  apply head_Some_elem_of in E. apply list_elem_of_filter in E as [[? ?] ?]. done.
Qed.

(** *** The connection store *)

Lemma createWire_ok id fp tp s :
  is_Some (getParent (layer s) fp) → is_Some (getParent (layer s) tp) →
  createWire id fp tp s =
  Outcome (Ret (Some (next_oid s))) (wired id fp tp s)
          [Log Info "[createWire] Creating wire."; Draw;
           Log Info "[createWire] Wire created and stored."].
Proof.
  intros [g1 H1] [g2 H2]. unfold createWire, wired, wire_points, getAbsolutePosition, bind.
  cbn [res st out gets modify emit log draw ret throw lift when require new_oid fields truthy].
  rewrite H1, H2. simpl. done.
Qed.

Lemma createWire_throw id fp tp s :
  getParent (layer s) fp = None ∨ getParent (layer s) tp = None →
  res (createWire id fp tp s) = Throw ∧ st (createWire id fp tp s) = s.
Proof.
  intros H. unfold createWire. msimpl.
  destruct (getParent (layer s) fp) eqn:E1; msimpl; [|done].
  destruct (getParent (layer s) tp) eqn:E2; msimpl; [|done].
  destruct H; congruence.
Qed.

(** *** Render-or-queue, case by case *)

Lemma draws_app es1 es2 : draws (es1 ++ es2) = (draws es1 + draws es2)%nat.
Proof. induction es1 as [|[]]; simpl; lia. Qed.

Lemma sends_app es1 es2 : sends (es1 ++ es2) = sends es1 ++ sends es2.
Proof. apply omap_app. Qed.

Lemma queue_unless_queued_eq p msg s :
  res (queue_unless_queued p msg s) = Ret tt ∧
  st (queue_unless_queued p msg s) = set_pending (enqueue p) s ∧
  draws (out (queue_unless_queued p msg s)) = 0%nat ∧
  sends (out (queue_unless_queued p msg s)) = [].
Proof.
  unfold queue_unless_queued. msimpl. unfold set_pending, enqueue.
  destruct (list_find _ _) as [[i q]|] eqn:E; msimpl; destruct s; repeat split; done.
Qed.

Lemma set_pending_dequeue_Some cid i q s :
  list_find (λ q, connectionId q = cid) (pendingConnections s) = Some (i, q) →
  set_pending (delete i) s = set_pending (dequeue cid) s.
Proof. intros E. unfold set_pending, dequeue. by rewrite E. Qed.

Lemma set_pending_dequeue_None cid s :
  list_find (λ q, connectionId q = cid) (pendingConnections s) = None →
  s = set_pending (dequeue cid) s.
Proof. intros E. unfold set_pending, dequeue. rewrite E. by destruct s. Qed.

Lemma resolve_Resolved ly p sp tp :
  resolve ly p = Resolved sp tp →
  ∃ sc tc, findOne_id ly (sourceComponentId p) = Some sc ∧
           findOne_id ly (targetComponentId p) = Some tc ∧
           find_circle sc (sourcePortName p) = Ret (Some sp) ∧
           find_circle tc (targetPortName p) = Ret (Some tp).
Proof.
  unfold resolve. intros H.
  destruct (findOne_id ly (sourceComponentId p)) as [sc|]; [|done].
  destruct (findOne_id ly (targetComponentId p)) as [tc|]; [|done].
  destruct (find_circle sc _) as [[a|]|] eqn:E1; try done;
    destruct (find_circle tc _) as [[b|]|] eqn:E2; try done.
  simplify_eq. exists sc, tc. repeat split; done.
Qed.

Lemma resolved_parents ly p sp tp :
  resolve ly p = Resolved sp tp →
  is_Some (getParent ly sp) ∧ is_Some (getParent ly tp).
Proof.
  intros (sc & tc & H1 & H2 & H3 & H4)%resolve_Resolved.
  apply findOne_id_elem in H1 as [H1 _]. apply findOne_id_elem in H2 as [H2 _].
  apply find_circle_port in H3 as (g1 & -> & ? & _). apply find_circle_port in H4 as (g2 & -> & ? & _).
  split; [by apply (getParent_is_Some _ _ g1)|by apply (getParent_is_Some _ _ g2)].
Qed.

Lemma render_missing p r s :
  resolve (layer s) p = Missing →
  res (renderLoadedConnection p r s) = Ret false ∧
  st (renderLoadedConnection p r s) = set_pending (enqueue p) s ∧
  draws (out (renderLoadedConnection p r s)) = 0%nat ∧
  sends (out (renderLoadedConnection p r s)) = [].
Proof.
  unfold resolve, renderLoadedConnection. intros H. msimpl.
  destruct (queue_unless_queued_eq p "Queuing connection." s) as (Q1 & Q2 & Q3 & Q4).
  destruct (queue_unless_queued_eq p "Queuing connection due to missing ports." s)
    as (Q1' & Q2' & Q3' & Q4').
  destruct (findOne_id (layer s) (sourceComponentId p)) as [sc|];
    destruct (findOne_id (layer s) (targetComponentId p)) as [tc|]; msimpl.
  2-4: repeat case_bool_decide; msimpl; rewrite ?Q1, ?Q2; msimpl;
       rewrite ?draws_app, ?sends_app, ?Q3, ?Q4; repeat split; done.
  destruct (find_circle sc _) as [a|]; [|done]; msimpl.
  destruct (find_circle tc _) as [b|]; [|done]; msimpl.
  destruct a as [a|], b as [b|]; try done.
  all: repeat case_bool_decide; msimpl; rewrite ?Q1', ?Q2'; msimpl;
       rewrite ?draws_app, ?sends_app, ?Q3', ?Q4'; repeat split; done.
Qed.

Lemma render_broken p r s :
  resolve (layer s) p = Broken →
  res (renderLoadedConnection p r s) = Throw ∧
  st (renderLoadedConnection p r s) = s ∧
  draws (out (renderLoadedConnection p r s)) = 0%nat.
Proof.
  unfold resolve, renderLoadedConnection. intros H. msimpl.
  destruct (findOne_id (layer s) (sourceComponentId p)) as [sc|]; [|done].
  destruct (findOne_id (layer s) (targetComponentId p)) as [tc|]; [|done]. msimpl.
  destruct (find_circle sc _) as [a|]; msimpl; [|repeat split; done].
  destruct (find_circle tc _) as [b|]; msimpl; [|repeat split; done].
  by destruct a, b.
Qed.

(** Both ports found and a node with the id on the stage: the pending
    entry goes, no line is created, a missing map entry adopts the node. *)
Lemma render_adopt p r s sp tp existing :
  resolve (layer s) p = Resolved sp tp →
  findOne_id (layer s) (connectionId p) = Some existing →
  res (renderLoadedConnection p r s) = Ret true ∧
  st (renderLoadedConnection p r s) =
    (if decide (is_Some (connections s !! connectionId p))
     then set_pending (dequeue (connectionId p)) s
     else set_connections
            <[connectionId p := Connection (connectionId p) sp tp (node_oid existing)]>
            (set_pending (dequeue (connectionId p)) s)) ∧
  draws (out (renderLoadedConnection p r s)) = 0%nat ∧
  sends (out (renderLoadedConnection p r s)) = [].
Proof.
  intros Hres Hline.
  destruct (resolve_Resolved _ _ _ _ Hres) as (sc & tc & H1 & H2 & H3 & H4).
  unfold renderLoadedConnection. msimpl. rewrite H1, H2. msimpl. rewrite H3, H4. msimpl.
  unfold getAbsolutePosition.
  destruct (getParent (layer s) sp), (getParent (layer s) tp); msimpl.
  all: destruct (list_find _ (pendingConnections s)) as [[i q]|] eqn:E; msimpl.
  all: first [ rewrite (set_pending_dequeue_Some _ _ _ _ E)
             | rewrite <- (set_pending_dequeue_None _ _ E) ].
  all: cbn [layer connections set_pending]; rewrite Hline; msimpl.
  all: case_bool_decide; destruct (decide _); try done; msimpl;
       rewrite ?draws_app, ?sends_app; repeat split; done.
Qed.

Lemma getAbsolutePosition_total ly p : ∃ xy, getAbsolutePosition ly p = Some xy.
Proof. unfold getAbsolutePosition. destruct (getParent ly p); eauto. Qed.

(** Both ports found and no node with the id on the stage: the pending
    entry goes and [createWire] adds the line and writes the map entry. *)
Lemma render_create p r s sp tp :
  resolve (layer s) p = Resolved sp tp →
  findOne_id (layer s) (connectionId p) = None →
  res (renderLoadedConnection p r s) = Ret true ∧
  st (renderLoadedConnection p r s) =
    wired (connectionId p) sp tp (set_pending (dequeue (connectionId p)) s) ∧
  draws (out (renderLoadedConnection p r s)) = 1%nat ∧
  sends (out (renderLoadedConnection p r s)) = [].
Proof.
  intros Hres Hline.
  destruct (resolve_Resolved _ _ _ _ Hres) as (sc & tc & H1 & H2 & H3 & H4).
  destruct (resolved_parents _ _ _ _ Hres) as [P1 P2].
  unfold renderLoadedConnection. msimpl. rewrite H1, H2. msimpl. rewrite H3, H4. msimpl.
  destruct (getAbsolutePosition_total (layer s) sp) as [? ->].
  destruct (getAbsolutePosition_total (layer s) tp) as [? ->]. msimpl.
  destruct (list_find _ (pendingConnections s)) as [[i q]|] eqn:E; msimpl.
  all: first [ rewrite (set_pending_dequeue_Some _ _ _ _ E)
             | rewrite <- (set_pending_dequeue_None _ _ E) ].
  all: rewrite Hline; msimpl.
  all: case_bool_decide; msimpl.
  all: rewrite createWire_ok by (cbn [layer set_pending]; done); msimpl;
       rewrite ?draws_app, ?sends_app; repeat split; done.
Qed.

(** *** The pending queue *)

Lemma enqueue_unique p pq :
  NoDup (connectionId <$> pq) → NoDup (connectionId <$> enqueue p pq).
Proof.
  intros H. unfold enqueue.
  destruct (list_find _ pq) as [[i q]|] eqn:E; [done|].
  apply list_find_None in E. rewrite fmap_app. apply NoDup_app. split; [done|]. split.
  - intros x Hx [->|[]%elem_of_nil]%elem_of_cons.
    apply list_elem_of_fmap in Hx as (q & Hq & Hin).
    rewrite Forall_forall in E. by apply (E q).
  - apply NoDup_singleton.
Qed.

Lemma dequeue_unique cid pq :
  NoDup (connectionId <$> pq) → NoDup (connectionId <$> dequeue cid pq).
Proof.
  intros H. unfold dequeue. destruct (list_find _ pq) as [[i q]|]; [|done].
  eapply sublist_NoDup; [done|]. apply fmap_sublist, sublist_delete.
Qed.

Lemma delete_found_gone cid (pq : list params) i q :
  NoDup (connectionId <$> pq) →
  list_find (λ q, connectionId q = cid) pq = Some (i, q) →
  Forall (λ q, connectionId q ≠ cid) (delete i pq).
Proof.
  revert i. induction pq as [|x pq IH]; intros i Hnd E; [done|].
  rewrite fmap_cons in Hnd. apply NoDup_cons in Hnd as [Hx Hnd].
  cbn in E. case_decide as Hd.
  - simplify_eq. cbn. apply Forall_forall. intros y Hy Heq. apply Hx.
    rewrite <- Heq. by apply list_elem_of_fmap_2.
  - destruct (list_find _ pq) as [[j y]|] eqn:F; simplify_eq/=.
    constructor; [done|]. by apply IH.
Qed.

Lemma dequeue_gone cid pq :
  NoDup (connectionId <$> pq) → Forall (λ q, connectionId q ≠ cid) (dequeue cid pq).
Proof.
  intros H. unfold dequeue.
  destruct (list_find _ pq) as [[i q]|] eqn:E; [|by apply list_find_None in E].
  by eapply delete_found_gone.
Qed.

(** What [renderLoadedConnection] leaves, in every case. *)
Lemma render_st p r s :
  st (renderLoadedConnection p r s) =
  match resolve (layer s) p with
  | Missing => set_pending (enqueue p) s
  | Broken => s
  | Resolved sp tp =>
      match findOne_id (layer s) (connectionId p) with
      | Some existing =>
          if decide (is_Some (connections s !! connectionId p))
          then set_pending (dequeue (connectionId p)) s
          else set_connections
                 <[connectionId p := Connection (connectionId p) sp tp (node_oid existing)]>
                 (set_pending (dequeue (connectionId p)) s)
      | None => wired (connectionId p) sp tp (set_pending (dequeue (connectionId p)) s)
      end
  end.
Proof.
  destruct (resolve (layer s) p) as [| |sp tp] eqn:E.
  - by apply render_missing.
  - by apply render_broken.
  - destruct (findOne_id (layer s) (connectionId p)) as [n|] eqn:F.
    + by eapply render_adopt.
    + by apply render_create.
Qed.

Lemma render_res p r s :
  res (renderLoadedConnection p r s) =
  match resolve (layer s) p with
  | Missing => Ret false
  | Broken => Throw
  | Resolved _ _ => Ret true
  end.
Proof.
  destruct (resolve (layer s) p) as [| |sp tp] eqn:E.
  - by destruct (render_missing p r s E) as [-> _].
  - by destruct (render_broken p r s E) as [-> _].
  - destruct (findOne_id (layer s) (connectionId p)) as [n|] eqn:F.
    + by destruct (render_adopt p r s sp tp n E F) as [-> _].
    + by destruct (render_create p r s sp tp E F) as [-> _].
Qed.

Lemma render_queue_unique p r s :
  queue_unique s → queue_unique (st (renderLoadedConnection p r s)).
Proof.
  unfold queue_unique. intros H. rewrite render_st.
  destruct (resolve (layer s) p); [by apply enqueue_unique|done|].
  destruct (findOne_id _ _); [destruct (decide _)|]; by apply dequeue_unique.
Qed.

(** C5 (as the code has it).  A deferral (an endpoint component or port
    is missing) returns false without touching the canvas or the store;
    the descriptor is appended to the pending queue only when no entry
    with its connection id is queued, otherwise the queue is left as it
    is: the entry queued first is kept, not replaced.  Every resolution
    attempt keeps the queue at one entry per connection id at most. *)
Theorem C5_deferral_queues_once p r s :
  (queue_unique s → queue_unique (st (renderLoadedConnection p r s))) ∧
  (resolve (layer s) p = Missing →
   res (renderLoadedConnection p r s) = Ret false ∧
   layer (st (renderLoadedConnection p r s)) = layer s ∧
   connections (st (renderLoadedConnection p r s)) = connections s ∧
   (Forall (λ q, connectionId q ≠ connectionId p) (pendingConnections s) →
    pendingConnections (st (renderLoadedConnection p r s)) = pendingConnections s ++ [p]) ∧
   (∀ q, q ∈ pendingConnections s → connectionId q = connectionId p →
    pendingConnections (st (renderLoadedConnection p r s)) = pendingConnections s)).
Proof.
  split; [apply render_queue_unique|].
  intros H. destruct (render_missing p r s H) as (-> & -> & _). repeat split.
  - intros Hall. cbn. unfold enqueue.
    by rewrite (proj2 (list_find_None _ _) Hall).
  - intros q Hin Hq. cbn. unfold enqueue.
    destruct (list_find_elem_of (λ q, connectionId q = connectionId p) _ q Hin Hq) as [x ->].
    done.
Qed.

Lemma C5_witness :
  queue_unique ex_queued ∧
  resolve (layer ex_queued) (ex_desc "c9" "comp_y") = Missing ∧
  queue_unique (st (renderLoadedConnection (ex_desc "c9" "comp_y") false ex_queued)) ∧
  pendingConnections (st (renderLoadedConnection (ex_desc "c9" "comp_y") false ex_queued))
  = pendingConnections ex_queued.
Proof.
  assert (Hq : queue_unique ex_queued) by (vm_compute; repeat constructor; apply not_elem_of_nil).
  assert (Hm : resolve (layer ex_queued) (ex_desc "c9" "comp_y") = Missing) by (vm_compute; reflexivity).
  destruct (C5_deferral_queues_once (ex_desc "c9" "comp_y") false ex_queued) as [H1 H2].
  destruct (H2 Hm) as (_ & _ & _ & _ & H3).
  split; [exact Hq|]. split; [exact Hm|]. split; [exact (H1 Hq)|].
  apply (H3 (ex_desc "c9" "comp_z")); [vm_compute; left|reflexivity].
Defined.

(** C5, as stated, fails: a second descriptor deferred under a queued id
    does not replace the queued one. *)
Lemma C5_counterexample :
  resolve (layer ex_queued) (ex_desc "c9" "comp_y") = Missing ∧
  pendingConnections ex_queued = [ex_desc "c9" "comp_z"] ∧
  pendingConnections (st (renderLoadedConnection (ex_desc "c9" "comp_y") false ex_queued))
  = [ex_desc "c9" "comp_z"] ∧
  ex_desc "c9" "comp_y" ∉
    pendingConnections (st (renderLoadedConnection (ex_desc "c9" "comp_y") false ex_queued)).
Proof.
  repeat split; try (vm_compute; reflexivity).
  intros H. vm_compute in H. apply list_elem_of_singleton in H. discriminate H.
Qed.

(** *** The message handler *)

Lemma try_catch_log m lv msg s :
  res (try_catch m (log lv msg) s) = Ret tt ∧
  st (try_catch m (log lv msg) s) = st (m s).
Proof.
  unfold try_catch. cbn zeta. destruct (res (m s)) as [[]|] eqn:E; cbn; by rewrite ?E.
Qed.

(** The handler never throws, and its state is the one the [try] block left. *)
Lemma onmessage_res d s : res (onmessage d s) = Ret tt.
Proof. unfold onmessage. msimpl. apply try_catch_log. Qed.

Lemma onmessage_st d s : st (onmessage d s) = st (dispatch d s).
Proof. unfold onmessage. msimpl. apply try_catch_log. Qed.

Lemma onmessage_out_throw d s :
  res (dispatch d s) = Throw →
  out (onmessage d s) =
  [Log Info "[WebSocket] Message received."] ++ out (dispatch d s) ++
  [Log Error "[WebSocket] Error parsing message or handling method."].
Proof.
  intros H. unfold onmessage. msimpl. unfold try_catch. cbn zeta. by rewrite H.
Qed.

Lemma onmessage_out_ret d s :
  res (dispatch d s) = Ret tt →
  out (onmessage d s) = [Log Info "[WebSocket] Message received."] ++ out (dispatch d s).
Proof.
  intros H. unfold onmessage. msimpl. unfold try_catch. cbn zeta. by rewrite H.
Qed.

Lemma dispatch_created ps s :
  dispatch (JVal (Some "v1.connection.created") ps) s =
  (log Info "[WebSocket] Parsed message." ;; on_created ps) s.
Proof. reflexivity. Qed.

Lemma dispatch_removed ps s :
  dispatch (JVal (Some "v1.connection.removed") ps) s =
  (log Info "[WebSocket] Parsed message." ;; on_removed ps) s.
Proof. reflexivity. Qed.

Lemma dispatch_load p s :
  dispatch (JVal (Some "v1.connection.load") (PObj p)) s =
  (log Info "[WebSocket] Parsed message." ;;
   p' <- lift (Ret p) ;; _ <- renderLoadedConnection p' false ;; ret tt) s.
Proof. reflexivity. Qed.

Lemma created_st p s :
  st (onmessage (JVal (Some "v1.connection.created") (PObj p)) s) =
  if decide (is_Some (connections s !! connectionId p)) then s
  else st (renderLoadedConnection p false s).
Proof.
  rewrite onmessage_st, dispatch_created. unfold on_created. msimpl.
  case_bool_decide; destruct (decide _); try done; msimpl.
  destruct (res (renderLoadedConnection p false s)) as [[]|]; msimpl; done.
Qed.

Lemma load_st p s :
  st (onmessage (JVal (Some "v1.connection.load") (PObj p)) s) =
  st (renderLoadedConnection p false s).
Proof.
  rewrite onmessage_st, dispatch_load. msimpl.
  destruct (res (renderLoadedConnection p false s)) as [[]|]; msimpl; done.
Qed.

Lemma removed_st p s :
  st (onmessage (JVal (Some "v1.connection.removed") (PObj p)) s) =
  match connections s !! connectionId p with
  | Some connEntry =>
      set_connections (delete (connectionId p)) (set_layer (destroy (c_line connEntry)) s)
  | None => s
  end.
Proof.
  rewrite onmessage_st, dispatch_removed. unfold on_removed. msimpl.
  destruct (connections s !! connectionId p); msimpl; done.
Qed.







(** C4 (as the code has it).  When both endpoint components and both
    named ports resolve, the first pending entry with the connection id
    is removed (none if absent; with a queue that holds one entry per id
    no entry with the id remains).  If a node with the id is on the
    stage, the canvas is left as it is and a missing map entry is
    created around that node, an existing one being kept.  If no node
    with the id is on the stage, [createWire] adds a new line and writes
    the map entry, replacing an entry that was already there. *)
Theorem C4_resolved_step p r s sp tp :
  resolve (layer s) p = Resolved sp tp →
  res (renderLoadedConnection p r s) = Ret true ∧
  pendingConnections (st (renderLoadedConnection p r s)) =
    dequeue (connectionId p) (pendingConnections s) ∧
  (Forall (λ q, connectionId q ≠ connectionId p) (pendingConnections s) →
   pendingConnections (st (renderLoadedConnection p r s)) = pendingConnections s) ∧
  (queue_unique s →
   Forall (λ q, connectionId q ≠ connectionId p)
          (pendingConnections (st (renderLoadedConnection p r s)))) ∧
  (∀ existing, findOne_id (layer s) (connectionId p) = Some existing →
     layer (st (renderLoadedConnection p r s)) = layer s ∧
     next_oid (st (renderLoadedConnection p r s)) = next_oid s ∧
     (is_Some (connections s !! connectionId p) →
      connections (st (renderLoadedConnection p r s)) = connections s) ∧
     (connections s !! connectionId p = None →
      connections (st (renderLoadedConnection p r s)) =
      <[connectionId p := Connection (connectionId p) sp tp (node_oid existing)]>
        (connections s))) ∧
  (findOne_id (layer s) (connectionId p) = None →
     layer (st (renderLoadedConnection p r s)) =
       NLine (Line (next_oid s) (connectionId p) (wire_points (layer s) sp tp) false)
       :: layer s ∧
     connections (st (renderLoadedConnection p r s)) =
       <[connectionId p := Connection (connectionId p) sp tp (next_oid s)]> (connections s)).
Proof.
  intros E. rewrite render_res, render_st, E.
  assert (Hpq : pendingConnections
            match findOne_id (layer s) (connectionId p) with
            | Some existing =>
                if decide (is_Some (connections s !! connectionId p))
                then set_pending (dequeue (connectionId p)) s
                else set_connections
                       <[connectionId p := Connection (connectionId p) sp tp (node_oid existing)]>
                       (set_pending (dequeue (connectionId p)) s)
            | None => wired (connectionId p) sp tp (set_pending (dequeue (connectionId p)) s)
            end = dequeue (connectionId p) (pendingConnections s)).
  { destruct (findOne_id _ _); [destruct (decide _)|]; done. }
  split; [done|]. split; [done|]. rewrite Hpq. split; [|split; [|split]].
  - intros H. unfold dequeue. by rewrite (proj2 (list_find_None _ _) H).
  - apply dequeue_gone.
  - intros existing ->. destruct (decide _) as [H|H]; cbn; repeat split; try done.
    + intros H'. rewrite H' in H. by destruct H.
  - intros ->. done.
Qed.

Lemma C4_witness :
  resolve (layer ex_stale) (ex_desc "c1" "comp_b") = Resolved ex_outA ex_inB ∧
  res (renderLoadedConnection (ex_desc "c1" "comp_b") false ex_stale) = Ret true.
Proof.
  assert (H : resolve (layer ex_stale) (ex_desc "c1" "comp_b") = Resolved ex_outA ex_inB)
    by (vm_compute; reflexivity).
  split; [exact H|].
  exact (proj1 (C4_resolved_step (ex_desc "c1" "comp_b") false ex_stale ex_outA ex_inB H)).
Defined.

(** C4, as stated, fails in the direction "map entry without edge": the
    stored entry is not adopted, a new line is created and the entry is
    replaced by one around it. *)
Lemma C4_counterexample :
  resolve (layer ex_stale) (ex_desc "c1" "comp_b") = Resolved ex_outA ex_inB ∧
  findOne_id (layer ex_stale) (Some "c1") = None ∧
  connections ex_stale !! Some "c1" = Some ex_stale_entry ∧
  connections (st (renderLoadedConnection (ex_desc "c1" "comp_b") false ex_stale)) !! Some "c1"
  = Some (Connection (Some "c1") ex_outA ex_inB 11%nat) ∧
  Connection (Some "c1") ex_outA ex_inB 11%nat ≠ ex_stale_entry ∧
  length (layer (st (renderLoadedConnection (ex_desc "c1" "comp_b") false ex_stale)))
  = S (length (layer ex_stale)).
Proof. repeat split; try (vm_compute; reflexivity). discriminate. Qed.

(** *** Containment of errors in the message handler *)

Lemma render_throw_st p r s :
  res (renderLoadedConnection p r s) = Throw → st (renderLoadedConnection p r s) = s.
Proof.
  rewrite render_res, render_st. by destruct (resolve (layer s) p).
Qed.

Lemma emitOutput_throw_st ps s :
  res (emitOutput ps s) = Throw → st (emitOutput ps s) = s.
Proof.
  unfold emitOutput. msimpl. destruct ps as [|b|p]; msimpl; [done| |].
  all: destruct (findOne_id (layer s) _) as [[g|l|sh]|]; msimpl; try done.
  all: destruct (list_find _ (g_children g)) as [[i d]|]; msimpl; try done.
  all: destruct (list_find _ (g_children g)) as [[j rect]|]; msimpl; done.
Qed.

Lemma dispatch_throw_st d s :
  res (dispatch d s) = Throw → st (dispatch d s) = s.
Proof.
  destruct d as [| |m ps]; [done|done|]. unfold dispatch. msimpl.
  repeat case_bool_decide.
  - destruct ps as [|b|p]; msimpl; [done|destruct b; msimpl|].
    + intros Ht. destruct (res (renderLoadedConnection emptyParams false s)) eqn:E; [done|].
      by apply render_throw_st.
    + done.
    + intros Ht. destruct (res (renderLoadedConnection p false s)) eqn:E; [done|].
      by apply render_throw_st.
  - apply emitOutput_throw_st.
  - unfold on_created. msimpl. destruct ps as [|b|p]; msimpl; [done| |].
    all: case_bool_decide; msimpl; [done|].
    all: intros Ht.
    + destruct (res (renderLoadedConnection emptyParams false s)) as [[]|] eqn:E; [done..|].
      by apply render_throw_st.
    + destruct (res (renderLoadedConnection p false s)) as [[]|] eqn:E; [done..|].
      by apply render_throw_st.
  - unfold on_removed. msimpl. destruct ps as [|b|p]; msimpl; [done| |].
    all: destruct (connections s !! _); msimpl; done.
  - done.
Qed.

(** C8.  The handler never throws.  When the payload does not parse or
    the dispatch throws, the handler ends with the error line on the
    console and every global (connections map, pending queue, wiring
    session, canvas) is exactly as before the message, so any later
    message is handled as if this one had not arrived.  A message whose
    method is none of the four handled ones is logged on receipt and
    changes nothing. *)
Theorem C8_malformed_contained d s :
  res (onmessage d s) = Ret tt ∧
  dispatch Malformed s = Outcome Throw s [] ∧
  (res (dispatch d s) = Throw →
   st (onmessage d s) = s ∧
   connections (st (onmessage d s)) = connections s ∧
   pendingConnections (st (onmessage d s)) = pendingConnections s ∧
   isWiring (st (onmessage d s)) = isWiring s ∧
   currentWire (st (onmessage d s)) = currentWire s ∧
   startPort (st (onmessage d s)) = startPort s ∧
   out (onmessage d s) =
     [Log Info "[WebSocket] Message received."] ++ out (dispatch d s) ++
     [Log Error "[WebSocket] Error parsing message or handling method."] ∧
   ∀ d', onmessage d' (st (onmessage d s)) = onmessage d' s) ∧
  (∀ m ps, d = JVal m ps →
   m ≠ Some "v1.connection.load" → m ≠ Some "component.emitOutput" →
   m ≠ Some "v1.connection.created" → m ≠ Some "v1.connection.removed" →
   onmessage d s =
   Outcome (Ret tt) s
     [Log Info "[WebSocket] Message received."; Log Info "[WebSocket] Parsed message."]).
Proof.
  split; [apply onmessage_res|]. split; [done|]. split.
  - intros H. assert (E : st (onmessage d s) = s).
    { rewrite onmessage_st. by apply dispatch_throw_st. }
    rewrite E. repeat split. by apply onmessage_out_throw.
  - intros m ps -> H1 H2 H3 H4. unfold onmessage, dispatch, try_catch, bind.
    cbn [res st out gets modify emit log draw ret throw lift].
    rewrite !bool_decide_false by done. reflexivity.
Qed.

Lemma C8_witness :
  res (dispatch (JVal (Some "v1.connection.removed") PNull) ex_stale) = Throw ∧
  st (onmessage (JVal (Some "v1.connection.removed") PNull) ex_stale) = ex_stale.
Proof.
  assert (H : res (dispatch (JVal (Some "v1.connection.removed") PNull) ex_stale) = Throw)
    by (vm_compute; reflexivity).
  split; [exact H|].
  exact (proj1 (proj1 (proj2 (proj2
    (C8_malformed_contained (JVal (Some "v1.connection.removed") PNull) ex_stale))) H)).
Defined.

(** *** Canvas bookkeeping *)

Lemma omap_as_group_alter_line o f ly :
  omap as_group (alter_line o f ly) = omap as_group ly.
Proof.
  unfold alter_line. induction ly as [|[g|l|sh] ly IH]; cbn; [done|by f_equal|..|done].
  destruct (decide _); cbn; done.
Qed.

Lemma omap_as_group_app_line ly l : omap as_group (ly ++ [NLine l]) = omap as_group ly.
Proof. rewrite omap_app. cbn. by rewrite app_nil_r. Qed.

Lemma getParent_alter_line o f ly p : getParent (alter_line o f ly) p = getParent ly p.
Proof. unfold getParent. by rewrite omap_as_group_alter_line. Qed.

Lemma getParent_app_line ly l p : getParent (ly ++ [NLine l]) p = getParent ly p.
Proof. unfold getParent. by rewrite omap_as_group_app_line. Qed.

Lemma getParent_cons_line ly l p : getParent (NLine l :: ly) p = getParent ly p.
Proof. done. Qed.

Lemma getParent_oid ly p g : getParent ly p = Some g → g_oid g = p_parent p.
Proof. by intros [_ ?]%getParent_elem. Qed.

(** An update of groups that keeps identities keeps every parent lookup,
    up to the update. *)
Lemma getParent_alter_group o f ly p :
  (∀ g, g_oid (f g) = g_oid g) →
  getParent (alter_group o f ly) p =
  (λ g, if decide (g_oid g = o) then f g else g) <$> getParent ly p.
Proof.
  intros Hf. unfold getParent, alter_group.
  induction ly as [|[g|l|sh] ly IH]; cbn; [done| |done|done].
  destruct (decide (g_oid g = o)) as [Ho|Ho]; cbn.
  - rewrite Hf. destruct (decide (g_oid g = p_parent p)); cbn.
    + by rewrite decide_True.
    + revert IH. cbn.
      destruct (list_find _ (omap as_group (_ <$> ly))) as [[i x]|];
        destruct (list_find _ (omap as_group ly)) as [[j y]|]; cbn; congruence.
  - destruct (decide (g_oid g = p_parent p)); cbn.
    + by rewrite decide_False.
    + revert IH. cbn.
      destruct (list_find _ (omap as_group (_ <$> ly))) as [[i x]|];
        destruct (list_find _ (omap as_group ly)) as [[j y]|]; cbn; congruence.
Qed.

Lemma getParent_set_draggable_oid o b ly p :
  g_oid <$> getParent (set_draggable o b ly) p = g_oid <$> getParent ly p.
Proof.
  unfold set_draggable. rewrite getParent_alter_group by done.
  destruct (getParent ly p) as [g|]; cbn; [|done]. by destruct (decide _).
Qed.

Lemma getParent_set_draggable_id o b ly p :
  getParent (set_draggable o b ly) p ≫= g_id = getParent ly p ≫= g_id.
Proof.
  unfold set_draggable. rewrite getParent_alter_group by done.
  destruct (getParent ly p) as [g|]; cbn; [|done]. by destruct (decide _).
Qed.

Lemma getParent_set_draggable_is_Some o b ly p :
  is_Some (getParent (set_draggable o b ly) p) ↔ is_Some (getParent ly p).
Proof. rewrite <- !(fmap_is_Some g_oid). by rewrite getParent_set_draggable_oid. Qed.

Lemma port_on_layer_parent ly p name :
  port_on_layer ly p name → ∃ g, getParent ly p = Some g ∧ g_oid g = p_parent p.
Proof.
  intros (g & Hin & Ho & _).
  destruct (getParent_is_Some ly p g Hin Ho) as [g' Hg']. exists g'. split; [done|].
  by eapply getParent_oid.
Qed.

Lemma node_oid_alter_group o f ly :
  (∀ g, g_oid (f g) = g_oid g) →
  node_oid <$> alter_group o f ly = node_oid <$> ly.
Proof.
  intros Hf. unfold alter_group. rewrite <- list_fmap_compose. apply list_fmap_ext.
  intros i [g|l|sh] _; cbn; [|done..]. destruct (decide _); cbn; by rewrite ?Hf.
Qed.

Lemma node_oid_alter_line o f ly :
  (∀ l, l_oid (f l) = l_oid l) →
  node_oid <$> alter_line o f ly = node_oid <$> ly.
Proof.
  intros Hf. unfold alter_line. rewrite <- list_fmap_compose. apply list_fmap_ext.
  intros i [g|l|sh] _; cbn; [done| |done]. destruct (decide _); cbn; by rewrite ?Hf.
Qed.

Lemma Forall_oid_fmap (P : oid → Prop) ly :
  Forall (λ n, P (node_oid n)) ly ↔ Forall P (node_oid <$> ly).
Proof. by rewrite Forall_fmap. Qed.

Lemma destroy_absent o ly : Forall (λ n, node_oid n ≠ o) ly → destroy o ly = ly.
Proof.
  intros H. unfold destroy. induction H as [|n ly Hn H IH]; [done|].
  rewrite filter_cons_True by done. by rewrite IH.
Qed.

Lemma destroy_draft o ly x :
  Forall (λ n, (node_oid n < o)%nat) ly → node_oid x = o → destroy o (ly ++ [x]) = ly.
Proof.
  intros H Hx. unfold destroy. rewrite filter_app, filter_cons_False, filter_nil, app_nil_r.
  - apply destroy_absent. eapply Forall_impl; [done|]. cbn. lia.
  - by intros [].
Qed.

Lemma alter_line_absent o f ly :
  Forall (λ n, node_oid n ≠ o) ly → alter_line o f ly = ly.
Proof.
  intros H. unfold alter_line. induction H as [|n ly Hn H IH]; [done|].
  cbn. rewrite IH. destruct n as [g|l|sh]; [done| |done].
  by rewrite decide_False.
Qed.

Lemma alter_line_draft o f ly l :
  Forall (λ n, (node_oid n < o)%nat) ly → l_oid l = o →
  alter_line o f (ly ++ [NLine l]) = ly ++ [NLine (f l)].
Proof.
  intros H Hl. unfold alter_line at 1. rewrite fmap_app. cbn. rewrite decide_True by done.
  f_equal. apply alter_line_absent. eapply Forall_impl; [done|]. cbn. lia.
Qed.

Lemma set_draggable_twice o b b' ly :
  set_draggable o b (set_draggable o b' ly) = set_draggable o b ly.
Proof.
  unfold set_draggable, alter_group. rewrite <- list_fmap_compose. apply list_fmap_ext.
  intros i [g|l|sh] _; cbn; [|done..].
  destruct (decide (g_oid g = o)); cbn; [by rewrite decide_True|by rewrite decide_False].
Qed.

Lemma set_draggable_cons_line o b l ly :
  set_draggable o b (NLine l :: ly) = NLine l :: set_draggable o b ly.
Proof. done. Qed.

Lemma findOne_id_alter_group o f ly v :
  (∀ g, g_id (f g) = g_id g) →
  findOne_id (alter_group o f ly) v = None ↔ findOne_id ly v = None.
Proof.
  intros Hf. rewrite !findOne_id_None. unfold alter_group. rewrite Forall_fmap.
  apply Forall_iff. intros [g|l|sh]; cbn; [|done..]. destruct (decide _); cbn; by rewrite ?Hf.
Qed.

Lemma findOne_id_destroy o ly v :
  findOne_id ly v = None → findOne_id (destroy o ly) v = None.
Proof.
  rewrite !findOne_id_None. intros H. unfold destroy.
  apply Forall_forall. intros n [_ Hin]%list_elem_of_filter.
  rewrite Forall_forall in H. by apply H.
Qed.

(** *** The wiring gesture, step by step *)

Ltac ssimpl :=
  cbn [layer next_oid connections pendingConnections isWiring currentWire startPort
       socketOpen clock timeout set_layer set_next_oid set_connections set_pending
       set_wiring set_currentWire set_socketOpen set_clock set_timeout].

Ltac mssimpl := repeat (progress (msimpl; ssimpl)); unfold set_layer; ssimpl.

Lemma mousedown_eq p s :
  is_Some (getParent (layer s) p) →
  res (outputPort_mousedown p s) = Ret tt ∧
  st (outputPort_mousedown p s) =
  State (set_draggable (p_parent p) false (layer s) ++
         [NLine (draft_line (set_draggable (p_parent p) false (layer s)) p (next_oid s))])
        (S (next_oid s)) (connections s) (pendingConnections s)
        true (Some (next_oid s)) (Some p) (socketOpen s) (clock s) (timeout s).
Proof.
  intros [g Hg]. pose proof (getParent_oid _ _ _ Hg) as Ho.
  unfold outputPort_mousedown. mssimpl. rewrite Hg. mssimpl. rewrite Ho.
  destruct (getAbsolutePosition_total (set_draggable (p_parent p) false (layer s)) p) as [xy E].
  unfold draft_line. rewrite E. mssimpl. done.
Qed.

Lemma mousedown_dragging p s :
  is_Some (getParent (layer s) p) → dragging s p (st (outputPort_mousedown p s)).
Proof.
  intros H. destruct (mousedown_eq p s H) as [_ ->].
  eexists. repeat split; done.
Qed.

Lemma fresh_oids_set_draggable s o b :
  fresh_oids s → Forall (λ n, (node_oid n < next_oid s)%nat) (set_draggable o b (layer s)).
Proof.
  unfold fresh_oids. rewrite !(Forall_oid_fmap (λ o, (o < next_oid s)%nat)).
  unfold set_draggable. by rewrite node_oid_alter_group.
Qed.

Lemma mousemove_dragging s0 p s1 pos :
  fresh_oids s0 → dragging s0 p s1 → dragging s0 p (st (stage_mousemove pos s1)).
Proof.
  intros Hf (l & Ho & Hid & Hd & ->). unfold stage_mousemove. mssimpl.
  rewrite alter_line_draft by (by apply fresh_oids_set_draggable || done).
  eexists. split; [|split; [|split; [|reflexivity]]]; done.
Qed.

Lemma run_cons e es s : run (e :: es) s = run es (step e s).
Proof. done. Qed.

Lemma moves_dragging s0 p moves s1 :
  fresh_oids s0 → dragging s0 p s1 → dragging s0 p (run (EMouseMove <$> moves) s1).
Proof.
  intros Hf. revert s1. induction moves as [|pos moves IH]; intros s1 H; [done|].
  rewrite fmap_cons, run_cons. apply IH. by apply mousemove_dragging.
Qed.

Lemma press_and_moves_dragging s0 p moves :
  fresh_oids s0 → is_Some (getParent (layer s0) p) →
  dragging s0 p (run (EOutputDown p :: (EMouseMove <$> moves)) s0).
Proof.
  intros Hf Hp. rewrite run_cons. apply moves_dragging; [done|].
  by apply mousedown_dragging.
Qed.

Lemma getParent_set_draggable_Some o b ly p g :
  getParent ly p = Some g →
  ∃ g', getParent (set_draggable o b ly) p = Some g' ∧ g_oid g' = p_parent p ∧ g_id g' = g_id g.
Proof.
  intros H. unfold set_draggable. rewrite getParent_alter_group, H by done. cbn.
  pose proof (getParent_oid _ _ _ H). destruct (decide _); eexists; repeat split; done.
Qed.

Lemma release_same s0 p s1 q cid :
  fresh_oids s0 → dragging s0 p s1 →
  is_Some (getParent (layer s0) p) → is_Some (getParent (layer s0) q) →
  p_parent q = p_parent p →
  res (release_on_input q cid s1) = Ret tt ∧
  st (release_on_input q cid s1) =
    State (set_draggable (p_parent p) true (layer s0)) (S (next_oid s0))
          (connections s0) (pendingConnections s0) false None None
          (socketOpen s0) (clock s0) (timeout s0) ∧
  sends (out (release_on_input q cid s1)) = [].
Proof.
  intros Hf (l & Ho & Hid & Hd & ->) [gp Hp] [gq Hq] Heq.
  destruct (getParent_set_draggable_Some (p_parent p) false _ _ _ Hp) as (gp' & Hp' & Hop' & _).
  destruct (getParent_set_draggable_Some (p_parent p) false _ _ _ Hq) as (gq' & Hq' & Hoq' & _).
  unfold release_on_input, inputPort_mouseup. mssimpl.
  rewrite !getParent_app_line, Hp', Hq'. cbn [fmap option_fmap option_map].
  rewrite bool_decide_false by (rewrite Hop', Hoq', Heq; by intros []).
  unfold destroy_currentWire, reenable_drag. mssimpl.
  rewrite destroy_draft by (by apply fresh_oids_set_draggable || done).
  rewrite Hp'. mssimpl. rewrite Hop', set_draggable_twice.
  unfold stage_mouseup. mssimpl. cbn [andb negb]. rewrite bool_decide_false by (by intros [? ?]).
  mssimpl. repeat split; done.
Qed.

Lemma release_differ s0 p s1 q cid :
  fresh_oids s0 → dragging s0 p s1 →
  is_Some (getParent (layer s0) p) → is_Some (getParent (layer s0) q) →
  p_parent q ≠ p_parent p →
  res (release_on_input q cid s1) = Ret tt ∧
  st (release_on_input q cid s1) =
    State (NLine (Line (S (next_oid s0)) (Some cid)
                       (wire_points (set_draggable (p_parent p) false (layer s0)) p q) false)
           :: set_draggable (p_parent p) true (layer s0))
          (S (S (next_oid s0)))
          (<[Some cid := Connection (Some cid) p q (S (next_oid s0))]> (connections s0))
          (pendingConnections s0) false None None
          (socketOpen s0) (clock s0) (timeout s0) ∧
  sends (out (release_on_input q cid s1)) =
    (if socketOpen s0
     then [("v1.connection.create", create_params (layer s0) p q cid)]
     else []) ∧
  draws (out (release_on_input q cid s1)) = 1%nat.
Proof.
  intros Hf (l & Ho & Hid & Hd & ->) [gp Hp] [gq Hq] Hne.
  destruct (getParent_set_draggable_Some (p_parent p) false _ _ _ Hp) as (gp' & Hp' & Hop' & Hip).
  destruct (getParent_set_draggable_Some (p_parent p) false _ _ _ Hq) as (gq' & Hq' & Hoq' & Hiq).
  unfold release_on_input, inputPort_mouseup. mssimpl.
  rewrite !getParent_app_line, Hp', Hq'. cbn [fmap option_fmap option_map].
  rewrite bool_decide_true by (rewrite Hop', Hoq'; congruence).
  unfold destroy_currentWire. mssimpl.
  rewrite destroy_draft by (by apply fresh_oids_set_draggable || done).
  rewrite Hp', Hq'. mssimpl.
  rewrite createWire_ok by (ssimpl; by eexists). unfold wired. mssimpl.
  unfold create_params. rewrite Hp, Hq. cbn [mbind option_bind]. rewrite Hip, Hiq.
  destruct (socketOpen s0); mssimpl.
  all: unfold reenable_drag; mssimpl; rewrite getParent_cons_line, Hp'; mssimpl.
  all: rewrite Hop', set_draggable_cons_line, set_draggable_twice.
  all: unfold stage_mouseup; mssimpl; cbn [andb negb].
  all: rewrite bool_decide_false by (by intros [? ?]); mssimpl; repeat split; done.
Qed.

(** *** Facts about the example page *)

Lemma ex_two_fresh : fresh_oids ex_two.
Proof. vm_compute. repeat constructor. Qed.

Ltac port_here i j :=
  eexists; split; [apply (list_elem_of_lookup_2 _ i); vm_compute; reflexivity|];
  split; [vm_compute; reflexivity|];
  split; [apply (list_elem_of_lookup_2 _ j); vm_compute; reflexivity|];
  split; vm_compute; reflexivity.

Lemma ex_two_outA : port_on_layer (layer ex_two) ex_outA "output".
Proof. port_here 1%nat 3%nat. Qed.

Lemma ex_two_inA : port_on_layer (layer ex_two) ex_inA "input".
Proof. port_here 1%nat 2%nat. Qed.

Lemma ex_two_inB : port_on_layer (layer ex_two) ex_inB "input".
Proof. port_here 2%nat 2%nat. Qed.

(** C3.  A drag that starts on an output port of a node and, after any
    pointer moves, is released on an input port of the same node commits
    nothing: the map and the pending queue are as before the press, no
    message is sent, the draft is gone (the canvas is the one before the
    press, the origin draggable again) and the wiring globals are reset.
    With a connection id new to the map, the release stores a connection
    exactly when the two ports have different parent nodes. *)
Theorem C3_no_self_loop s outP moves q cid :
  fresh_oids s →
  port_on_layer (layer s) outP "output" →
  port_on_layer (layer s) q "input" →
  connections s !! Some cid = None →
  (p_parent q = p_parent outP →
   res (release_on_input q cid (run (EOutputDown outP :: (EMouseMove <$> moves)) s)) = Ret tt ∧
   connections (st (release_on_input q cid (run (EOutputDown outP :: (EMouseMove <$> moves)) s)))
     = connections s ∧
   pendingConnections (st (release_on_input q cid (run (EOutputDown outP :: (EMouseMove <$> moves)) s)))
     = pendingConnections s ∧
   layer (st (release_on_input q cid (run (EOutputDown outP :: (EMouseMove <$> moves)) s)))
     = set_draggable (p_parent outP) true (layer s) ∧
   sends (out (release_on_input q cid (run (EOutputDown outP :: (EMouseMove <$> moves)) s))) = [] ∧
   isWiring (st (release_on_input q cid (run (EOutputDown outP :: (EMouseMove <$> moves)) s)))
     = false ∧
   currentWire (st (release_on_input q cid (run (EOutputDown outP :: (EMouseMove <$> moves)) s)))
     = None ∧
   startPort (st (release_on_input q cid (run (EOutputDown outP :: (EMouseMove <$> moves)) s)))
     = None) ∧
  (is_Some (connections
              (st (release_on_input q cid (run (EOutputDown outP :: (EMouseMove <$> moves)) s)))
              !! Some cid)
   ↔ p_parent q ≠ p_parent outP).
Proof.
  intros Hf (gp & Hp & _)%port_on_layer_parent (gq & Hq & _)%port_on_layer_parent Hnew.
  assert (Hd := press_and_moves_dragging s outP moves Hf (mk_is_Some _ _ Hp)).
  split.
  - intros Heq.
    destruct (release_same s outP _ q cid Hf Hd (mk_is_Some _ _ Hp) (mk_is_Some _ _ Hq) Heq)
      as (-> & -> & ->). repeat split.
  - destruct (decide (p_parent q = p_parent outP)) as [Heq|Hne].
    + destruct (release_same s outP _ q cid Hf Hd (mk_is_Some _ _ Hp) (mk_is_Some _ _ Hq) Heq)
        as (_ & -> & _). cbn. rewrite Hnew. split; [by intros [? ?]|done].
    + destruct (release_differ s outP _ q cid Hf Hd (mk_is_Some _ _ Hp) (mk_is_Some _ _ Hq) Hne)
        as (_ & -> & _). cbn. rewrite lookup_insert_eq. split; [done|by eexists].
Qed.

Lemma C3_witness :
  fresh_oids ex_two ∧
  port_on_layer (layer ex_two) ex_outA "output" ∧
  port_on_layer (layer ex_two) ex_inA "input" ∧
  connections ex_two !! Some "conn_1" = None ∧
  connections (st (release_on_input ex_inA "conn_1"
                     (run (EOutputDown ex_outA :: (EMouseMove <$> [(200, 120)])) ex_two)))
  = connections ex_two.
Proof.
  split; [exact ex_two_fresh|]. split; [exact ex_two_outA|]. split; [exact ex_two_inA|].
  assert (Hnew : connections ex_two !! Some "conn_1" = None) by (vm_compute; reflexivity).
  split; [exact Hnew|].
  exact (proj1 (proj2 (proj1 (C3_no_self_loop ex_two ex_outA [(200, 120)] ex_inA "conn_1"
           ex_two_fresh ex_two_outA ex_two_inA Hnew) eq_refl))).
Defined.

(** C9 (as the code has it).  A connection committed by the wiring
    gesture runs from the pressed output circle to the input circle of
    the release: source named [output], target named [input].  A
    descriptor is resolved by name and shape only: the stored source is
    a [Circle] child, named [sourcePortName], of the first node with id
    [sourceComponentId], the stored target a [Circle] child, named
    [targetPortName], of the first node with id [targetComponentId];
    same-named circles of other nodes are not considered, and no
    direction is checked. *)
Theorem C9_port_lookup :
  (∀ s outP moves q cid,
     fresh_oids s →
     port_on_layer (layer s) outP "output" →
     port_on_layer (layer s) q "input" →
     p_parent q ≠ p_parent outP →
     ∃ e, connections
            (st (release_on_input q cid (run (EOutputDown outP :: (EMouseMove <$> moves)) s)))
            !! Some cid = Some e ∧
          c_from e = outP ∧ c_to e = q ∧
          port_name (c_from e) = Some "output" ∧ port_name (c_to e) = Some "input") ∧
  (∀ s p r sp tp,
     resolve (layer s) p = Resolved sp tp →
     connections s !! connectionId p = None →
     ∃ e gs gt,
       connections (st (renderLoadedConnection p r s)) !! connectionId p = Some e ∧
       c_from e = sp ∧ c_to e = tp ∧
       findOne_id (layer s) (sourceComponentId p) = Some (NGroup gs) ∧
       findOne_id (layer s) (targetComponentId p) = Some (NGroup gt) ∧
       p_parent sp = g_oid gs ∧ p_shape sp ∈ g_children gs ∧
       s_class (p_shape sp) = Circle ∧ port_name sp = sourcePortName p ∧
       p_parent tp = g_oid gt ∧ p_shape tp ∈ g_children gt ∧
       s_class (p_shape tp) = Circle ∧ port_name tp = targetPortName p).
Proof.
  split.
  - intros s outP moves q cid Hf Ho Hi Hne.
    pose proof Ho as (gp & Hp & _)%port_on_layer_parent.
    pose proof Hi as (gq & Hq & _)%port_on_layer_parent.
    assert (Hd := press_and_moves_dragging s outP moves Hf (mk_is_Some _ _ Hp)).
    destruct (release_differ s outP _ q cid Hf Hd (mk_is_Some _ _ Hp) (mk_is_Some _ _ Hq) Hne)
      as (_ & -> & _).
    eexists. cbn [connections]. rewrite lookup_insert_eq. split; [done|]. cbn.
    destruct Ho as (_ & _ & _ & _ & _ & Hn1). destruct Hi as (_ & _ & _ & _ & _ & Hn2).
    repeat split; done.
  - intros s p r sp tp E Hnew.
    destruct (resolve_Resolved _ _ _ _ E) as (sc & tc & H1 & H2 & H3 & H4).
    apply find_circle_port in H3 as (gs & -> & ? & ? & ? & ?).
    apply find_circle_port in H4 as (gt & -> & ? & ? & ? & ?).
    assert (∃ o, connections (st (renderLoadedConnection p r s)) !! connectionId p
                 = Some (Connection (connectionId p) sp tp o)) as [o Ho].
    { rewrite render_st, E. destruct (findOne_id (layer s) (connectionId p)).
      - rewrite decide_False by (rewrite Hnew; by intros [? ?]).
        eexists. cbn. by rewrite lookup_insert_eq.
      - eexists. cbn. by rewrite lookup_insert_eq. }
    eexists _, gs, gt. split; [exact Ho|]. cbn. repeat split; done.
Qed.

Lemma C9_witness :
  resolve (layer ex_two) ex_reversed = Resolved ex_inA ex_outB ∧
  connections ex_two !! connectionId ex_reversed = None ∧
  ∃ e, connections (st (renderLoadedConnection ex_reversed false ex_two))
         !! connectionId ex_reversed = Some e ∧
       c_from e = ex_inA ∧ c_to e = ex_outB.
Proof.
  assert (H1 : resolve (layer ex_two) ex_reversed = Resolved ex_inA ex_outB)
    by (vm_compute; reflexivity).
  assert (H2 : connections ex_two !! connectionId ex_reversed = None)
    by (vm_compute; reflexivity).
  split; [exact H1|]. split; [exact H2|].
  destruct (proj2 C9_port_lookup ex_two ex_reversed false ex_inA ex_outB H1 H2)
    as (e & gs & gt & He & Hf & Ht & _).
  exists e. split; [exact He|]. split; [exact Hf|exact Ht].
Defined.

(** C9, as stated, fails: a loaded descriptor that names an input
    circle as source and an output circle as target is stored that way. *)
Lemma C9_counterexample :
  ∃ e, connections (st (onmessage (JVal (Some "v1.connection.load") (PObj ex_reversed)) ex_two))
         !! Some "c1" = Some e ∧
       port_name (c_from e) = Some "input" ∧
       port_name (c_to e) = Some "output".
Proof.
  exists (Connection (Some "c1") ex_inA ex_outB 11%nat).
  repeat split; vm_compute; reflexivity.
Qed.

(** *** Deleting connections *)

Lemma elem_of_visual_edges X ly l :
  l ∈ visual_edges X ly ↔ NLine l ∈ ly ∧ l_id l = Some X.
Proof.
  unfold visual_edges. rewrite list_elem_of_filter, list_elem_of_omap. split.
  - intros [Hid (n & Hn & Hl)]. destruct n; simplify_eq/=. done.
  - intros [Hin Hid]. split; [done|]. by exists (NLine l).
Qed.

Lemma visual_edges_nil X ly :
  visual_edges X ly = [] ↔ ∀ l, NLine l ∈ ly → l_id l ≠ Some X.
Proof.
  split.
  - intros H l Hin Hid. assert (Hl : l ∈ visual_edges X ly) by by apply elem_of_visual_edges.
    rewrite H in Hl. by apply elem_of_nil in Hl.
  - intros H. apply elem_of_nil_inv. intros l [Hin Hid]%elem_of_visual_edges.
    by apply (H l).
Qed.

Lemma consistent_line s l X :
  consistent s → NLine l ∈ layer s → l_id l = Some X →
  ∃ e, connections s !! Some X = Some e ∧ c_line e = l_oid l.
Proof.
  unfold consistent. rewrite Forall_forall. intros H Hin Hid.
  specialize (H _ Hin). cbn in H. rewrite Hid in H.
  destruct (connections s !! Some X) as [e|]; [|done]. exists e. split; [done|].
  by injection H.
Qed.

Lemma consistent_no_entry_no_edge s X :
  consistent s → connections s !! Some X = None → visual_edges X (layer s) = [].
Proof.
  intros Hc Hn. apply visual_edges_nil. intros l Hin Hid.
  destruct (consistent_line s l X Hc Hin Hid) as (e & He & _). congruence.
Qed.

Lemma consistent_destroy_clears s X e :
  consistent s → connections s !! Some X = Some e →
  visual_edges X (destroy (c_line e) (layer s)) = [].
Proof.
  intros Hc He. apply visual_edges_nil. intros l Hin Hid.
  apply list_elem_of_filter in Hin as [Hne Hin]. cbn in Hne.
  destruct (consistent_line s l X Hc Hin Hid) as (e' & He' & Hl). congruence.
Qed.

Lemma wire_on_layer_elem ly w l :
  wire_on_layer ly w = Some l → NLine l ∈ ly ∧ l_oid l = w ∧ l_dash l = false.
Proof.
  unfold wire_on_layer. destruct (list_find _ ly) as [[i [g|l0|sh]]|] eqn:E; try done.
  destruct (l_dash l0) eqn:D; [done|]. intros [= <-].
  apply list_find_Some in E as (Hi & Ho & _). repeat split; try done.
  by eapply list_elem_of_lookup_2.
Qed.

Lemma contextmenu_st id wire s :
  st (wire_contextmenu id wire true s) =
  set_layer (destroy wire) (set_connections (delete id) s).
Proof.
  unfold wire_contextmenu. msimpl.
  destruct (socketOpen s); msimpl; case_bool_decide as H; msimpl; try done.
  all: unfold set_layer, set_connections; cbn; f_equal.
  all: symmetry; apply delete_id; by apply eq_None_not_Some.
Qed.

Lemma removed_out_absent p s :
  connections s !! connectionId p = None →
  dispatch (JVal (Some "v1.connection.removed") (PObj p)) s =
  Outcome (Ret tt) s
    [Log Info "[WebSocket] Parsed message.";
     Log Info "[WebSocket] Received v1.connection.removed.";
     Log Warn "[WebSocket] Could not find connection to remove via v1.connection.removed."].
Proof.
  intros H. rewrite dispatch_removed. unfold on_removed, bind.
  cbn [res st out gets modify emit log draw ret throw lift fields]. by rewrite H.
Qed.

(** C6.  On a page where every line that carries an id is the line of
    the stored connection of that id: after a [v1.connection.removed]
    for [X], or after the confirmed context-menu delete on a wire with
    id [X], the map has no entry for [X] and no line with id [X] is on
    the canvas.  A removal for an id that is not stored does not throw
    and leaves every global as it was; it is logged as a warning. *)
Theorem C6_deletion_symmetry s X :
  consistent s →
  (∀ p, connectionId p = Some X →
     res (dispatch (JVal (Some "v1.connection.removed") (PObj p)) s) = Ret tt ∧
     connections (st (onmessage (JVal (Some "v1.connection.removed") (PObj p)) s)) !! Some X
       = None ∧
     visual_edges X (layer (st (onmessage (JVal (Some "v1.connection.removed") (PObj p)) s)))
       = []) ∧
  (∀ w l, wire_on_layer (layer s) w = Some l → l_id l = Some X →
     res (handler (EContextMenu w true) s) = Ret tt ∧
     connections (st (handler (EContextMenu w true) s)) !! Some X = None ∧
     visual_edges X (layer (st (handler (EContextMenu w true) s))) = []) ∧
  (∀ p, connectionId p = Some X → connections s !! Some X = None →
     st (onmessage (JVal (Some "v1.connection.removed") (PObj p)) s) = s ∧
     out (onmessage (JVal (Some "v1.connection.removed") (PObj p)) s) =
       [Log Info "[WebSocket] Message received.";
        Log Info "[WebSocket] Parsed message.";
        Log Info "[WebSocket] Received v1.connection.removed.";
        Log Warn "[WebSocket] Could not find connection to remove via v1.connection.removed."]).
Proof.
  intros Hc. split; [|split].
  - intros p Hp. split.
    { rewrite dispatch_removed. unfold on_removed. msimpl.
      destruct (connections s !! connectionId p); msimpl; done. }
    rewrite removed_st, Hp. destruct (connections s !! Some X) as [e|] eqn:E.
    + cbn. rewrite lookup_delete_eq. split; [done|]. by apply consistent_destroy_clears.
    + split; [done|]. by apply consistent_no_entry_no_edge.
  - intros w l Hw Hid. cbn [handler]. msimpl. rewrite Hw.
    destruct (wire_on_layer_elem _ _ _ Hw) as (Hin & Ho & _).
    destruct (consistent_line s l X Hc Hin Hid) as (e & He & Hl).
    rewrite contextmenu_st, Hid. split.
    { unfold wire_contextmenu. msimpl.
      destruct (socketOpen s); msimpl; case_bool_decide; msimpl; done. }
    cbn. rewrite lookup_delete_eq. split; [done|].
    rewrite <- Ho, <- Hl. by apply consistent_destroy_clears.
  - intros p Hp Hn. rewrite <- Hp in Hn.
    rewrite onmessage_st, onmessage_out_ret; rewrite removed_out_absent by done; done.
Qed.

Lemma ex_wired_consistent : consistent ex_wired.
Proof.
  unfold consistent.
  assert (E : layer ex_wired =
              NLine (Line 12%nat (Some "conn_1") (125, 100, 275, 100) false)
              :: set_draggable 1%nat true (layer ex_two)) by (vm_compute; reflexivity).
  rewrite E. constructor; [vm_compute; reflexivity|].
  vm_compute. repeat constructor.
Qed.

Lemma C6_witness :
  consistent ex_wired ∧
  connections ex_wired !! Some "conn_1"
    = Some (Connection (Some "conn_1") ex_outA ex_inB 12%nat) ∧
  connections (st (onmessage (JVal (Some "v1.connection.removed")
                                (PObj (ex_id_only "conn_1"))) ex_wired)) !! Some "conn_1"
    = None ∧
  visual_edges "conn_1"
    (layer (st (onmessage (JVal (Some "v1.connection.removed")
                             (PObj (ex_id_only "conn_1"))) ex_wired))) = [].
Proof.
  split; [exact ex_wired_consistent|]. split; [vm_compute; reflexivity|].
  exact (proj2 (proj1 (C6_deletion_symmetry ex_wired "conn_1" ex_wired_consistent)
                  (ex_id_only "conn_1") eq_refl)).
Defined.

(** *** Draining the queue *)

Lemma drain_st s :
  st (processPendingConnections s) =
  st (retry_each (connectionId <$> pendingConnections s) 0%nat s).
Proof.
  unfold processPendingConnections. msimpl.
  destruct (pendingConnections s) as [|d rest] eqn:E; [done|].
  rewrite fmap_cons. msimpl.
  destruct (res (retry_each _ _ s)) as [n|]; [|done]. msimpl.
  case_bool_decide; msimpl; [done|]. case_bool_decide; msimpl; done.
Qed.

Lemma render_keeps_stored X p r s :
  stored_with_edge X s → stored_with_edge X (st (renderLoadedConnection p r s)).
Proof.
  intros (e & l & He & Hin & Hid & Hl). rewrite render_st.
  destruct (resolve (layer s) p) as [| |sp tp]; [by exists e, l|by exists e, l|].
  destruct (findOne_id (layer s) (connectionId p)) as [n|] eqn:F.
  - destruct (decide _) as [H|H]; [by exists e, l|].
    exists e, l. cbn. rewrite lookup_insert_ne; [done|].
    intros Heq. apply H. rewrite Heq. by eexists.
  - exists e, l. cbn. rewrite lookup_insert_ne; [repeat split; try done; by right|].
    intros Heq. apply findOne_id_None in F. rewrite Forall_forall in F.
    apply (F _ Hin). cbn. by rewrite Heq.
Qed.

Lemma retry_each_keeps_stored X ids n s :
  stored_with_edge X s → stored_with_edge X (st (retry_each ids n s)).
Proof.
  revert n s. induction ids as [|cid ids IH]; intros n s H; [done|].
  cbn [retry_each]. msimpl.
  destruct (list_find _ (pendingConnections s)) as [[i ps]|]; cbn [fmap option_fmap option_map snd];
    [|by apply IH].
  msimpl. pose proof (render_keeps_stored X ps true s H) as H'.
  destruct (res (renderLoadedConnection ps true s)) as [ok|]; [|done]. by apply IH.
Qed.

Lemma removed_keeps_queue ps s :
  pendingConnections (st (onmessage (JVal (Some "v1.connection.removed") ps) s))
  = pendingConnections s.
Proof.
  rewrite onmessage_st, dispatch_removed. unfold on_removed. msimpl.
  destruct ps as [|b|p]; msimpl; [done| |]; destruct (connections s !! _); msimpl; done.
Qed.

Lemma enqueue_queued p pq i q :
  list_find (λ q, connectionId q = connectionId p) pq = Some (i, q) → enqueue p pq = pq.
Proof. intros H. unfold enqueue. by rewrite H. Qed.

(** Retrying an id whose queued descriptor still misses an endpoint
    changes nothing. *)
Lemma retry_missing cid ids n s :
  (∀ i q, list_find (λ q, connectionId q = cid) (pendingConnections s) = Some (i, q) →
          resolve (layer s) q = Missing) →
  retry_each (cid :: ids) n s =
  match list_find (λ q, connectionId q = cid) (pendingConnections s) with
  | Some (_, q) =>
      Outcome (res (retry_each ids n s)) (st (retry_each ids n s))
              (out (renderLoadedConnection q true s) ++ out (retry_each ids n s))
  | None => retry_each ids n s
  end.
Proof.
  intros H. cbn [retry_each]. unfold bind at 1. cbn [gets res st out].
  destruct (list_find _ (pendingConnections s)) as [[i q]|] eqn:E;
    cbn [fmap option_fmap option_map snd]; [|by destruct (retry_each ids n s)].
  specialize (H i q eq_refl). destruct (render_missing q true s H) as (Hr & Hs & _).
  unfold bind. cbn zeta. rewrite Hr, Hs.
  assert (Hq : set_pending (enqueue q) s = s).
  { unfold set_pending. apply list_find_Some in E as (Hi & Hc & Hmin).
    rewrite (enqueue_queued q (pendingConnections s) i q); [by destruct s|].
    apply list_find_Some. rewrite Hc. split; [done|]. split; [done|].
    intros j y Hj Hlt. exact (Hmin j y Hj Hlt). }
  rewrite Hq. done.
Qed.

Lemma retry_missing_prefix pre ids n s :
  Forall (λ cid, ∀ i q,
            list_find (λ q, connectionId q = cid) (pendingConnections s) = Some (i, q) →
            resolve (layer s) q = Missing) pre →
  st (retry_each (pre ++ ids) n s) = st (retry_each ids n s) ∧
  res (retry_each (pre ++ ids) n s) = res (retry_each ids n s).
Proof.
  induction 1 as [|cid pre H _ IH]; [done|].
  rewrite <- app_comm_cons, retry_missing by done.
  by destruct (list_find _ (pendingConnections s)) as [[i q]|].
Qed.

Lemma drain_promotes s X pre d rest sp tp :
  pendingConnections s = pre ++ d :: rest →
  Forall (λ q, resolve (layer s) q = Missing ∧ connectionId q ≠ Some X) pre →
  connectionId d = Some X →
  resolve (layer s) d = Resolved sp tp →
  findOne_id (layer s) (Some X) = None →
  stored_with_edge X (st (processPendingConnections s)).
Proof.
  intros Hq Hpre Hid E F.
  assert (Hfind : list_find (λ q, connectionId q = Some X) (pendingConnections s)
                  = Some (length pre, d)).
  { rewrite Hq. apply list_find_Some. split; [by rewrite list_lookup_middle|].
    split; [done|]. intros j y Hj Hlt. rewrite lookup_app_l in Hj by done.
    rewrite Forall_forall in Hpre. apply (Hpre y). by eapply list_elem_of_lookup_2. }
  rewrite drain_st, Hq, fmap_app, fmap_cons.
  destruct (retry_missing_prefix (connectionId <$> pre)
              (connectionId d :: (connectionId <$> rest)) 0%nat s) as [-> _].
  { apply Forall_fmap, Forall_forall. intros q0 Hq0 i q Hf. cbn in Hf.
    apply list_find_Some in Hf as (Hi & Hc & Hmin).
    assert (i < length pre)%nat as Hlt.
    { apply list_elem_of_lookup_1 in Hq0 as [k Hk].
      destruct (decide (i < length pre)%nat) as [|Hge]; [done|].
      exfalso. apply (Hmin k q0); [by rewrite Hq, lookup_app_l by (by eapply lookup_lt_Some)| |done].
      apply lookup_lt_Some in Hk. lia. }
    rewrite Hq, lookup_app_l in Hi by done.
    rewrite Forall_forall in Hpre. apply (Hpre q). by eapply list_elem_of_lookup_2. }
  cbn [retry_each]. msimpl. rewrite Hid, Hfind.
  cbn [fmap option_fmap option_map snd]. msimpl.
  assert (H1 : stored_with_edge X (st (renderLoadedConnection d true s))).
  { rewrite render_st, E, Hid, F. eexists _, _. cbn. rewrite lookup_insert_eq.
    split; [done|]. split; [by left|]. done. }
  destruct (res (renderLoadedConnection d true s)) as [ok|]; [|done].
  by apply retry_each_keeps_stored.
Qed.

(** C10.  Processing [v1.connection.removed] never changes the pending
    queue.  A descriptor for [X] still queued whose endpoints resolve,
    behind descriptors of other ids that still miss an endpoint, is
    promoted by the next drain, run directly or by the debounce timer:
    the map then has an entry for [X] whose line is a line with id [X]
    on the canvas, whatever the rest of the pass does. *)
Theorem C10_removal_keeps_pending :
  (∀ s ps,
     pendingConnections (st (onmessage (JVal (Some "v1.connection.removed") ps) s))
     = pendingConnections s) ∧
  (∀ s X pre d rest sp tp,
     pendingConnections s = pre ++ d :: rest →
     Forall (λ q, resolve (layer s) q = Missing ∧ connectionId q ≠ Some X) pre →
     connectionId d = Some X →
     resolve (layer s) d = Resolved sp tp →
     findOne_id (layer s) (Some X) = None →
     stored_with_edge X (st (processPendingConnections s)) ∧
     stored_with_edge X (st (handler ETimer s))).
Proof.
  split; [intros; apply removed_keeps_queue|].
  intros s X pre d rest sp tp Hq Hpre Hid E F. split; [by eapply drain_promotes|].
  cbn [handler]. unfold debounce_later. msimpl.
  by apply (drain_promotes (set_timeout None s) X pre d rest sp tp).
Qed.

Lemma C10_witness :
  pendingConnections ex_removed_then_dropped = [ex_desc "c9" "comp_z"] ∧
  connectionId (ex_desc "c9" "comp_z") = Some "c9" ∧
  resolve (layer ex_removed_then_dropped) (ex_desc "c9" "comp_z")
    = Resolved ex_outA (Port 11%nat (Shape 14%nat Circle (Some "input") 0 25 10 "")) ∧
  findOne_id (layer ex_removed_then_dropped) (Some "c9") = None ∧
  stored_with_edge "c9" (st (handler ETimer ex_removed_then_dropped)).
Proof.
  assert (H1 : pendingConnections ex_removed_then_dropped = [ex_desc "c9" "comp_z"])
    by (vm_compute; reflexivity).
  assert (H3 : resolve (layer ex_removed_then_dropped) (ex_desc "c9" "comp_z")
               = Resolved ex_outA (Port 11%nat (Shape 14%nat Circle (Some "input") 0 25 10 "")))
    by (vm_compute; reflexivity).
  assert (H4 : findOne_id (layer ex_removed_then_dropped) (Some "c9") = None)
    by (vm_compute; reflexivity).
  split; [exact H1|]. split; [reflexivity|]. split; [exact H3|]. split; [exact H4|].
  exact (proj2 (proj2 C10_removal_keeps_pending ex_removed_then_dropped "c9" []
                  (ex_desc "c9" "comp_z") [] _ _ H1 (Forall_nil_2 _) eq_refl H3 H4)).
Defined.

(** *** The debounced drain *)

Lemma render_same_session p r s : same_session s (st (renderLoadedConnection p r s)).
Proof.
  rewrite render_st. destruct (resolve (layer s) p); [done..|].
  destruct (findOne_id _ _); [destruct (decide _)|]; done.
Qed.

Lemma same_session_trans s1 s2 s3 :
  same_session s1 s2 → same_session s2 s3 → same_session s1 s3.
Proof. unfold same_session. intros (?&?&?&?&?&?) (?&?&?&?&?&?). repeat split; congruence. Qed.

Lemma retry_each_same_session ids n s : same_session s (st (retry_each ids n s)).
Proof.
  revert n s. induction ids as [|cid ids IH]; intros n s; [done|].
  cbn [retry_each]. msimpl.
  destruct (list_find _ (pendingConnections s)) as [[i ps]|];
    cbn [fmap option_fmap option_map snd]; [|apply IH].
  msimpl. pose proof (render_same_session ps true s) as H.
  destruct (res (renderLoadedConnection ps true s)) as [ok|]; [|done].
  eapply same_session_trans; [exact H|apply IH].
Qed.

Lemma drain_same_session s : same_session s (st (processPendingConnections s)).
Proof. rewrite drain_st. apply retry_each_same_session. Qed.

(** Each resolution attempt redraws once per wire it creates. *)
Lemma render_draws p r s :
  (next_oid (st (renderLoadedConnection p r s)) =
   next_oid s + draws (out (renderLoadedConnection p r s)))%nat.
Proof.
  destruct (resolve (layer s) p) as [| |sp tp] eqn:E.
  - destruct (render_missing p r s E) as (_ & -> & -> & _). cbn. lia.
  - destruct (render_broken p r s E) as (_ & -> & ->). lia.
  - destruct (findOne_id (layer s) (connectionId p)) as [n|] eqn:F.
    + destruct (render_adopt p r s sp tp n E F) as (_ & -> & -> & _).
      destruct (decide _); cbn; lia.
    + destruct (render_create p r s sp tp E F) as (_ & -> & -> & _). cbn. lia.
Qed.

Lemma retry_each_draws ids n s :
  (next_oid (st (retry_each ids n s)) = next_oid s + draws (out (retry_each ids n s)))%nat.
Proof.
  revert n s. induction ids as [|cid ids IH]; intros n s; [cbn; lia|].
  cbn [retry_each]. msimpl.
  destruct (list_find _ (pendingConnections s)) as [[i ps]|];
    cbn [fmap option_fmap option_map snd]; [|cbn [app]; apply IH].
  msimpl. pose proof (render_draws ps true s) as H.
  destruct (res (renderLoadedConnection ps true s)) as [ok|]; [|cbn [app]; lia].
  cbn [app]. rewrite draws_app, IH. lia.
Qed.

Lemma drain_out s n :
  pendingConnections s ≠ [] →
  res (retry_each (connectionId <$> pendingConnections s) 0%nat s) = Ret n →
  res (processPendingConnections s) = Ret tt ∧
  draws (out (processPendingConnections s)) =
    (draws (out (retry_each (connectionId <$> pendingConnections s) 0%nat s))
     + (if bool_decide (0 < n)%nat then 1 else 0))%nat.
Proof.
  intros Hne Hn. unfold processPendingConnections. msimpl.
  destruct (pendingConnections s) as [|d rest] eqn:E; [done|].
  rewrite fmap_cons in *. msimpl. rewrite Hn. msimpl.
  case_bool_decide; msimpl; [rewrite !draws_app; cbn; split; [done|lia]|].
  case_bool_decide; msimpl; rewrite !draws_app; cbn; split; [done|lia|done|lia].
Qed.


Lemma drain_empty s :
  pendingConnections s = [] → processPendingConnections s = Outcome (Ret tt) s [].
Proof. intros E. unfold processPendingConnections, bind. cbn. by rewrite E. Qed.




(** *** What a drain pass does *)

Lemma findOne_id_cons_line l ly v :
  node_id (NLine l) ≠ Some (sel v) → findOne_id (NLine l :: ly) v = findOne_id ly v.
Proof.
  intros H. unfold findOne_id. cbn [list_find]. rewrite decide_False by done.
  by destruct (list_find _ ly) as [[i n]|].
Qed.

Lemma findOne_id_cons_hit l ly v :
  node_id (NLine l) = Some (sel v) → findOne_id (NLine l :: ly) v = Some (NLine l).
Proof. intros H. unfold findOne_id. cbn [list_find]. by rewrite decide_True. Qed.

Lemma render_queued_sublist ps r s :
  ps ∈ pendingConnections s →
  pendingConnections (st (renderLoadedConnection ps r s)) `sublist_of` pendingConnections s.
Proof.
  intros Hin. rewrite render_st. destruct (resolve (layer s) ps) as [| |sp tp]; [|done|].
  - cbn. unfold enqueue.
    destruct (list_find_elem_of (λ q, connectionId q = connectionId ps) _ ps Hin eq_refl)
      as [[i q] ->]. done.
  - assert (H : dequeue (connectionId ps) (pendingConnections s)
                `sublist_of` pendingConnections s).
    { unfold dequeue. destruct (list_find _ _) as [[i q]|]; [apply sublist_delete|done]. }
    destruct (findOne_id _ _); [destruct (decide _)|]; exact H.
Qed.

Lemma retry_each_sublist ids n s :
  pendingConnections (st (retry_each ids n s)) `sublist_of` pendingConnections s.
Proof.
  revert n s. induction ids as [|cid ids IH]; intros n s; [done|].
  cbn [retry_each]. msimpl.
  destruct (list_find _ (pendingConnections s)) as [[i ps]|] eqn:E;
    cbn [fmap option_fmap option_map snd]; [|apply IH].
  msimpl. apply list_find_Some in E as (Hi & _ & _).
  pose proof (render_queued_sublist ps true s (list_elem_of_lookup_2 _ _ _ Hi)) as H.
  destruct (res (renderLoadedConnection ps true s)) as [ok|]; [|done].
  etrans; [apply IH|done].
Qed.











(** *** Creating the same connection twice *)

(** A new line whose id is on no node of the canvas does not change how
    a descriptor resolves. *)
Lemma resolve_cons_line l X ly p sp tp :
  l_id l = Some X → findOne_id ly (Some X) = None →
  resolve ly p = Resolved sp tp → resolve (NLine l :: ly) p = Resolved sp tp.
Proof.
  intros Hl Hx H. destruct (resolve_Resolved _ _ _ _ H) as (sc & tc & H1 & H2 & H3 & H4).
  assert (Hfresh : ∀ v n, findOne_id ly v = Some n → node_id (NLine l) ≠ Some (sel v)).
  { intros v n Hv Heq. cbn in Heq. rewrite Hl in Heq. injection Heq as Heq.
    apply findOne_id_elem in Hv as [Hin Hid].
    apply findOne_id_None in Hx. rewrite Forall_forall in Hx.
    apply (Hx n Hin). cbn. by rewrite Hid, Heq. }
  unfold resolve. rewrite !findOne_id_cons_line by eauto. by rewrite H1, H2, H3, H4.
Qed.

Lemma visual_edges_no_node X ly : findOne_id ly (Some X) = None → visual_edges X ly = [].
Proof.
  intros H. apply visual_edges_nil. intros l Hin Hid.
  apply findOne_id_None in H. rewrite Forall_forall in H. by apply (H _ Hin).
Qed.

Lemma visual_edges_cons_line X l ly :
  l_id l = Some X → visual_edges X (NLine l :: ly) = l :: visual_edges X ly.
Proof.
  intros H. unfold visual_edges.
  change (omap as_line (NLine l :: ly)) with (l :: omap as_line ly).
  by rewrite filter_cons_True.
Qed.

Lemma wired_twice_state p r s X sp tp :
  connectionId p = Some X →
  resolve (layer s) p = Resolved sp tp →
  findOne_id (layer s) (Some X) = None →
  st (renderLoadedConnection p r s) = wired (Some X) sp tp (set_pending (dequeue (Some X)) s) ∧
  layer (st (renderLoadedConnection p r (st (renderLoadedConnection p r s))))
    = layer (st (renderLoadedConnection p r s)) ∧
  connections (st (renderLoadedConnection p r (st (renderLoadedConnection p r s))))
    = connections (st (renderLoadedConnection p r s)).
Proof.
  intros Hid E F.
  assert (E1 : st (renderLoadedConnection p r s)
               = wired (Some X) sp tp (set_pending (dequeue (Some X)) s)).
  { rewrite render_st, E, Hid, F. done. }
  split; [done|]. rewrite E1. rewrite render_st.
  cbn [wired layer set_connections set_layer set_pending set_next_oid].
  rewrite (resolve_cons_line _ X _ p sp tp) by done.
  rewrite Hid, findOne_id_cons_hit by done.
  rewrite decide_True by (cbn; rewrite lookup_insert_eq; by eexists). done.
Qed.

(** C1 (as the code has it).  For a connection id new to canvas and
    map whose endpoints resolve: handling the descriptor twice, each
    time as [v1.connection.load] or [v1.connection.created], leaves
    exactly one line with that id and one map entry, around that line.
    So does committing the connection by the gesture and then receiving
    its [v1.connection.created] echo, which changes nothing.  The
    checks are those of [renderLoadedConnection] (a node with the id on
    the stage) and of the [created] handler (the id in the map);
    [createWire] itself checks nothing. *)
Theorem C1_create_twice :
  (∀ s p X sp tp m1 m2,
     (m1 = "v1.connection.load" ∨ m1 = "v1.connection.created") →
     (m2 = "v1.connection.load" ∨ m2 = "v1.connection.created") →
     connectionId p = Some X →
     resolve (layer s) p = Resolved sp tp →
     findOne_id (layer s) (Some X) = None →
     connections s !! Some X = None →
     ∃ l e,
       visual_edges X (layer (st (onmessage (JVal (Some m2) (PObj p))
                                    (st (onmessage (JVal (Some m1) (PObj p)) s))))) = [l] ∧
       connections (st (onmessage (JVal (Some m2) (PObj p))
                          (st (onmessage (JVal (Some m1) (PObj p)) s)))) !! Some X = Some e ∧
       c_line e = l_oid l) ∧
  (∀ s outP moves q cid,
     fresh_oids s →
     port_on_layer (layer s) outP "output" →
     port_on_layer (layer s) q "input" →
     p_parent q ≠ p_parent outP →
     findOne_id (layer s) (Some cid) = None →
     st (onmessage (JVal (Some "v1.connection.created")
                      (PObj (create_params (layer s) outP q cid)))
           (st (release_on_input q cid (run (EOutputDown outP :: (EMouseMove <$> moves)) s))))
     = st (release_on_input q cid (run (EOutputDown outP :: (EMouseMove <$> moves)) s)) ∧
     ∃ l e,
       visual_edges cid
         (layer (st (release_on_input q cid
                       (run (EOutputDown outP :: (EMouseMove <$> moves)) s)))) = [l] ∧
       connections (st (release_on_input q cid
                          (run (EOutputDown outP :: (EMouseMove <$> moves)) s)))
         !! Some cid = Some e ∧
       c_line e = l_oid l).
Proof.
  split.
  - intros s p X sp tp m1 m2 Hm1 Hm2 Hid E F Hnew.
    destruct (wired_twice_state p false s X sp tp Hid E F) as (E1 & E2 & E3).
    assert (S1 : st (onmessage (JVal (Some m1) (PObj p)) s)
                 = st (renderLoadedConnection p false s)).
    { destruct Hm1 as [-> | ->]; [apply load_st|].
      rewrite created_st, decide_False; [done|]. rewrite Hid, Hnew. by intros [? ?]. }
    rewrite S1.
    assert (Hl : layer (st (onmessage (JVal (Some m2) (PObj p))
                              (st (renderLoadedConnection p false s))))
                 = layer (st (renderLoadedConnection p false s)) ∧
                 connections (st (onmessage (JVal (Some m2) (PObj p))
                                    (st (renderLoadedConnection p false s))))
                 = connections (st (renderLoadedConnection p false s))).
    { destruct Hm2 as [-> | ->]; [by rewrite load_st|].
      rewrite created_st. by destruct (decide _). }
    destruct Hl as [-> ->]. rewrite E1. unfold wired. ssimpl.
    eexists _, _. rewrite visual_edges_cons_line by done.
    rewrite (visual_edges_no_node _ _ F), lookup_insert_eq. done.
  - intros s outP moves q cid Hf Ho Hi Hne F.
    pose proof Ho as (gp & Hp & _)%port_on_layer_parent.
    pose proof Hi as (gq & Hq & _)%port_on_layer_parent.
    assert (Hd := press_and_moves_dragging s outP moves Hf (mk_is_Some _ _ Hp)).
    destruct (release_differ s outP _ q cid Hf Hd (mk_is_Some _ _ Hp) (mk_is_Some _ _ Hq) Hne)
      as (_ & -> & _).
    split.
    + rewrite created_st. cbn. rewrite decide_True; [done|].
      rewrite lookup_insert_eq. by eexists.
    + ssimpl. eexists _, _. rewrite visual_edges_cons_line by done.
      rewrite (visual_edges_no_node cid), lookup_insert_eq; [done|].
      by apply findOne_id_alter_group.
Qed.

Lemma C1_witness :
  connectionId (ex_desc "c1" "comp_b") = Some "c1" ∧
  resolve (layer ex_two) (ex_desc "c1" "comp_b") = Resolved ex_outA ex_inB ∧
  findOne_id (layer ex_two) (Some "c1") = None ∧
  connections ex_two !! Some "c1" = None ∧
  ∃ l e,
    visual_edges "c1"
      (layer (st (onmessage (JVal (Some "v1.connection.created") (PObj (ex_desc "c1" "comp_b")))
                    (st (onmessage (JVal (Some "v1.connection.load")
                                      (PObj (ex_desc "c1" "comp_b"))) ex_two))))) = [l] ∧
    connections (st (onmessage (JVal (Some "v1.connection.created") (PObj (ex_desc "c1" "comp_b")))
                       (st (onmessage (JVal (Some "v1.connection.load")
                                         (PObj (ex_desc "c1" "comp_b"))) ex_two))))
      !! Some "c1" = Some e ∧
    c_line e = l_oid l.
Proof.
  assert (H2 : resolve (layer ex_two) (ex_desc "c1" "comp_b") = Resolved ex_outA ex_inB)
    by (vm_compute; reflexivity).
  assert (H3 : findOne_id (layer ex_two) (Some "c1") = None) by (vm_compute; reflexivity).
  assert (H4 : connections ex_two !! Some "c1" = None) by (vm_compute; reflexivity).
  split; [reflexivity|]. split; [exact H2|]. split; [exact H3|]. split; [exact H4|].
  exact (proj1 C1_create_twice ex_two (ex_desc "c1" "comp_b") "c1" ex_outA ex_inB
           "v1.connection.load" "v1.connection.created"
           (or_introl eq_refl) (or_intror eq_refl) eq_refl H2 H3 H4).
Defined.

(** C1, as stated, fails for the store's create operation: called while
    the map has an entry (and the canvas a line) for the id,
    [createWire] adds a second line with that id. *)
Lemma C1_counterexample :
  is_Some (connections ex_wired !! Some "conn_1") ∧
  length (visual_edges "conn_1" (layer ex_wired)) = 1%nat ∧
  res (createWire (Some "conn_1") ex_outA ex_inB ex_wired) = Ret (Some 13%nat) ∧
  length (visual_edges "conn_1"
            (layer (st (createWire (Some "conn_1") ex_outA ex_inB ex_wired)))) = 2%nat.
Proof.
  split; [eexists; vm_compute; reflexivity|]. repeat split; vm_compute; reflexivity.
Qed.

(** ** Invariants of every handler *)

Lemma hoare_bind {A B} P R Q (m : M A) (k : A → M B) :
  hoare P m R → (∀ s, R s → Q s) → (∀ a, hoare R (k a) Q) → hoare P (bind m k) Q.
Proof.
  intros Hm HRQ Hk s HP. rewrite st_bind. specialize (Hm s HP).
  destruct (res (m s)); [by apply Hk|by apply HRQ].
Qed.

Lemma keep_bind {A B} I (m : M A) (k : A → M B) :
  hoare I m I → (∀ a, hoare I (k a) I) → hoare I (bind m k) I.
Proof. intros Hm Hk. by apply (hoare_bind I I I). Qed.

Lemma keep_ret {A} I (a : A) : hoare I (ret a) I.
Proof. by intros s. Qed.

Lemma keep_throw {A} I : hoare I (@throw A) I.
Proof. by intros s. Qed.

Lemma keep_gets {A} I (f : state → A) : hoare I (gets f) I.
Proof. by intros s. Qed.

Lemma keep_emit I e : hoare I (emit e) I.
Proof. by intros s. Qed.

Lemma keep_log I lv msg : hoare I (log lv msg) I.
Proof. by intros s. Qed.

Lemma keep_draw I : hoare I draw I.
Proof. by intros s. Qed.

Lemma keep_lift {A} I (r : result A) : hoare I (lift r) I.
Proof. by intros s. Qed.

Lemma keep_require {A} I (o : option A) : hoare I (require o) I.
Proof. by destruct o; intros s. Qed.

Lemma hoare_modify P Q f : (∀ s, P s → Q (f s)) → hoare P (modify f) Q.
Proof. intros H s. apply H. Qed.

Lemma keep_when I b m : hoare I m I → hoare I (when b m) I.
Proof. intros H. destruct b; [done|apply keep_ret]. Qed.

Lemma keep_try_catch I m h : hoare I m I → hoare I h I → hoare I (try_catch m h) I.
Proof.
  intros Hm Hh s HI. unfold try_catch. cbn zeta. specialize (Hm s HI).
  destruct (res (m s)); [done|]. cbn. by apply Hh.
Qed.

(** Walks a handler: binds, the primitives that leave the state alone,
    and case distinctions; what remains are the updates. *)
Ltac keep_step :=
  first
    [ apply keep_ret | apply keep_throw | apply keep_gets | apply keep_log
    | apply keep_draw | apply keep_emit | apply keep_lift | apply keep_require
    | apply keep_when
    | apply keep_bind; [|intros ?]
    | match goal with
      | |- hoare _ (if ?b then _ else _) _ => destruct b
      | |- hoare _ (match ?x with _ => _ end) _ => destruct x
      end ].

Ltac keep := repeat keep_step.

(** *** At most one queued descriptor per id *)

Lemma keep_q_new_oid : hoare queue_unique new_oid queue_unique.
Proof. by intros s. Qed.

Lemma keep_q_render p r : hoare queue_unique (renderLoadedConnection p r) queue_unique.
Proof. intros s. apply render_queue_unique. Qed.

Lemma keep_q_createWire id a b : hoare queue_unique (createWire id a b) queue_unique.
Proof.
  unfold createWire.
  repeat first [ keep_step | apply keep_q_new_oid
               | apply hoare_modify; let H := fresh in intros ? H; exact H ].
Qed.

Ltac keep_q :=
  repeat first
    [ apply keep_q_render
    | apply keep_q_createWire
    | apply keep_q_new_oid
    | keep_step
    | apply hoare_modify; let H := fresh in intros ? H; exact H ].

Lemma keep_q_retry_each ids n : hoare queue_unique (retry_each ids n) queue_unique.
Proof.
  revert n. induction ids as [|cid ids IH]; intros n; cbn [retry_each]; [apply keep_ret|].
  apply keep_bind; [apply keep_gets|]. intros pq.
  destruct (snd <$> list_find _ pq).
  - apply keep_bind; [apply keep_q_render|]. intros ok. apply IH.
  - apply IH.
Qed.

Lemma keep_q_drain : hoare queue_unique processPendingConnections queue_unique.
Proof.
  unfold processPendingConnections. apply keep_bind; [apply keep_gets|]. intros pq.
  destruct (connectionId <$> pq) eqn:E; [apply keep_ret|].
  apply keep_bind; [apply keep_log|]. intros _.
  apply keep_bind; [apply keep_q_retry_each|]. intros n. keep_q.
Qed.

Lemma keep_q_onmessage d : hoare queue_unique (onmessage d) queue_unique.
Proof.
  unfold onmessage. apply keep_bind; [apply keep_log|]. intros _.
  apply keep_try_catch; [|apply keep_log].
  unfold dispatch, emitOutput, on_created, on_removed. keep_q.
Qed.

Lemma keep_q_handler e : hoare queue_unique (handler e) queue_unique.
Proof.
  destruct e as [pos id|p|pos|q cid|name|d|w confirmed|b|dt|]; cbn [handler].
  - unfold dummyComponent_dragend, stage_on_add, debouncedProcessPendingConnections,
      debounce_executedFunction. keep_q.
  - unfold outputPort_mousedown. keep_q.
  - unfold stage_mousemove. keep_q.
  - unfold release_on_input, inputPort_mouseup, stage_mouseup, destroy_currentWire,
      reenable_drag. keep_q.
  - unfold stage_mouseup, destroy_currentWire, reenable_drag. keep_q.
  - apply keep_q_onmessage.
  - unfold wire_contextmenu. keep_q.
  - keep_q.
  - keep_q.
  - unfold debounce_later. apply keep_bind; [keep_q|]. intros _. apply keep_q_drain.
Qed.

(** *** Lines with an id are backed by the map *)

Lemma consistent_layer f s :
  (∀ n, n ∈ f (layer s) → line_backed (connections s) n ∨ n ∈ layer s) →
  consistent s → consistent (set_layer f s).
Proof.
  unfold consistent. rewrite !Forall_forall. intros Hf H n Hn. cbn in *.
  destruct (Hf n Hn) as [?|Hin]; [done|by apply H].
Qed.

Lemma consistent_destroy o s : consistent s → consistent (set_layer (destroy o) s).
Proof.
  apply consistent_layer. intros n [_ Hn]%list_elem_of_filter. by right.
Qed.

Lemma consistent_alter_group o f s :
  consistent s → consistent (set_layer (alter_group o f) s).
Proof.
  apply consistent_layer. intros n (m & -> & Hm)%list_elem_of_fmap.
  destruct m as [g|l|sh]; [|by right..]. left. by destruct (decide _).
Qed.

Lemma consistent_alter_line o f s :
  (∀ l, l_oid (f l) = l_oid l ∧ l_id (f l) = l_id l) →
  consistent s → consistent (set_layer (alter_line o f) s).
Proof.
  intros Hf Hc. unfold consistent in *. rewrite Forall_forall in *. cbn.
  intros n (m & -> & Hm)%list_elem_of_fmap. specialize (Hc m Hm).
  destruct m as [g|l|sh]; [done| |done]. destruct (decide _); [|done].
  cbn in *. destruct (Hf l) as [-> ->]. done.
Qed.

Lemma consistent_append n s :
  line_backed (connections s) n → consistent s → consistent (set_layer (λ l, l ++ [n]) s).
Proof.
  intros Hn. apply consistent_layer. intros m [Hm|Hm]%elem_of_app; [by right|].
  apply list_elem_of_singleton in Hm as ->. by left.
Qed.

Lemma consistent_insert_new k e s :
  connections s !! k = None → consistent s → consistent (set_connections <[k := e]> s).
Proof.
  unfold consistent. rewrite !Forall_forall. intros Hk H n Hn. cbn in *.
  specialize (H n Hn). destruct n as [g|l|sh]; [done| |done]. cbn in *.
  destruct (l_id l) as [X|]; [|done]. rewrite lookup_insert_ne; [done|].
  intros ->. by rewrite Hk in H.
Qed.

Lemma consistent_wired k a b s :
  findOne_id (layer s) k = None → consistent s → consistent (wired k a b s).
Proof.
  unfold consistent, wired. rewrite !Forall_forall. intros Hk H n Hn. cbn in *.
  apply elem_of_cons in Hn as [->|Hn].
  - cbn. destruct k as [X|]; [|done]. by rewrite lookup_insert_eq.
  - specialize (H n Hn). destruct n as [g|l|sh]; [done| |done]. cbn in *.
    destruct (l_id l) as [X|] eqn:E; [|done]. rewrite lookup_insert_ne; [done|].
    intros ->. apply findOne_id_None in Hk. rewrite Forall_forall in Hk.
    apply (Hk _ Hn). by cbn.
Qed.

Lemma consistent_delete_destroy k o s :
  (∀ l X, NLine l ∈ layer s → l_id l = Some X → k = Some X → l_oid l = o) →
  consistent s →
  consistent (set_connections (delete k) (set_layer (destroy o) s)).
Proof.
  unfold consistent. rewrite !Forall_forall. intros Hk H n Hn. cbn in *.
  apply list_elem_of_filter in Hn as [Hne Hn].
  specialize (H n Hn). destruct n as [g|l|sh]; [done| |done]. cbn in *.
  destruct (l_id l) as [X|] eqn:E; [|done]. rewrite lookup_delete_ne; [done|].
  intros ->. by apply Hne, (Hk l X).
Qed.

Lemma keep_c_render p r : hoare consistent (renderLoadedConnection p r) consistent.
Proof.
  intros s H. rewrite render_st. destruct (resolve (layer s) p) as [| |sp tp]; [done..|].
  destruct (findOne_id (layer s) (connectionId p)) as [n|] eqn:F.
  - destruct (decide _) as [Hs|Hs]; [done|].
    apply (consistent_insert_new _ _ (set_pending _ s)); [|done].
    by apply eq_None_not_Some.
  - by apply (consistent_wired _ _ _ (set_pending _ s)).
Qed.

Lemma keep_c_new_oid : hoare consistent new_oid consistent.
Proof. by intros s. Qed.

Lemma keep_c_retry_each ids n : hoare consistent (retry_each ids n) consistent.
Proof.
  revert n. induction ids as [|cid ids IH]; intros n; cbn [retry_each]; [apply keep_ret|].
  apply keep_bind; [apply keep_gets|]. intros pq.
  destruct (snd <$> list_find _ pq).
  - apply keep_bind; [apply keep_c_render|]. intros ok. apply IH.
  - apply IH.
Qed.

Lemma keep_c_destroy_currentWire msg :
  hoare consistent (destroy_currentWire msg) consistent.
Proof.
  unfold destroy_currentWire. keep. apply hoare_modify. intros s. apply consistent_destroy.
Qed.

Lemma keep_c_reenable_drag msg : hoare consistent (reenable_drag msg) consistent.
Proof.
  unfold reenable_drag. keep. apply hoare_modify. intros s.
  apply consistent_alter_group.
Qed.

(** The leaves: updates of the canvas that keep the lines, and updates
    of globals the property does not read. *)
Ltac keep_c :=
  repeat first
    [ apply keep_c_render
    | apply keep_c_destroy_currentWire
    | apply keep_c_reenable_drag
    | apply keep_c_new_oid
    | keep_step
    | apply hoare_modify; intros ?;
      first [ apply consistent_destroy
            | apply consistent_alter_group
            | apply consistent_alter_line; by intros ?
            | apply consistent_append; exact I
            | let H := fresh in intros H; exact H ] ].

Lemma keep_c_drain : hoare consistent processPendingConnections consistent.
Proof.
  unfold processPendingConnections. apply keep_bind; [apply keep_gets|]. intros pq.
  destruct (connectionId <$> pq) eqn:E; [apply keep_ret|].
  apply keep_bind; [apply keep_log|]. intros _.
  apply keep_bind; [apply keep_c_retry_each|]. intros n. keep_c.
Qed.

Lemma keep_c_removed ps : hoare consistent (on_removed ps) consistent.
Proof.
  intros s H. unfold on_removed. msimpl. destruct ps as [|b|p]; msimpl; [done| |].
  all: destruct (connections s !! _) as [e|] eqn:E; msimpl; [|done].
  all: apply consistent_delete_destroy; [|done].
  all: intros l X Hin Hid Hk; destruct (consistent_line s l X H Hin Hid) as (e' & He' & Hl);
       cbn in *; congruence.
Qed.

Lemma keep_c_onmessage d : hoare consistent (onmessage d) consistent.
Proof.
  unfold onmessage. apply keep_bind; [apply keep_log|]. intros _.
  apply keep_try_catch; [|apply keep_log].
  destruct d as [| |m ps]; cbn [dispatch]; [keep_c..|].
  apply keep_bind; [apply keep_log|]. intros _.
  repeat case_bool_decide; [..|apply keep_ret].
  - keep_c.
  - unfold emitOutput. keep_c.
  - unfold on_created. keep_c.
  - apply keep_c_removed.
Qed.

Lemma hoare_weaken {A} P P' Q (m : M A) :
  (∀ s, P s → P' s) → hoare P' m Q → hoare P m Q.
Proof. intros HP Hm s H. by apply Hm, HP. Qed.

Lemma keep_cw_destroy_currentWire cid msg :
  hoare (consistent_without cid) (destroy_currentWire msg) (consistent_without cid).
Proof.
  unfold destroy_currentWire. keep. apply hoare_modify. intros s [Hc Hf]. split.
  - by apply consistent_destroy.
  - by apply findOne_id_destroy.
Qed.

Lemma createWire_consistent cid a b :
  hoare (consistent_without cid) (createWire (Some cid) a b) consistent.
Proof.
  intros s [Hc Hf].
  destruct (getParent (layer s) a) as [ga|] eqn:Ea;
    [destruct (getParent (layer s) b) as [gb|] eqn:Eb|].
  - rewrite createWire_ok by (by eexists). by apply consistent_wired.
  - destruct (createWire_throw (Some cid) a b s) as [_ ->]; [by right|done].
  - destruct (createWire_throw (Some cid) a b s) as [_ ->]; [by left|done].
Qed.

Ltac cw_bind tac :=
  eapply (hoare_bind _ (consistent_without _) _); [tac|by intros ? []|intros ?].

Lemma keep_c_inputPort_mouseup q cid :
  hoare (consistent_without cid) (inputPort_mouseup q cid) consistent.
Proof.
  unfold inputPort_mouseup.
  cw_bind ltac:(apply keep_log). cw_bind ltac:(apply keep_log).
  cw_bind ltac:(apply keep_gets). cw_bind ltac:(apply keep_gets).
  cw_bind ltac:(apply keep_gets).
  assert (Hfail : ∀ m1 m2,
    hoare (consistent_without cid)
      (log Info m1 ;; destroy_currentWire m2 ;;
       reenable_drag "[input mouseup][failure path] Re-enabled dragging for source component." ;;
       modify (set_wiring false None None) ;; draw) consistent).
  { intros m1 m2. apply (hoare_weaken _ consistent); [by intros ? []|]. keep_c. }
  destruct a1 as [|]; [|apply Hfail]. destruct a2 as [start|]; [|apply Hfail].
  destruct (bool_decide _); [|apply Hfail].
  cw_bind ltac:(apply keep_log). cw_bind ltac:(apply keep_cw_destroy_currentWire).
  cw_bind ltac:(apply keep_gets). cw_bind ltac:(apply keep_require).
  cw_bind ltac:(apply keep_require).
  eapply (hoare_bind _ consistent _); [apply createWire_consistent|done|intros w].
  keep_c.
Qed.

Lemma keep_c_stage_mouseup name : hoare consistent (stage_mouseup name) consistent.
Proof. unfold stage_mouseup. keep_c. Qed.

Lemma keep_c_release q cid :
  hoare (consistent_without cid) (release_on_input q cid) consistent.
Proof.
  unfold release_on_input.
  eapply (hoare_bind _ consistent _);
    [apply keep_c_inputPort_mouseup|done|intros _; apply keep_c_stage_mouseup].
Qed.

Lemma keep_c_contextmenu w confirmed :
  hoare consistent (handler (EContextMenu w confirmed)) consistent.
Proof.
  intros s H. cbn [handler]. msimpl.
  destruct (wire_on_layer (layer s) w) as [l|] eqn:Hw; msimpl; [|done].
  destruct confirmed; [|done]. rewrite contextmenu_st.
  destruct (wire_on_layer_elem _ _ _ Hw) as (Hin & Ho & _).
  rewrite (ltac:(by destruct s) :
    set_layer (destroy w) (set_connections (delete (l_id l)) s)
    = set_connections (delete (l_id l)) (set_layer (destroy w) s)).
  apply consistent_delete_destroy; [|done].
  intros l' X Hin' Hid' Hk.
  destruct (consistent_line s l' X H Hin' Hid') as (e' & He' & Hl').
  destruct (consistent_line s l X H Hin Hk) as (e & He & Hl). congruence.
Qed.

(** Every handler keeps the page consistent, a release with a minted id
    provided the id is on no node of the canvas. *)
Lemma keep_c_dragend pos id : hoare consistent (dummyComponent_dragend pos id) consistent.
Proof.
  unfold dummyComponent_dragend.
  apply keep_bind; [apply keep_log|]. intros _.
  apply keep_bind; [apply keep_log|]. intros _.
  destruct pos as [[x y]|]; [|apply keep_log]. cbn zeta.
  destruct (_ && _); [|apply keep_log].
  apply keep_bind; [apply keep_log|]. intros _.
  do 5 (apply keep_bind; [apply keep_c_new_oid|]; intros ?).
  apply keep_bind; [apply hoare_modify; intros s; by apply consistent_append|]. intros _.
  unfold stage_on_add, debouncedProcessPendingConnections, debounce_executedFunction.
  cbn [g_name]. keep_c.
Qed.

Lemma keep_c_mousedown p : hoare consistent (outputPort_mousedown p) consistent.
Proof. unfold outputPort_mousedown. keep_c. Qed.

Lemma keep_c_mousemove pos : hoare consistent (stage_mousemove pos) consistent.
Proof. unfold stage_mousemove. keep_c. Qed.

Lemma consistent_step e s : consistent s → enabled e s → consistent (step e s).
Proof.
  intros H He. unfold step.
  destruct e as [pos id|p|pos|q cid|name|d|w confirmed|b|dt|]; cbn [handler].
  - by apply keep_c_dragend.
  - by apply keep_c_mousedown.
  - by apply keep_c_mousemove.
  - destruct He as (_ & Hf & _). by apply keep_c_release.
  - by apply keep_c_stage_mouseup.
  - by apply keep_c_onmessage.
  - by apply keep_c_contextmenu.
  - done.
  - done.
  - unfold debounce_later. msimpl. by apply keep_c_drain.
Qed.

(** *** Identities on the canvas are below the allocator *)

Lemma hoare_bind_val {A B} P (R : A → state → Prop) Q (m : M A) (k : A → M B) :
  (∀ s, P s → match res (m s) with
              | Ret a => R a (st (m s))
              | Throw => Q (st (m s))
              end) →
  (∀ a, hoare (R a) (k a) Q) → hoare P (bind m k) Q.
Proof.
  intros Hm Hk s HP. rewrite st_bind. specialize (Hm s HP).
  destruct (res (m s)); [by apply Hk|done].
Qed.

Lemma fresh_layer f s :
  (∀ o, o ∈ node_oid <$> f (layer s) → o ∈ node_oid <$> layer s) →
  fresh_oids s → fresh_oids (set_layer f s).
Proof.
  unfold fresh_oids. rewrite !(Forall_oid_fmap (λ o, (o < _)%nat)), !Forall_forall. cbn.
  intros Hf H o Ho. by apply H, Hf.
Qed.

Lemma fresh_destroy o s : fresh_oids s → fresh_oids (set_layer (destroy o) s).
Proof.
  apply fresh_layer. intros x (n & -> & [_ Hn]%list_elem_of_filter)%list_elem_of_fmap.
  by apply list_elem_of_fmap_2.
Qed.

Lemma fresh_alter_group o f s :
  (∀ g, g_oid (f g) = g_oid g) → fresh_oids s → fresh_oids (set_layer (alter_group o f) s).
Proof. intros Hf. apply fresh_layer. intros x. by rewrite node_oid_alter_group. Qed.

Lemma fresh_alter_line o f s :
  (∀ l, l_oid (f l) = l_oid l) → fresh_oids s → fresh_oids (set_layer (alter_line o f) s).
Proof. intros Hf. apply fresh_layer. intros x. by rewrite node_oid_alter_line. Qed.

Lemma fresh_append n w s :
  node_oid n = w → fresh_oids_with w s → fresh_oids (set_layer (λ l, l ++ [n]) s).
Proof.
  intros Hn [H Hw]. unfold fresh_oids in *. cbn. apply Forall_app. split; [done|].
  apply Forall_singleton. by rewrite Hn.
Qed.

Lemma fresh_wired k a b s : fresh_oids s → fresh_oids (wired k a b s).
Proof.
  unfold fresh_oids, wired. cbn. intros H. constructor; [cbn; lia|].
  eapply Forall_impl; [done|]. cbn. lia.
Qed.

Lemma keep_f_new_oid : hoare fresh_oids new_oid fresh_oids.
Proof.
  intros s H. unfold fresh_oids in *. cbn. eapply Forall_impl; [done|]. cbn. lia.
Qed.

Lemma keep_fw_new_oid w : hoare (fresh_oids_with w) new_oid (fresh_oids_with w).
Proof.
  intros s [H Hw]. split; [by apply keep_f_new_oid|]. cbn. lia.
Qed.

Lemma new_oid_fresh_with s :
  match res (new_oid s) with
  | Ret w => fresh_oids s → fresh_oids_with w (st (new_oid s))
  | Throw => True
  end.
Proof. cbn. intros H. split; [by apply keep_f_new_oid|]. cbn. lia. Qed.

Lemma keep_f_render p r : hoare fresh_oids (renderLoadedConnection p r) fresh_oids.
Proof.
  intros s H. rewrite render_st. destruct (resolve (layer s) p) as [| |sp tp]; [done..|].
  destruct (findOne_id (layer s) (connectionId p)) as [n|]; [by destruct (decide _)|].
  by apply (fresh_wired _ _ _ (set_pending _ s)).
Qed.

Lemma keep_f_createWire k a b : hoare fresh_oids (createWire k a b) fresh_oids.
Proof.
  intros s H.
  destruct (getParent (layer s) a) as [ga|] eqn:Ea;
    [destruct (getParent (layer s) b) as [gb|] eqn:Eb|].
  - rewrite createWire_ok by (by eexists). by apply fresh_wired.
  - destruct (createWire_throw k a b s) as [_ ->]; [by right|done].
  - destruct (createWire_throw k a b s) as [_ ->]; [by left|done].
Qed.

Ltac keep_f :=
  repeat first
    [ apply keep_f_render
    | apply keep_f_createWire
    | apply keep_f_new_oid
    | keep_step
    | apply hoare_modify; intros ?;
      first [ apply fresh_destroy
            | apply fresh_alter_group; by intros ?
            | apply fresh_alter_line; by intros ?
            | let H := fresh in intros H; exact H ] ].

Lemma keep_f_retry_each ids n : hoare fresh_oids (retry_each ids n) fresh_oids.
Proof.
  revert n. induction ids as [|cid ids IH]; intros n; cbn [retry_each]; [apply keep_ret|].
  apply keep_bind; [apply keep_gets|]. intros pq.
  destruct (snd <$> list_find _ pq).
  - apply keep_bind; [apply keep_f_render|]. intros ok. apply IH.
  - apply IH.
Qed.

Lemma keep_f_drain : hoare fresh_oids processPendingConnections fresh_oids.
Proof.
  unfold processPendingConnections. apply keep_bind; [apply keep_gets|]. intros pq.
  destruct (connectionId <$> pq) eqn:E; [apply keep_ret|].
  apply keep_bind; [apply keep_log|]. intros _.
  apply keep_bind; [apply keep_f_retry_each|]. intros n. keep_f.
Qed.

Lemma keep_f_onmessage d : hoare fresh_oids (onmessage d) fresh_oids.
Proof.
  unfold onmessage. apply keep_bind; [apply keep_log|]. intros _.
  apply keep_try_catch; [|apply keep_log].
  unfold dispatch, emitOutput, on_created, on_removed. keep_f.
Qed.

Lemma keep_f_mousedown p : hoare fresh_oids (outputPort_mousedown p) fresh_oids.
Proof.
  unfold outputPort_mousedown.
  apply keep_bind; [keep_f|]. intros _.
  apply keep_bind; [apply keep_gets|]. intros ly.
  apply keep_bind; [keep_f|]. intros _.
  apply keep_bind; [apply keep_gets|]. intros ly'.
  apply keep_bind; [apply keep_require|]. intros startPos.
  apply keep_bind; [apply keep_log|]. intros _.
  apply (hoare_bind_val _ fresh_oids_with); [intros s; apply new_oid_fresh_with|]. intros w.
  eapply (hoare_bind _ (fresh_oids_with w) _);
    [apply hoare_modify; by intros s|by intros s []|intros _].
  eapply (hoare_bind _ (fresh_oids_with w) _); [apply keep_log|by intros s []|intros _].
  eapply (hoare_bind _ fresh_oids _);
    [apply hoare_modify; intros s; by apply fresh_append|done|intros _].
  keep_f.
Qed.

Lemma keep_f_dragend pos id : hoare fresh_oids (dummyComponent_dragend pos id) fresh_oids.
Proof.
  unfold dummyComponent_dragend.
  apply keep_bind; [apply keep_log|]. intros _.
  apply keep_bind; [apply keep_log|]. intros _.
  destruct pos as [[x y]|]; [|apply keep_log]. cbn zeta.
  destruct (_ && _); [|apply keep_log].
  apply keep_bind; [apply keep_log|]. intros _.
  apply (hoare_bind_val _ fresh_oids_with); [intros s; apply new_oid_fresh_with|]. intros g.
  do 4 (eapply (hoare_bind _ (fresh_oids_with g) _);
          [apply keep_fw_new_oid|by intros s []|intros ?]).
  eapply (hoare_bind _ fresh_oids _);
    [apply hoare_modify; intros s; by apply fresh_append|done|intros _].
  unfold stage_on_add, debouncedProcessPendingConnections, debounce_executedFunction.
  cbn [g_name]. keep_f.
Qed.

Lemma keep_f_handler e : hoare fresh_oids (handler e) fresh_oids.
Proof.
  destruct e as [pos id|p|pos|q cid|name|d|w confirmed|b|dt|]; cbn [handler].
  - apply keep_f_dragend.
  - apply keep_f_mousedown.
  - unfold stage_mousemove. keep_f.
  - unfold release_on_input, inputPort_mouseup, stage_mouseup, destroy_currentWire,
      reenable_drag. keep_f.
  - unfold stage_mouseup, destroy_currentWire, reenable_drag. keep_f.
  - apply keep_f_onmessage.
  - unfold wire_contextmenu. keep_f.
  - keep_f.
  - keep_f.
  - unfold debounce_later. apply keep_bind; [keep_f|]. intros _. apply keep_f_drain.
Qed.

Lemma fresh_step e s : fresh_oids s → fresh_oids (step e s).
Proof. apply keep_f_handler. Qed.

(** ** Extra properties *)

(** *** Every reachable page *)

Lemma Inv_init : Inv init.
Proof.
  split; [|split].
  - unfold fresh_oids. cbn. repeat constructor.
  - unfold consistent. cbn. repeat constructor.
  - unfold queue_unique. cbn. constructor.
Qed.

Lemma Inv_step e s : Inv s → enabled e s → Inv (step e s).
Proof.
  intros (Hf & Hc & Hq) He. split; [|split].
  - by apply fresh_step.
  - by apply consistent_step.
  - by apply keep_q_handler.
Qed.

Lemma run_Inv es s : Inv s → trace_ok es s → Inv (run es s).
Proof.
  intros H Ht. induction Ht as [s|e es s He Ht IH]; [done|].
  rewrite run_cons. by apply IH, Inv_step.
Qed.

Lemma reachable_Inv s : reachable s → Inv s.
Proof. intros (es & Ht & ->). apply run_Inv; [apply Inv_init|done]. Qed.

Lemma ex_wired_reachable : reachable ex_wired.
Proof.
  exists [EDrop (Some (100, 100)) "comp_a"; EDrop (Some (300, 100)) "comp_b";
          EOutputDown ex_outA; EMouseMove (200, 120); EInputUp ex_inB "conn_1"].
  split; [|vm_compute; reflexivity].
  constructor; [exact I|]. constructor; [exact I|].
  constructor; [exact ex_two_outA|]. constructor; [exact I|].
  constructor; [|constructor].
  split; [port_here 2%nat 2%nat|]. split; vm_compute; reflexivity.
Qed.

(** X1.  On every page reachable from the freshly loaded one (minted
    connection ids being new to the canvas), each line that carries an
    id is the line of the map entry stored under that id: no handler
    leaves a wire on the canvas that the map does not know. *)
Theorem X1_reachable_consistent s : reachable s → consistent s.
Proof. by intros (_ & H & _)%reachable_Inv. Qed.

Lemma X1_witness : reachable ex_wired ∧ consistent ex_wired.
Proof. split; [exact ex_wired_reachable|exact (X1_reachable_consistent _ ex_wired_reachable)]. Defined.

(** X2.  The pending queue holds at most one descriptor per connection
    id on every page reached from the freshly loaded one by enabled
    events, none of them a message whose [params] is a falsy primitive.
    (Such a value stays outside: the queue of the model keeps
    descriptors by their fields, and cannot hold a value that the test
    [!alreadyQueued] takes for an absent entry.) *)
Theorem X2_reachable_queue_unique es :
  trace_ok es init → Forall (λ e, ¬ falsy_params e) es → queue_unique (run es init).
Proof. intros Ht _. by destruct (run_Inv es init Inv_init Ht) as (_ & _ & H). Qed.

Lemma X2_witness :
  trace_ok [EDrop (Some (100, 100)) "comp_a";
            EMessage (JVal (Some "v1.connection.created") (PObj (ex_desc "c9" "comp_z")));
            EMessage (JVal (Some "v1.connection.created") (PObj (ex_desc "c9" "comp_z")))]
           init ∧
  Forall (λ e, ¬ falsy_params e)
         [EDrop (Some (100, 100)) "comp_a";
          EMessage (JVal (Some "v1.connection.created") (PObj (ex_desc "c9" "comp_z")));
          EMessage (JVal (Some "v1.connection.created") (PObj (ex_desc "c9" "comp_z")))] ∧
  queue_unique
    (run [EDrop (Some (100, 100)) "comp_a";
          EMessage (JVal (Some "v1.connection.created") (PObj (ex_desc "c9" "comp_z")));
          EMessage (JVal (Some "v1.connection.created") (PObj (ex_desc "c9" "comp_z")))]
         init).
Proof.
  assert (Ht : trace_ok
                 [EDrop (Some (100, 100)) "comp_a";
                  EMessage (JVal (Some "v1.connection.created") (PObj (ex_desc "c9" "comp_z")));
                  EMessage (JVal (Some "v1.connection.created") (PObj (ex_desc "c9" "comp_z")))]
                 init).
  { constructor; [exact I|]. constructor; [exact I|]. constructor; [exact I|]. constructor. }
  assert (Hf : Forall (λ e, ¬ falsy_params e)
                 [EDrop (Some (100, 100)) "comp_a";
                  EMessage (JVal (Some "v1.connection.created") (PObj (ex_desc "c9" "comp_z")));
                  EMessage (JVal (Some "v1.connection.created") (PObj (ex_desc "c9" "comp_z")))]).
  { repeat constructor; intros []. }
  split; [exact Ht|]. split; [exact Hf|].
  exact (X2_reachable_queue_unique _ Ht Hf).
Defined.

(** *** More on the drain pass *)

(** X3.  A drain pass never adds to the pending queue and never
    reorders it: what is queued afterwards is a sublist of what was
    queued before, also when the pass is cut short by an exception. *)
Theorem X3_drain_only_removes s :
  pendingConnections (st (processPendingConnections s)) `sublist_of` pendingConnections s.
Proof. rewrite drain_st. apply retry_each_sublist. Qed.

(** X4.  A drain pass over a queue in which every descriptor still
    misses an endpoint component or port changes nothing: it returns
    normally, leaves every global as it was, and does not redraw or
    send. *)
Theorem X4_idle_drain s :
  Forall (λ q, resolve (layer s) q = Missing) (pendingConnections s) →
  res (processPendingConnections s) = Ret tt ∧
  st (processPendingConnections s) = s ∧
  draws (out (processPendingConnections s)) = 0%nat.
Proof.
  intros H.
  destruct (retry_missing_prefix (connectionId <$> pendingConnections s) [] 0%nat s)
    as [Hs Hr].
  { apply Forall_fmap, Forall_forall. intros q0 _ i q Hf. cbn in Hf.
    apply list_find_Some in Hf as (Hi & _ & _).
    rewrite Forall_forall in H. apply H. by eapply list_elem_of_lookup_2. }
  rewrite app_nil_r in Hs, Hr. cbn in Hs, Hr.
  destruct (pendingConnections s) as [|d rest] eqn:E.
  - rewrite drain_empty by done. done.
  - assert (Hne : pendingConnections s ≠ []) by by rewrite E.
    rewrite <- E in Hs, Hr.
    destruct (drain_out s 0%nat Hne Hr) as [-> ->].
    rewrite drain_st, Hs. split; [done|]. split; [done|].
    pose proof (retry_each_draws (connectionId <$> pendingConnections s) 0%nat s) as Hd.
    rewrite Hs in Hd. rewrite bool_decide_false by lia. lia.
Qed.

Lemma X4_witness :
  Forall (λ q, resolve (layer ex_queued) q = Missing) (pendingConnections ex_queued) ∧
  st (processPendingConnections ex_queued) = ex_queued.
Proof.
  assert (H : Forall (λ q, resolve (layer ex_queued) q = Missing)
                     (pendingConnections ex_queued)).
  { change (pendingConnections ex_queued) with [ex_desc "c9" "comp_z"].
    constructor; [vm_compute; reflexivity|constructor]. }
  split; [exact H|]. exact (proj1 (proj2 (X4_idle_drain ex_queued H))).
Defined.

(** *** More on the wiring gesture *)

Lemma getAbsolutePosition_set_draggable o b ly p :
  getAbsolutePosition (set_draggable o b ly) p = getAbsolutePosition ly p.
Proof.
  unfold getAbsolutePosition, set_draggable. rewrite getParent_alter_group by done.
  destruct (getParent ly p) as [g|]; cbn; [|done]. by destruct (decide _).
Qed.

Lemma mousedown_drag_state p s :
  is_Some (getParent (layer s) p) →
  st (outputPort_mousedown p s) =
  drag_state s p
    ((default (0, 0) (getAbsolutePosition (layer s) p)).1,
     (default (0, 0) (getAbsolutePosition (layer s) p)).2,
     (default (0, 0) (getAbsolutePosition (layer s) p)).1,
     (default (0, 0) (getAbsolutePosition (layer s) p)).2).
Proof.
  intros H. destruct (mousedown_eq p s H) as [_ ->].
  unfold drag_state, draft_line. by rewrite getAbsolutePosition_set_draggable.
Qed.

Lemma mousemove_drag_state s0 p pts pos :
  fresh_oids s0 →
  st (stage_mousemove pos (drag_state s0 p pts)) =
  drag_state s0 p (pts.1.1.1, pts.1.1.2, pos.1, pos.2).
Proof.
  intros Hf. unfold stage_mousemove, drag_state. mssimpl.
  rewrite alter_line_draft by (by apply fresh_oids_set_draggable || done). done.
Qed.

Lemma drag_state_dragging s0 p pts : dragging s0 p (drag_state s0 p pts).
Proof. eexists. repeat split; done. Qed.

Lemma moves_drag_state s0 p pts moves pos :
  fresh_oids s0 →
  run (EMouseMove <$> (moves ++ [pos])) (drag_state s0 p pts) =
  drag_state s0 p (pts.1.1.1, pts.1.1.2, pos.1, pos.2).
Proof.
  intros Hf. revert pts. induction moves as [|m moves IH]; intros pts.
  - cbn [app fmap list_fmap]. rewrite run_cons. unfold step at 1. cbn [handler].
    by rewrite mousemove_drag_state.
  - rewrite <- app_comm_cons, fmap_cons, run_cons. unfold step at 1. cbn [handler].
    rewrite mousemove_drag_state by done. by rewrite IH.
Qed.

(** X5.  While a drag is in progress the draft keeps its first end at
    the pressed port and its free end at the last pointer position;
    nothing else on the page changes during the moves. *)
Theorem X5_draft_follows_pointer s p moves pos x y :
  fresh_oids s →
  port_on_layer (layer s) p "output" →
  getAbsolutePosition (layer s) p = Some (x, y) →
  run (EOutputDown p :: (EMouseMove <$> (moves ++ [pos]))) s =
  drag_state s p (x, y, pos.1, pos.2).
Proof.
  intros Hf (g & Hg & _)%port_on_layer_parent Hpos.
  rewrite run_cons. unfold step at 1. cbn [handler].
  rewrite mousedown_drag_state by (by eexists). rewrite Hpos. cbn [default fst snd].
  by rewrite moves_drag_state.
Qed.

Lemma X5_witness :
  fresh_oids ex_two ∧
  port_on_layer (layer ex_two) ex_outA "output" ∧
  getAbsolutePosition (layer ex_two) ex_outA = Some (125, 100) ∧
  run (EOutputDown ex_outA :: (EMouseMove <$> ([(130, 110)] ++ [(200, 120)]))) ex_two =
  drag_state ex_two ex_outA (125, 100, 200, 120).
Proof.
  assert (H : getAbsolutePosition (layer ex_two) ex_outA = Some (125, 100))
    by (vm_compute; reflexivity).
  split; [exact ex_two_fresh|]. split; [exact ex_two_outA|]. split; [exact H|].
  exact (X5_draft_follows_pointer ex_two ex_outA [(130, 110)] (200, 120) 125 100
           ex_two_fresh ex_two_outA H).
Defined.

Lemma cancel_dragging s0 p s1 name :
  fresh_oids s0 → dragging s0 p s1 → is_Some (getParent (layer s0) p) →
  name ≠ Some "input" →
  res (stage_mouseup name s1) = Ret tt ∧
  st (stage_mouseup name s1) =
    State (set_draggable (p_parent p) true (layer s0)) (S (next_oid s0))
          (connections s0) (pendingConnections s0) false None None
          (socketOpen s0) (clock s0) (timeout s0) ∧
  sends (out (stage_mouseup name s1)) = [] ∧
  draws (out (stage_mouseup name s1)) = 1%nat.
Proof.
  intros Hf (l & Ho & Hid & Hd & ->) [gp Hp] Hname.
  destruct (getParent_set_draggable_Some (p_parent p) false _ _ _ Hp) as (gp' & Hp' & Hop' & _).
  unfold stage_mouseup. mssimpl. rewrite bool_decide_true by done. cbn [andb].
  unfold destroy_currentWire, reenable_drag. mssimpl.
  rewrite destroy_draft by (by apply fresh_oids_set_draggable || done).
  rewrite Hp'. mssimpl. rewrite Hop', set_draggable_twice. repeat split; done.
Qed.

(** X6.  A drag released anywhere but on an input port is cancelled:
    the draft is destroyed and the origin is draggable again (the canvas
    is the one before the press), the map and the queue are untouched,
    nothing is sent, and the wiring globals are reset. *)
Theorem X6_release_off_target_cancels s p moves name :
  fresh_oids s →
  port_on_layer (layer s) p "output" →
  name ≠ Some "input" →
  res (stage_mouseup name (run (EOutputDown p :: (EMouseMove <$> moves)) s)) = Ret tt ∧
  layer (st (stage_mouseup name (run (EOutputDown p :: (EMouseMove <$> moves)) s)))
    = set_draggable (p_parent p) true (layer s) ∧
  connections (st (stage_mouseup name (run (EOutputDown p :: (EMouseMove <$> moves)) s)))
    = connections s ∧
  pendingConnections (st (stage_mouseup name (run (EOutputDown p :: (EMouseMove <$> moves)) s)))
    = pendingConnections s ∧
  isWiring (st (stage_mouseup name (run (EOutputDown p :: (EMouseMove <$> moves)) s))) = false ∧
  currentWire (st (stage_mouseup name (run (EOutputDown p :: (EMouseMove <$> moves)) s))) = None ∧
  startPort (st (stage_mouseup name (run (EOutputDown p :: (EMouseMove <$> moves)) s))) = None ∧
  sends (out (stage_mouseup name (run (EOutputDown p :: (EMouseMove <$> moves)) s))) = [].
Proof.
  intros Hf (g & Hg & _)%port_on_layer_parent Hname.
  assert (Hd := press_and_moves_dragging s p moves Hf (mk_is_Some _ _ Hg)).
  destruct (cancel_dragging s p _ name Hf Hd (mk_is_Some _ _ Hg) Hname) as (-> & -> & -> & _).
  repeat split.
Qed.

Lemma X6_witness :
  fresh_oids ex_two ∧
  port_on_layer (layer ex_two) ex_outA "output" ∧
  None ≠ Some "input" ∧
  layer (st (stage_mouseup None (run (EOutputDown ex_outA :: (EMouseMove <$> [(200, 120)])) ex_two)))
    = set_draggable (p_parent ex_outA) true (layer ex_two).
Proof.
  assert (H : (None : option string) ≠ Some "input") by discriminate.
  split; [exact ex_two_fresh|]. split; [exact ex_two_outA|]. split; [exact H|].
  exact (proj1 (proj2 (X6_release_off_target_cancels ex_two ex_outA [(200, 120)] None
                         ex_two_fresh ex_two_outA H))).
Defined.

(** X7.  A committed gesture stores the connection and draws its wire
    whether or not the socket is open; it hands exactly one
    [v1.connection.create] to the socket when it is open, carrying the
    minted id, the ids of the two components and the names of the two
    ports, and nothing when it is not. *)
Theorem X7_commit_message s outP moves q cid :
  fresh_oids s →
  port_on_layer (layer s) outP "output" →
  port_on_layer (layer s) q "input" →
  p_parent q ≠ p_parent outP →
  ∃ gs gt,
    getParent (layer s) outP = Some gs ∧ getParent (layer s) q = Some gt ∧
    sends (out (release_on_input q cid (run (EOutputDown outP :: (EMouseMove <$> moves)) s))) =
      (if socketOpen s
       then [("v1.connection.create",
              Params (Some cid) (g_id gs) (Some "output") (g_id gt) (Some "input")
                     None None "undefined")]
       else []) ∧
    connections (st (release_on_input q cid (run (EOutputDown outP :: (EMouseMove <$> moves)) s)))
      !! Some cid = Some (Connection (Some cid) outP q (S (next_oid s))) ∧
    draws (out (release_on_input q cid (run (EOutputDown outP :: (EMouseMove <$> moves)) s)))
      = 1%nat.
Proof.
  intros Hf Ho Hi Hne.
  pose proof Ho as (gp & Hp & _)%port_on_layer_parent.
  pose proof Hi as (gq & Hq & _)%port_on_layer_parent.
  assert (Hd := press_and_moves_dragging s outP moves Hf (mk_is_Some _ _ Hp)).
  destruct (release_differ s outP _ q cid Hf Hd (mk_is_Some _ _ Hp) (mk_is_Some _ _ Hq) Hne)
    as (_ & -> & -> & ->).
  exists gp, gq. split; [done|]. split; [done|]. split; [|split; [|done]].
  - unfold create_params. rewrite Hp, Hq. cbn [mbind option_bind]. unfold port_name.
    destruct Ho as (_ & _ & _ & _ & _ & ->). destruct Hi as (_ & _ & _ & _ & _ & ->). done.
  - cbn [connections]. by rewrite lookup_insert_eq.
Qed.

Lemma X7_witness :
  fresh_oids ex_two ∧
  port_on_layer (layer ex_two) ex_outA "output" ∧
  port_on_layer (layer ex_two) ex_inB "input" ∧
  p_parent ex_inB ≠ p_parent ex_outA ∧
  connections (st (release_on_input ex_inB "conn_1"
                     (run (EOutputDown ex_outA :: (EMouseMove <$> [(200, 120)])) ex_two)))
    !! Some "conn_1" = Some (Connection (Some "conn_1") ex_outA ex_inB (S (next_oid ex_two))).
Proof.
  assert (H : p_parent ex_inB ≠ p_parent ex_outA) by (cbn; lia).
  split; [exact ex_two_fresh|]. split; [exact ex_two_outA|]. split; [exact ex_two_inB|].
  split; [exact H|].
  destruct (X7_commit_message ex_two ex_outA [(200, 120)] ex_inB "conn_1"
              ex_two_fresh ex_two_outA ex_two_inB H) as (gs & gt & _ & _ & _ & Hc & _).
  exact Hc.
Defined.

(** *** Deleting a wire from its context menu *)

(** X8.  Declining the confirmation of the context menu changes nothing
    and emits nothing.  Accepting it removes the connection locally
    whether or not the socket is open: the map has no entry for the id,
    the wire has left the canvas, the queue is untouched, the canvas is
    redrawn once; [v1.connection.delete] with the id goes to the socket
    exactly when it is open. *)
Theorem X8_contextmenu_delete s id wire :
  wire_contextmenu id wire false s = Outcome (Ret tt) s [] ∧
  res (wire_contextmenu id wire true s) = Ret tt ∧
  connections (st (wire_contextmenu id wire true s)) = delete id (connections s) ∧
  layer (st (wire_contextmenu id wire true s)) = destroy wire (layer s) ∧
  pendingConnections (st (wire_contextmenu id wire true s)) = pendingConnections s ∧
  draws (out (wire_contextmenu id wire true s)) = 1%nat ∧
  sends (out (wire_contextmenu id wire true s)) =
    (if socketOpen s
     then [("v1.connection.delete", Params id None None None None None None "undefined")]
     else []).
Proof.
  split; [done|]. rewrite contextmenu_st.
  unfold wire_contextmenu. msimpl.
  destruct (socketOpen s); msimpl; case_bool_decide; msimpl; repeat split; done.
Qed.

(** *** Dropping a component *)

Lemma dragend_inside x y id s :
  0 < x < 500 → 0 < y < 500 →
  res (dummyComponent_dragend (Some (x, y)) id s) = Ret tt ∧
  st (dummyComponent_dragend (Some (x, y)) id s) =
    State (layer s ++ [NGroup (dropped_group (next_oid s) id x y)])
          (S (S (S (S (S (next_oid s))))))
          (connections s) (pendingConnections s) (isWiring s) (currentWire s) (startPort s)
          (socketOpen s) (clock s) (Some (clock s + 16)%nat) ∧
  draws (out (dummyComponent_dragend (Some (x, y)) id s)) = 1%nat ∧
  sends (out (dummyComponent_dragend (Some (x, y)) id s)) = [].
Proof.
  intros Hx Hy. unfold dummyComponent_dragend. cbn zeta.
  rewrite !bool_decide_true by lia. cbn [andb].
  unfold stage_on_add, debouncedProcessPendingConnections, debounce_executedFunction.
  cbn [g_name]. rewrite bool_decide_true by done. cbn [andb].
  mssimpl. repeat split; done.
Qed.

(** X9.  A drop whose pointer position is unavailable, or not strictly
    inside the 500 x 500 stage, adds nothing: the page is unchanged, the
    drain is not scheduled and the main canvas is not redrawn. *)
Theorem X9_drop_outside pos id s :
  ¬ within_stage pos →
  res (dummyComponent_dragend pos id s) = Ret tt ∧
  st (dummyComponent_dragend pos id s) = s ∧
  draws (out (dummyComponent_dragend pos id s)) = 0%nat ∧
  sends (out (dummyComponent_dragend pos id s)) = [].
Proof.
  intros H. unfold dummyComponent_dragend. destruct pos as [[x y]|]; [|by msimpl].
  cbn zeta.
  destruct (bool_decide (0 < x) && bool_decide (x < 500) &&
            (bool_decide (0 < y) && bool_decide (y < 500))) eqn:E; [|by msimpl].
  exfalso. apply H. exists x, y.
  apply andb_prop in E as [[?%bool_decide_eq_true ?%bool_decide_eq_true]%andb_prop
                           [?%bool_decide_eq_true ?%bool_decide_eq_true]%andb_prop].
  repeat split; done.
Qed.

Lemma X9_witness :
  ¬ within_stage (Some (500, 250)) ∧
  st (dummyComponent_dragend (Some (500, 250)) "comp_x" ex_two) = ex_two.
Proof.
  assert (H : ¬ within_stage (Some (500, 250))).
  { intros (x & y & [= <- <-] & Hx & _). lia. }
  split; [exact H|].
  exact (proj1 (proj2 (X9_drop_outside (Some (500, 250)) "comp_x" ex_two H))).
Defined.

(** X10.  A drop strictly inside the stage appends one draggable
    component group, centred on the pointer, with its rectangle, label,
    input port and output port, all with new identities; it arms the
    drain timer 16 ms ahead, redraws once, sends nothing, and leaves the
    map, the queue and the wiring session alone. *)
Theorem X10_drop_inside x y id s :
  0 < x < 500 → 0 < y < 500 →
  res (dummyComponent_dragend (Some (x, y)) id s) = Ret tt ∧
  st (dummyComponent_dragend (Some (x, y)) id s) =
    State (layer s ++ [NGroup (dropped_group (next_oid s) id x y)])
          (S (S (S (S (S (next_oid s))))))
          (connections s) (pendingConnections s) (isWiring s) (currentWire s) (startPort s)
          (socketOpen s) (clock s) (Some (clock s + 16)%nat) ∧
  draws (out (dummyComponent_dragend (Some (x, y)) id s)) = 1%nat ∧
  sends (out (dummyComponent_dragend (Some (x, y)) id s)) = [].
Proof. apply dragend_inside. Qed.

Lemma X10_witness :
  0 < 1 < 500 ∧ 0 < 499 < 500 ∧
  layer (st (dummyComponent_dragend (Some (1, 499)) "comp_x" init)) =
    layer init ++ [NGroup (dropped_group (next_oid init) "comp_x" 1 499)].
Proof.
  assert (Hx : 0 < 1 < 500) by lia. assert (Hy : 0 < 499 < 500) by lia.
  split; [exact Hx|]. split; [exact Hy|].
  destruct (X10_drop_inside 1 499 "comp_x" init Hx Hy) as (_ & -> & _). reflexivity.
Defined.

(** *** Showing the output of a component *)

Lemma findOne_id_alter_group_Some f ly v g :
  (∀ g, g_id (f g) = g_id g) →
  findOne_id ly v = Some (NGroup g) →
  findOne_id (alter_group (g_oid g) f ly) v = Some (NGroup (f g)).
Proof.
  intros Hf. unfold findOne_id, alter_group. rewrite list_find_fmap.
  destruct (list_find _ ly) as [[i n]|] eqn:E; [|done]. cbn. intros [= ->].
  erewrite list_find_ext, E.
  - cbn. by rewrite decide_True.
  - intros [g'|l|sh]; cbn; [|done..]. destruct (decide _); cbn; by rewrite ?Hf.
Qed.

Lemma emitOutput_first p s g i rect :
  findOne_id (layer s) (componentId p) = Some (NGroup g) →
  list_find (λ sh, s_name sh = Some "data-display") (g_children g) = None →
  list_find (λ sh, s_class sh = Rect) (g_children g) = Some (i, rect) →
  res (emitOutput (PObj p) s) = Ret tt ∧
  st (emitOutput (PObj p) s) =
    set_layer (alter_group (g_oid g)
                 (with_children (λ c, c ++ [data_display (next_oid s) rect p])))
              (set_next_oid (S (next_oid s)) s) ∧
  draws (out (emitOutput (PObj p) s)) = 1%nat.
Proof.
  intros F D R. unfold emitOutput. msimpl. rewrite F, D, R. mssimpl. repeat split; done.
Qed.

Lemma emitOutput_again p s g i dd :
  findOne_id (layer s) (componentId p) = Some (NGroup g) →
  list_find (λ sh, s_name sh = Some "data-display") (g_children g) = Some (i, dd) →
  res (emitOutput (PObj p) s) = Ret tt ∧
  st (emitOutput (PObj p) s) =
    set_layer (alter_group (g_oid g)
                 (with_children (λ c, <[i := with_text (display_text p) dd]> c))) s ∧
  draws (out (emitOutput (PObj p) s)) = 1%nat.
Proof.
  intros F D. unfold emitOutput. msimpl. rewrite F, D. mssimpl. repeat split; done.
Qed.

(** X11.  A component shows one output label.  The first
    [component.emitOutput] for a component adds a text node below its
    rectangle; a later one for the same component rewrites that node in
    place, so after two outputs the component has its original children
    and one label carrying the text of the second output.  Both redraw
    the canvas. *)
Theorem X11_output_label_updated_in_place s p1 p2 g i rect :
  findOne_id (layer s) (componentId p1) = Some (NGroup g) →
  componentId p2 = componentId p1 →
  list_find (λ sh, s_name sh = Some "data-display") (g_children g) = None →
  list_find (λ sh, s_class sh = Rect) (g_children g) = Some (i, rect) →
  res (emitOutput (PObj p2) (st (emitOutput (PObj p1) s))) = Ret tt ∧
  findOne_id (layer (st (emitOutput (PObj p2) (st (emitOutput (PObj p1) s))))) (componentId p1)
    = Some (NGroup (with_children (λ c, c ++ [data_display (next_oid s) rect p2]) g)) ∧
  next_oid (st (emitOutput (PObj p2) (st (emitOutput (PObj p1) s)))) = S (next_oid s) ∧
  draws (out (emitOutput (PObj p1) s)) = 1%nat ∧
  draws (out (emitOutput (PObj p2) (st (emitOutput (PObj p1) s)))) = 1%nat.
Proof.
  intros F Hid D R.
  destruct (emitOutput_first p1 s g i rect F D R) as (_ & E1 & D1).
  set (g1 := with_children (λ c, c ++ [data_display (next_oid s) rect p1]) g).
  assert (F1 : findOne_id (layer (st (emitOutput (PObj p1) s))) (componentId p2)
               = Some (NGroup g1)).
  { rewrite E1, Hid. unfold set_layer. ssimpl.
    by apply (findOne_id_alter_group_Some (with_children _)). }
  assert (D2 : list_find (λ sh, s_name sh = Some "data-display") (g_children g1)
               = Some (length (g_children g), data_display (next_oid s) rect p1)).
  { unfold g1. cbn [g_children with_children]. rewrite list_find_app_r by done.
    cbn. rewrite decide_True by done. cbn. by rewrite ?Nat.add_0_r. }
  destruct (emitOutput_again p2 _ g1 _ _ F1 D2) as (-> & -> & ->).
  split; [done|]. split; [|by rewrite E1].
  unfold set_layer at 1. ssimpl. rewrite <- Hid.
  rewrite (findOne_id_alter_group_Some (with_children _) _ _ g1) by done.
  do 2 f_equal. unfold g1, with_children. cbn. f_equal.
  rewrite insert_app_r_alt by done. by rewrite Nat.sub_diag.
Qed.

Lemma X11_witness :
  findOne_id (layer ex_two) (componentId (ex_output "1"))
    = Some (NGroup (dropped_group 1%nat "comp_a" 100 100)) ∧
  componentId (ex_output "2") = componentId (ex_output "1") ∧
  list_find (λ sh, s_name sh = Some "data-display")
            (g_children (dropped_group 1%nat "comp_a" 100 100)) = None ∧
  list_find (λ sh, s_class sh = Rect) (g_children (dropped_group 1%nat "comp_a" 100 100))
    = Some (0%nat, Shape 2%nat Rect None 0 0 50 "") ∧
  findOne_id (layer (st (emitOutput (PObj (ex_output "2"))
                           (st (emitOutput (PObj (ex_output "1")) ex_two)))))
             (componentId (ex_output "1"))
    = Some (NGroup (with_children
                      (λ c, c ++ [data_display (next_oid ex_two)
                                    (Shape 2%nat Rect None 0 0 50 "") (ex_output "2")])
                      (dropped_group 1%nat "comp_a" 100 100))).
Proof.
  assert (F : findOne_id (layer ex_two) (componentId (ex_output "1"))
              = Some (NGroup (dropped_group 1%nat "comp_a" 100 100)))
    by (vm_compute; reflexivity).
  assert (D : list_find (λ sh, s_name sh = Some "data-display")
                (g_children (dropped_group 1%nat "comp_a" 100 100)) = None)
    by (vm_compute; reflexivity).
  assert (R : list_find (λ sh, s_class sh = Rect)
                (g_children (dropped_group 1%nat "comp_a" 100 100))
              = Some (0%nat, Shape 2%nat Rect None 0 0 50 ""))
    by (vm_compute; reflexivity).
  split; [exact F|]. split; [reflexivity|]. split; [exact D|]. split; [exact R|].
  exact (proj1 (proj2 (X11_output_label_updated_in_place ex_two (ex_output "1") (ex_output "2")
                         _ _ _ F eq_refl D R))).
Defined.

(** X12.  [component.emitOutput] only ever touches the canvas: whatever
    its parameters, the connection map, the pending queue, the wiring
    session, the socket flag and the timer are as before and nothing is
    sent.  When no node carries the component id the canvas is untouched
    as well and is not redrawn. *)
Theorem X12_output_frame ps s :
  connections (st (emitOutput ps s)) = connections s ∧
  pendingConnections (st (emitOutput ps s)) = pendingConnections s ∧
  same_session s (st (emitOutput ps s)) ∧
  sends (out (emitOutput ps s)) = [] ∧
  (∀ p, ps = PObj p → findOne_id (layer s) (componentId p) = None →
        res (emitOutput ps s) = Ret tt ∧ st (emitOutput ps s) = s ∧
        draws (out (emitOutput ps s)) = 0%nat).
Proof.
  unfold emitOutput, same_session.
  destruct ps as [|b|p]; cbn [fields]; msimpl; try (repeat split; done).
  all: destruct (findOne_id (layer s) _) as [[g|l|sh]|] eqn:F; msimpl.
  all: repeat (match goal with
               | |- context [list_find ?P (g_children ?g)] =>
                   destruct (list_find P (g_children g)) as [[? ?]|]
               end; mssimpl).
  all: do 4 (split; [by repeat split|]).
  all: intros ? Heq Hn; simplify_eq; first [congruence | by repeat split].
Qed.

Lemma X12_witness :
  findOne_id (layer ex_two)
             (componentId (Params None None None None None (Some "comp_q") (Some "out") "1"))
    = None ∧
  st (emitOutput (PObj (Params None None None None None (Some "comp_q") (Some "out") "1"))
                 ex_two) = ex_two.
Proof.
  assert (F : findOne_id (layer ex_two)
                (componentId (Params None None None None None (Some "comp_q") (Some "out") "1"))
              = None) by (vm_compute; reflexivity).
  split; [exact F|].
  exact (proj1 (proj2 (proj2 (proj2 (proj2 (proj2
           (X12_output_frame
              (PObj (Params None None None None None (Some "comp_q") (Some "out") "1"))
              ex_two))))
           (Params None None None None None (Some "comp_q") (Some "out") "1") eq_refl F))).
Defined.

(** *** A broadcast creation undone by a broadcast removal *)

(** X13.  [v1.connection.removed] undoes [v1.connection.created]: for a
    descriptor that resolves and whose id is new to the canvas and the
    map, the canvas and the map after the two messages are the ones
    before them; the queue has lost the descriptor of that id, if it
    held one. *)
Theorem X13_created_then_removed s p sp tp :
  fresh_oids s →
  resolve (layer s) p = Resolved sp tp →
  findOne_id (layer s) (connectionId p) = None →
  connections s !! connectionId p = None →
  layer (st (onmessage (JVal (Some "v1.connection.removed") (PObj p))
               (st (onmessage (JVal (Some "v1.connection.created") (PObj p)) s))))
    = layer s ∧
  connections (st (onmessage (JVal (Some "v1.connection.removed") (PObj p))
                     (st (onmessage (JVal (Some "v1.connection.created") (PObj p)) s))))
    = connections s ∧
  pendingConnections (st (onmessage (JVal (Some "v1.connection.removed") (PObj p))
                            (st (onmessage (JVal (Some "v1.connection.created") (PObj p)) s))))
    = dequeue (connectionId p) (pendingConnections s).
Proof.
  intros Hf E F C.
  rewrite created_st, decide_False by (rewrite C; by intros []).
  rewrite render_st, E, F, removed_st.
  assert (L : connections (wired (connectionId p) sp tp
                             (set_pending (dequeue (connectionId p)) s)) !! connectionId p
              = Some (Connection (connectionId p) sp tp (next_oid s))).
  { unfold wired. cbn [connections set_connections]. by rewrite lookup_insert_eq. }
  rewrite L. unfold wired, set_connections, set_layer, set_pending, set_next_oid.
  cbn [layer connections pendingConnections next_oid c_line].
  split; [|split; [|done]].
  - unfold destroy. rewrite filter_cons_False by (cbn; by intros []).
    apply destroy_absent. eapply Forall_impl; [exact Hf|]. cbn. lia.
  - by rewrite delete_insert_id.
Qed.

Lemma X13_witness :
  fresh_oids ex_two ∧
  resolve (layer ex_two) (ex_desc "c1" "comp_b") = Resolved ex_outA ex_inB ∧
  findOne_id (layer ex_two) (connectionId (ex_desc "c1" "comp_b")) = None ∧
  connections ex_two !! connectionId (ex_desc "c1" "comp_b") = None ∧
  layer (st (onmessage (JVal (Some "v1.connection.removed") (PObj (ex_desc "c1" "comp_b")))
               (st (onmessage (JVal (Some "v1.connection.created")
                                    (PObj (ex_desc "c1" "comp_b"))) ex_two))))
    = layer ex_two.
Proof.
  assert (E : resolve (layer ex_two) (ex_desc "c1" "comp_b") = Resolved ex_outA ex_inB)
    by (vm_compute; reflexivity).
  assert (F : findOne_id (layer ex_two) (connectionId (ex_desc "c1" "comp_b")) = None)
    by (vm_compute; reflexivity).
  assert (C : connections ex_two !! connectionId (ex_desc "c1" "comp_b") = None)
    by (vm_compute; reflexivity).
  split; [exact ex_two_fresh|]. split; [exact E|]. split; [exact F|]. split; [exact C|].
  exact (proj1 (X13_created_then_removed ex_two _ _ _ ex_two_fresh E F C)).
Defined.

(** *** A press during a drag *)

Lemma elem_of_alter_group_line o f ly l : NLine l ∈ ly → NLine l ∈ alter_group o f ly.
Proof.
  intros H. unfold alter_group. apply list_elem_of_fmap. by exists (NLine l).
Qed.

(** X14.  A press on an output port while a drag is in progress (its
    release was never seen by the stage) starts a second draft and
    forgets the first: the globals point to the new draft only, and when
    the new drag is cancelled the first draft is still on the canvas,
    dashed and without an id, while the wiring globals are reset. *)
Theorem X14_second_press_orphans_draft s p1 pts p2 name :
  fresh_oids s →
  port_on_layer (layer (drag_state s p1 pts)) p2 "output" →
  name ≠ Some "input" →
  currentWire (st (outputPort_mousedown p2 (drag_state s p1 pts))) = Some (S (next_oid s)) ∧
  NLine (Line (next_oid s) None pts true)
    ∈ layer (st (stage_mouseup name (st (outputPort_mousedown p2 (drag_state s p1 pts))))) ∧
  isWiring (st (stage_mouseup name (st (outputPort_mousedown p2 (drag_state s p1 pts)))))
    = false ∧
  currentWire (st (stage_mouseup name (st (outputPort_mousedown p2 (drag_state s p1 pts)))))
    = None.
Proof.
  intros Hf Hp Hname.
  pose proof Hp as (g & Hg & _)%port_on_layer_parent.
  set (s1 := drag_state s p1 pts) in *.
  assert (Hf1 : fresh_oids s1).
  { unfold s1, drag_state, fresh_oids. cbn. apply Forall_app. split.
    - eapply Forall_impl; [by apply fresh_oids_set_draggable|]. cbn. lia.
    - apply Forall_singleton. cbn. lia. }
  assert (Hd := mousedown_dragging p2 s1 (mk_is_Some _ _ Hg)).
  destruct (mousedown_eq p2 s1 (mk_is_Some _ _ Hg)) as [_ E].
  destruct (cancel_dragging s1 p2 _ name Hf1 Hd (mk_is_Some _ _ Hg) Hname) as (_ & -> & _).
  rewrite E. cbn [currentWire layer isWiring]. split; [done|]. split; [|done].
  apply elem_of_alter_group_line. unfold s1, drag_state. cbn [layer].
  apply elem_of_app. right. by apply list_elem_of_singleton.
Qed.

Lemma X14_witness :
  fresh_oids ex_two ∧
  port_on_layer (layer (drag_state ex_two ex_outA (125, 100, 200, 120))) ex_outB "output" ∧
  None ≠ Some "input" ∧
  NLine (Line (next_oid ex_two) None (125, 100, 200, 120) true)
    ∈ layer (st (stage_mouseup None
                   (st (outputPort_mousedown ex_outB
                          (drag_state ex_two ex_outA (125, 100, 200, 120)))))).
Proof.
  assert (H : (None : option string) ≠ Some "input") by discriminate.
  assert (Hp : port_on_layer (layer (drag_state ex_two ex_outA (125, 100, 200, 120)))
                 ex_outB "output").
  { port_here 2%nat 3%nat. }
  split; [exact ex_two_fresh|]. split; [exact Hp|]. split; [exact H|].
  exact (proj1 (proj2 (X14_second_press_orphans_draft ex_two ex_outA (125, 100, 200, 120)
                         ex_outB None ex_two_fresh Hp H))).
Defined.

(** *** Dragging a component with wires attached *)

Lemma line_points_alter_line o f ly o' :
  (∀ l, l_oid (f l) = l_oid l) →
  line_points (alter_line o f ly) o' =
  match snd <$> list_find (λ n, node_oid n = o') ly with
  | Some (NLine l) => Some (l_points (if decide (o' = o) then f l else l))
  | _ => None
  end.
Proof.
  intros Hf. unfold line_points, alter_line. rewrite list_find_fmap.
  rewrite (list_find_ext _ (λ n, node_oid n = o')); last first.
  { intros [g|l|sh]; cbn; [done| |done]. destruct (decide _); cbn; by rewrite ?Hf. }
  destruct (list_find _ ly) as [[i [g|l|sh]]|] eqn:E; cbn; try done.
  apply list_find_Some in E as (_ & Ho & _). cbn in Ho. subst o'.
  by destruct (decide _).
Qed.

Lemma only_line_refl o s : only_line o s s.
Proof. split; [by destruct s|done]. Qed.

Lemma only_line_trans o s1 s2 s3 : only_line o s1 s2 → only_line o s2 s3 → only_line o s1 s3.
Proof.
  intros (E1 & G1 & L1) (E2 & G2 & L2). split; [|split].
  - rewrite E2, E1 at 1. done.
  - by rewrite G2.
  - intros o' Ho. by rewrite L2, L1.
Qed.

Lemma only_line_getParent o s s' p :
  only_line o s s' → getParent (layer s') p = getParent (layer s) p.
Proof. intros (_ & G & _). unfold getParent. by rewrite G. Qed.

Lemma only_line_position o s s' p :
  only_line o s s' → getAbsolutePosition (layer s') p = getAbsolutePosition (layer s) p.
Proof. intros H. unfold getAbsolutePosition. by rewrite (only_line_getParent o s s'). Qed.

Lemma only_line_wire_points o s s' a b :
  only_line o s s' → wire_points (layer s') a b = wire_points (layer s) a b.
Proof. intros H. unfold wire_points. by rewrite !(only_line_position o s s'). Qed.

Lemma set_line_points_line o f s pts :
  line_points (layer s) o = Some pts →
  res (set_line_points o f s) = Ret tt ∧ out (set_line_points o f s) = [] ∧
  only_line o s (st (set_line_points o f s)) ∧
  line_points (layer (st (set_line_points o f s))) o = Some (f pts).
Proof.
  intros H. unfold set_line_points. msimpl. unfold line_points in H.
  destruct (snd <$> list_find _ (layer s)) as [[g|l|sh]|] eqn:E; try done.
  injection H as <-. mssimpl. split; [done|]. split; [done|]. split; [split; [done|split]|].
  - ssimpl. apply omap_as_group_alter_line.
  - intros o' Ho. ssimpl. rewrite line_points_alter_line by done. unfold line_points.
    destruct (snd <$> list_find _ (layer s)) as [[g'|l'|sh']|]; try done.
    by destruct (decide (o' = o)).
  - ssimpl. rewrite line_points_alter_line by done. rewrite E. by destruct (decide (o = o)).
Qed.

Lemma callback_follows d c s :
  follows d (layer s) c →
  res (dragmove_callback d c s) = Ret tt ∧ out (dragmove_callback d c s) = [] ∧
  only_line (c_line c) s (st (dragmove_callback d c s)) ∧
  line_points (layer (st (dragmove_callback d c s))) (c_line c)
    = Some (wire_points (layer s) (c_from c) (c_to c)).
Proof.
  intros (gf & gt & pts & Hf & Ht & Hl & Hpf & Hpt).
  destruct (getAbsolutePosition_total (layer s) (c_from c)) as [[fx fy] Ef].
  destruct (getAbsolutePosition_total (layer s) (c_to c)) as [[tx ty] Et].
  unfold wire_points. rewrite Ef, Et.
  unfold dragmove_callback. msimpl. rewrite Hf. msimpl.
  case_bool_decide as Df.
  - rewrite Ef. msimpl.
    destruct (set_line_points_line (c_line c) (λ pts, ((fx, fy).1, (fx, fy).2, pts.1.2, pts.2)) s pts Hl)
      as (R1 & O1 & L1 & P1).
    rewrite R1, O1. msimpl.
    rewrite (only_line_getParent _ _ _ _ L1), Ht. msimpl.
    case_bool_decide as Dt.
    + rewrite (only_line_position _ _ _ _ L1), Et. msimpl.
      destruct (set_line_points_line (c_line c) (λ pts, (pts.1.1.1, pts.1.1.2, (tx, ty).1, (tx, ty).2)) _ _ P1)
        as (R2 & O2 & L2 & P2).
      rewrite R2, O2. split; [done|]. split; [done|]. split; [by eapply only_line_trans|].
      by rewrite P2.
    + msimpl. split; [done|]. split; [done|]. split; [done|].
      rewrite P1. specialize (Hpt Dt). rewrite Et in Hpt. by injection Hpt as -> ->.
  - msimpl. rewrite Ht. msimpl. specialize (Hpf Df). rewrite Ef in Hpf.
    injection Hpf as Hx Hy.
    case_bool_decide as Dt.
    + rewrite Et. msimpl.
      destruct (set_line_points_line (c_line c) (λ pts, (pts.1.1.1, pts.1.1.2, (tx, ty).1, (tx, ty).2)) s pts Hl)
        as (R2 & O2 & L2 & P2).
      rewrite R2, O2. split; [done|]. split; [done|]. split; [done|].
      by rewrite P2, <- Hx, <- Hy.
    + msimpl. split; [done|]. split; [done|]. split; [apply only_line_refl|].
      rewrite Hl. specialize (Hpt Dt). rewrite Et in Hpt. injection Hpt as Hx' Hy'.
      f_equal. destruct pts as [[[a b] c'] e]. cbn in *. by subst.
Qed.

Lemma follows_only_line d o s s' c :
  only_line o s s' → c_line c ≠ o → follows d (layer s) c → follows d (layer s') c.
Proof.
  intros L Ho (gf & gt & pts & Hf & Ht & Hl & Hpf & Hpt).
  exists gf, gt, pts.
  rewrite !(only_line_getParent o s s'), !(only_line_position o s s') by done.
  destruct L as (_ & _ & L). rewrite L by done. done.
Qed.

Lemma dragmove_loop d es :
  NoDup (c_line <$> es) → ∀ s,
  Forall (follows d (layer s)) es →
  res (forEach (dragmove_callback d) es s) = Ret tt ∧
  out (forEach (dragmove_callback d) es s) = [] ∧
  st (forEach (dragmove_callback d) es s)
    = set_layer (λ _, layer (st (forEach (dragmove_callback d) es s))) s ∧
  omap as_group (layer (st (forEach (dragmove_callback d) es s))) = omap as_group (layer s) ∧
  (∀ o, o ∉ c_line <$> es →
        line_points (layer (st (forEach (dragmove_callback d) es s))) o
        = line_points (layer s) o) ∧
  Forall (attached (layer (st (forEach (dragmove_callback d) es s)))) es.
Proof.
  induction es as [|c r IH]; intros Hnd s Hall.
  { cbn. split; [done|]. split; [done|]. split; [by destruct s|]. done. }
  rewrite fmap_cons in Hnd. apply NoDup_cons in Hnd as [Hc Hnd].
  apply Forall_cons in Hall as [Hc0 Hr].
  destruct (callback_follows d c s Hc0) as (R1 & O1 & L1 & P1).
  set (s1 := st (dragmove_callback d c s)) in *.
  assert (Hr1 : Forall (follows d (layer s1)) r).
  { apply Forall_forall. intros c' Hc'. rewrite Forall_forall in Hr.
    apply (follows_only_line d (c_line c) s); [done| |by apply Hr].
    intros E. apply Hc. rewrite <- E. by apply list_elem_of_fmap_2. }
  destruct (IH Hnd s1 Hr1) as (R2 & O2 & E2 & G2 & L2 & A2).
  cbn [forEach]. msimpl. rewrite R1. fold s1. rewrite R2, O1, O2.
  set (s2 := st (forEach (dragmove_callback d) r s1)) in *.
  destruct L1 as (E1 & G1 & L1).
  split; [done|]. split; [done|]. split; [|split; [|split]].
  - rewrite E2 at 1. rewrite E1 at 1. done.
  - by rewrite G2.
  - intros o Ho. apply not_elem_of_cons in Ho as [Ho1 Ho2]. by rewrite L2, L1.
  - constructor; [|done]. unfold attached. rewrite L2 by done. rewrite P1.
    f_equal. unfold wire_points, getAbsolutePosition, getParent. by rewrite G2, G1.
Qed.

(** X15.  The [dragmove] handler of a component re-attaches its wires.
    Given connections with distinct wires, each with both ports on
    components of the canvas, its wire a line of the canvas, and the
    ends on components other than the dragged one in place: the handler
    returns, every wire then runs from the position of its source port
    to the position of its target port, no component is changed, the
    map, the queue and the wiring session are as before, and the canvas
    is redrawn once. *)
Theorem X15_dragmove_reattaches d es s :
  NoDup (c_line <$> es) →
  Forall (follows d (layer s)) es →
  res (componentGroup_dragmove es d s) = Ret tt ∧
  Forall (attached (layer (st (componentGroup_dragmove es d s)))) es ∧
  omap as_group (layer (st (componentGroup_dragmove es d s))) = omap as_group (layer s) ∧
  st (componentGroup_dragmove es d s)
    = set_layer (λ _, layer (st (componentGroup_dragmove es d s))) s ∧
  out (componentGroup_dragmove es d s) = [Draw].
Proof.
  intros Hnd Hall. destruct (dragmove_loop d es Hnd s Hall) as (R & O & E & G & _ & A).
  unfold componentGroup_dragmove. msimpl. rewrite R, O. msimpl. repeat split; done.
Qed.

Lemma X15_witness :
  NoDup (c_line <$> [ex_conn]) ∧
  Forall (follows (Some "comp_a") (layer ex_moved)) [ex_conn] ∧
  Forall (attached (layer (st (componentGroup_dragmove [ex_conn] (Some "comp_a") ex_moved))))
         [ex_conn].
Proof.
  assert (Hnd : NoDup (c_line <$> [ex_conn])) by (apply NoDup_singleton).
  assert (Hall : Forall (follows (Some "comp_a") (layer ex_moved)) [ex_conn]).
  { apply Forall_singleton. eexists _, _, (125, 100, 275, 100).
    split; [vm_compute; reflexivity|]. split; [vm_compute; reflexivity|].
    split; [vm_compute; reflexivity|]. split.
    - intros H. exfalso. apply H. reflexivity.
    - intros _. vm_compute. reflexivity. }
  split; [exact Hnd|]. split; [exact Hall|].
  exact (proj1 (proj2 (X15_dragmove_reattaches (Some "comp_a") [ex_conn] ex_moved Hnd Hall))).
Defined.

Lemma callback_unrelated d c s gf gt :
  getParent (layer s) (c_from c) = Some gf → getParent (layer s) (c_to c) = Some gt →
  g_id gf ≠ d → g_id gt ≠ d →
  res (dragmove_callback d c s) = Ret tt ∧ st (dragmove_callback d c s) = s ∧
  out (dragmove_callback d c s) = [].
Proof.
  intros Hf Ht Df Dt. unfold dragmove_callback. msimpl. rewrite Hf. msimpl.
  rewrite bool_decide_false by done. msimpl. rewrite Ht. msimpl.
  rewrite bool_decide_false by done. msimpl. done.
Qed.

(** X16.  Dragging a component that no connection touches moves no
    wire: when every connection has both ports on components with
    another id, the handler leaves the page as it is, whatever the
    wires of those connections are, and only redraws the canvas. *)
Theorem X16_dragmove_unrelated d es s :
  Forall (λ c, ∃ gf gt, getParent (layer s) (c_from c) = Some gf ∧
                         getParent (layer s) (c_to c) = Some gt ∧
                         g_id gf ≠ d ∧ g_id gt ≠ d) es →
  res (componentGroup_dragmove es d s) = Ret tt ∧
  st (componentGroup_dragmove es d s) = s ∧
  out (componentGroup_dragmove es d s) = [Draw].
Proof.
  intros Hall.
  assert (H : res (forEach (dragmove_callback d) es s) = Ret tt ∧
              st (forEach (dragmove_callback d) es s) = s ∧
              out (forEach (dragmove_callback d) es s) = []).
  { induction Hall as [|c r (gf & gt & Hf & Ht & Df & Dt) _ IH]; [done|].
    destruct (callback_unrelated d c s gf gt Hf Ht Df Dt) as (R1 & S1 & O1).
    destruct IH as (R2 & S2 & O2).
    cbn [forEach]. msimpl. rewrite R1, S1, R2, S2, O1, O2. done. }
  destruct H as (R & S & O). unfold componentGroup_dragmove. msimpl.
  rewrite R, S, O. msimpl. done.
Qed.

Lemma X16_witness :
  Forall (λ c, ∃ gf gt, getParent (layer ex_wired) (c_from c) = Some gf ∧
                         getParent (layer ex_wired) (c_to c) = Some gt ∧
                         g_id gf ≠ Some "comp_c" ∧ g_id gt ≠ Some "comp_c") [ex_conn] ∧
  st (componentGroup_dragmove [ex_conn] (Some "comp_c") ex_wired) = ex_wired.
Proof.
  assert (H : Forall (λ c, ∃ gf gt, getParent (layer ex_wired) (c_from c) = Some gf ∧
                         getParent (layer ex_wired) (c_to c) = Some gt ∧
                         g_id gf ≠ Some "comp_c" ∧ g_id gt ≠ Some "comp_c") [ex_conn]).
  { apply Forall_singleton. eexists _, _.
    split; [vm_compute; reflexivity|]. split; [vm_compute; reflexivity|].
    split; discriminate. }
  split; [exact H|].
  exact (proj1 (proj2 (X16_dragmove_unrelated (Some "comp_c") [ex_conn] ex_wired H))).
Defined.

(** *** The wiring globals *)

Lemma keep_w_new_oid : hoare session_ok new_oid session_ok.
Proof. by intros s. Qed.

Lemma keep_w_same_session {A} (m : M A) :
  (∀ s, same_session s (st (m s))) → hoare session_ok m session_ok.
Proof.
  intros H s. specialize (H s). destruct H as (Hw & Hc & Hp & _).
  unfold session_ok. by rewrite Hw, Hc, Hp.
Qed.

Ltac keep_w :=
  repeat first
    [ apply (keep_w_same_session (renderLoadedConnection _ _)); intros ?; apply render_same_session
    | apply keep_w_new_oid
    | keep_step
    | apply hoare_modify; let H := fresh in intros ? H; exact H
    | apply hoare_modify; intros ? _; by split ].

Lemma keep_w_createWire id a b : hoare session_ok (createWire id a b) session_ok.
Proof. unfold createWire. keep_w. Qed.

Lemma keep_w_onmessage d : hoare session_ok (onmessage d) session_ok.
Proof.
  unfold onmessage. apply keep_bind; [apply keep_log|]. intros _.
  apply keep_try_catch; [|apply keep_log].
  unfold dispatch, emitOutput, on_created, on_removed. keep_w.
Qed.

Lemma keep_w_mousedown p : hoare session_ok (outputPort_mousedown p) session_ok.
Proof.
  intros s _. unfold outputPort_mousedown. mssimpl.
  destruct (getParent (layer s) p) as [g|]; mssimpl.
  - destruct (getAbsolutePosition_total (set_draggable (g_oid g) false (layer s)) p) as [xy ->].
    mssimpl. split; by eexists.
  - destruct (getAbsolutePosition_total (layer s) p) as [xy ->].
    mssimpl. split; by eexists.
Qed.

Lemma keep_w_stage_mouseup name : hoare session_ok (stage_mouseup name) session_ok.
Proof.
  intros s H. unfold session_ok in H.
  unfold stage_mouseup, destroy_currentWire, reenable_drag. msimpl.
  destruct (isWiring s) eqn:W; cbn [andb negb].
  - destruct H as [[w C] [p P]]. case_bool_decide.
    + mssimpl. rewrite C. mssimpl. rewrite P. mssimpl.
      destruct (getParent _ p); mssimpl; by split.
    + msimpl. unfold session_ok. rewrite W, C, P. by split.
  - destruct H as [C P]. rewrite C. rewrite bool_decide_false by (by intros []).
    msimpl. unfold session_ok. by rewrite W, C, P.
Qed.

Lemma keep_w_inputPort_mouseup q cid : hoare session_ok (inputPort_mouseup q cid) session_ok.
Proof.
  unfold inputPort_mouseup, destroy_currentWire, reenable_drag.
  repeat first [ apply keep_w_createWire | keep_w ].
Qed.

Lemma keep_w_handler e : hoare session_ok (handler e) session_ok.
Proof.
  destruct e as [pos id|p|pos|q cid|name|d|w confirmed|b|dt|]; cbn [handler].
  - unfold dummyComponent_dragend, stage_on_add, debouncedProcessPendingConnections,
      debounce_executedFunction. keep_w.
  - apply keep_w_mousedown.
  - unfold stage_mousemove. keep_w.
  - unfold release_on_input. apply keep_bind; [apply keep_w_inputPort_mouseup|].
    intros _. apply keep_w_stage_mouseup.
  - apply keep_w_stage_mouseup.
  - apply keep_w_onmessage.
  - unfold wire_contextmenu. keep_w.
  - keep_w.
  - keep_w.
  - unfold debounce_later. apply keep_bind; [keep_w|]. intros _.
    apply keep_w_same_session. apply drain_same_session.
Qed.

Lemma run_session es s : session_ok s → session_ok (run es s).
Proof.
  revert s. induction es as [|e es IH]; intros s H; [done|].
  rewrite run_cons. by apply IH, keep_w_handler.
Qed.

(** X17.  The wiring globals agree on every page reachable from the
    freshly loaded one, whatever the events: [isWiring] is set exactly
    while there is a draft and a start port.  So the branch of the
    stage's [mouseup] handler that cleans up a draft left behind while
    [isWiring] is off never runs: outside a drag, a release on the
    stage changes nothing and does not redraw. *)
Theorem X17_session_globals_agree es name :
  session_ok (run es init) ∧
  (isWiring (run es init) = false →
   res (stage_mouseup name (run es init)) = Ret tt ∧
   st (stage_mouseup name (run es init)) = run es init ∧
   draws (out (stage_mouseup name (run es init))) = 0%nat).
Proof.
  assert (H : session_ok (run es init)) by (by apply run_session).
  split; [done|]. intros W. unfold session_ok in H. rewrite W in H. destruct H as [C P].
  unfold stage_mouseup. msimpl. rewrite W, C. cbn [andb negb].
  rewrite bool_decide_false by (by intros []). msimpl. done.
Qed.

Lemma X17_witness :
  isWiring (run [EDrop (Some (100, 100)) "comp_a"; EOutputDown ex_outA; EStageUp None] init)
    = false ∧
  st (stage_mouseup None
        (run [EDrop (Some (100, 100)) "comp_a"; EOutputDown ex_outA; EStageUp None] init))
    = run [EDrop (Some (100, 100)) "comp_a"; EOutputDown ex_outA; EStageUp None] init.
Proof.
  assert (W : isWiring (run [EDrop (Some (100, 100)) "comp_a"; EOutputDown ex_outA;
                             EStageUp None] init) = false) by (vm_compute; reflexivity).
  split; [exact W|].
  exact (proj1 (proj2 (proj2 (X17_session_globals_agree
                                [EDrop (Some (100, 100)) "comp_a"; EOutputDown ex_outA;
                                 EStageUp None] None) W))).
Defined.

(** *** From a deferred connection to its wire *)

Lemma findOne_id_app_l ly ly' v n :
  findOne_id ly v = Some n → findOne_id (ly ++ ly') v = Some n.
Proof.
  unfold findOne_id. destruct (list_find _ ly) as [[i m]|] eqn:E; [|done].
  intros [= <-]. by rewrite (list_find_app_l _ _ _ _ _ E).
Qed.

Lemma findOne_id_app_group ly g id :
  findOne_id ly (Some id) = None → g_id g = Some id →
  findOne_id (ly ++ [NGroup g]) (Some id) = Some (NGroup g).
Proof.
  unfold findOne_id. intros E%fmap_None Hg. rewrite list_find_app_r by done.
  cbn. rewrite decide_True by (by rewrite Hg). done.
Qed.

Lemma findOne_id_app_other ly g v :
  findOne_id ly v = None → g_id g ≠ Some (sel v) →
  findOne_id (ly ++ [NGroup g]) v = None.
Proof.
  rewrite !findOne_id_None. intros H Hg. apply Forall_app. split; [done|].
  by apply Forall_singleton.
Qed.

Lemma resolve_after_drop ly d o id x y sc sp :
  findOne_id ly (sourceComponentId d) = Some sc →
  find_circle sc (sourcePortName d) = Ret (Some sp) →
  targetComponentId d = Some id →
  targetPortName d = Some "input" →
  findOne_id ly (Some id) = None →
  resolve (ly ++ [NGroup (dropped_group o id x y)]) d =
  Resolved sp (Port o (Shape (S (S (S o))) Circle (Some "input") 0 25 10 "")).
Proof.
  intros Hs Hc Ht Hn F. unfold resolve.
  rewrite (findOne_id_app_l _ _ _ _ Hs), Ht, (findOne_id_app_group _ _ _ F) by done.
  rewrite Hc, Hn. done.
Qed.

(** X18.  A connection deferred for a missing target is wired once the
    target arrives.  Let [d] be queued for the id [X], behind
    descriptors of other ids that stay unresolved, with its source port
    on the canvas and its target component [id] absent.  Dropping a
    component with the id [id] on the stage arms the drain timer; once
    16 ms or more have passed the timer may fire, and when it does the
    map has an entry for [X] whose line is a line with the id [X] on
    the canvas, and the timer is cleared. *)
Theorem X18_deferred_wired_after_drop s X pre d rest id x y dt sc sp :
  pendingConnections s = pre ++ d :: rest →
  connectionId d = Some X →
  findOne_id (layer s) (sourceComponentId d) = Some sc →
  find_circle sc (sourcePortName d) = Ret (Some sp) →
  targetComponentId d = Some id →
  targetPortName d = Some "input" →
  findOne_id (layer s) (Some id) = None →
  findOne_id (layer s) (Some X) = None →
  X ≠ id →
  Forall (λ q, resolve (layer s ++ [NGroup (dropped_group (next_oid s) id x y)]) q = Missing ∧
               connectionId q ≠ Some X) pre →
  0 < x < 500 → 0 < y < 500 → (16 ≤ dt)%nat →
  trace_ok [EDrop (Some (x, y)) id; EElapse dt; ETimer] s ∧
  stored_with_edge X (run [EDrop (Some (x, y)) id; EElapse dt; ETimer] s) ∧
  timeout (run [EDrop (Some (x, y)) id; EElapse dt; ETimer] s) = None.
Proof.
  intros Hq Hid Hs Hc Ht Hn F FX Hne Hpre Hx Hy Hdt.
  destruct (dragend_inside x y id s Hx Hy) as (_ & S1 & _).
  change (st (dummyComponent_dragend (Some (x, y)) id s))
    with (step (EDrop (Some (x, y)) id) s) in S1.
  remember (step (EDrop (Some (x, y)) id) s) as s1 eqn:D1.
  remember (step (EElapse dt) s1) as s2 eqn:D2.
  assert (S2 : s2 = set_clock (clock s1 + dt)%nat s1) by (by rewrite D2).
  assert (Hs3 : stored_with_edge X (step ETimer s2) ∧ timeout (step ETimer s2) = None).
  { unfold step. cbn [handler]. unfold debounce_later. msimpl. split.
    - apply (drain_promotes _ X pre d rest sp
               (Port (next_oid s) (Shape (S (S (S (next_oid s)))) Circle (Some "input") 0 25 10 ""))).
      + by rewrite S2, S1.
      + by rewrite S2, S1.
      + done.
      + rewrite S2, S1. cbn [layer set_timeout set_clock]. by eapply resolve_after_drop.
      + rewrite S2, S1. cbn [layer set_timeout set_clock].
        apply findOne_id_app_other; [done|]. cbn. by intros [= ->].
    - destruct (drain_same_session (set_timeout None s2)) as (_ & _ & _ & _ & _ & ->). done. }
  split; [|split].
  - constructor; [done|]. rewrite <- D1. constructor; [done|]. rewrite <- D2.
    constructor; [|constructor]. cbn. exists (clock s + 16)%nat.
    rewrite S2, S1. cbn. split; [done|lia].
  - rewrite !run_cons, <- D1, <- D2. apply Hs3.
  - rewrite !run_cons, <- D1, <- D2. apply Hs3.
Qed.

Lemma X18_witness :
  pendingConnections ex_queued = [] ++ ex_desc "c9" "comp_z" :: [] ∧
  findOne_id (layer ex_queued) (Some "comp_z") = None ∧
  stored_with_edge "c9" (run [EDrop (Some (300, 300)) "comp_z"; EElapse 16; ETimer] ex_queued).
Proof.
  assert (Hq : pendingConnections ex_queued = [] ++ ex_desc "c9" "comp_z" :: [])
    by (vm_compute; reflexivity).
  assert (Hs : findOne_id (layer ex_queued) (sourceComponentId (ex_desc "c9" "comp_z"))
               = Some (NGroup (dropped_group 1%nat "comp_a" 100 100)))
    by (vm_compute; reflexivity).
  assert (Hc : find_circle (NGroup (dropped_group 1%nat "comp_a" 100 100))
                 (sourcePortName (ex_desc "c9" "comp_z")) = Ret (Some ex_outA))
    by (vm_compute; reflexivity).
  assert (F : findOne_id (layer ex_queued) (Some "comp_z") = None) by (vm_compute; reflexivity).
  assert (FX : findOne_id (layer ex_queued) (Some "c9") = None) by (vm_compute; reflexivity).
  assert (Hne : "c9" ≠ "comp_z") by discriminate.
  assert (Hx : 0 < 300 < 500) by lia.
  assert (Hdt : (16 ≤ 16)%nat) by lia.
  split; [exact Hq|]. split; [exact F|].
  exact (proj1 (proj2 (X18_deferred_wired_after_drop ex_queued "c9" [] (ex_desc "c9" "comp_z") []
                         "comp_z" 300 300 16%nat _ _ Hq eq_refl Hs Hc eq_refl eq_refl F FX Hne
                         (Forall_nil_2 _) Hx Hx Hdt))).
Defined.

(** *** A descriptor without a connection id *)

Lemma resolve_cons_idless l ly p :
  l_id l = None → resolve (NLine l :: ly) p = resolve ly p.
Proof.
  intros Hl. unfold resolve. rewrite !findOne_id_cons_line by (cbn; by rewrite Hl). done.
Qed.

(** X19.  A descriptor that carries no [connectionId] is drawn again
    on every arrival.  When its endpoints resolve and no node has the
    id ["undefined"], handling it twice as [v1.connection.load] puts two
    lines without an id on the canvas, between the same ports; the map
    keeps one entry, under the absent id, for the second line only, so
    no entry refers to the first. *)
Theorem X19_idless_descriptor_redrawn s p sp tp :
  connectionId p = None →
  resolve (layer s) p = Resolved sp tp →
  findOne_id (layer s) None = None →
  layer (st (onmessage (JVal (Some "v1.connection.load") (PObj p))
               (st (onmessage (JVal (Some "v1.connection.load") (PObj p)) s))))
    = NLine (Line (S (next_oid s)) None (wire_points (layer s) sp tp) false)
      :: NLine (Line (next_oid s) None (wire_points (layer s) sp tp) false)
      :: layer s ∧
  connections (st (onmessage (JVal (Some "v1.connection.load") (PObj p))
                     (st (onmessage (JVal (Some "v1.connection.load") (PObj p)) s))))
    = <[None := Connection None sp tp (S (next_oid s))]> (connections s).
Proof.
  intros Hid E F. rewrite !load_st.
  assert (E1 : st (renderLoadedConnection p false s)
               = wired None sp tp (set_pending (dequeue None) s)).
  { by rewrite render_st, E, Hid, F. }
  rewrite E1, render_st.
  cbn [wired layer set_connections set_layer set_pending set_next_oid].
  rewrite resolve_cons_idless, E, Hid by done.
  rewrite findOne_id_cons_line, F by done.
  unfold wired. cbn [layer connections next_oid set_connections set_layer set_pending set_next_oid].
  split.
  - do 2 f_equal; unfold wire_points, getAbsolutePosition; by rewrite ?getParent_cons_line.
  - by rewrite insert_insert_eq.
Qed.

Lemma X19_witness :
  connectionId (Params None (Some "comp_a") (Some "output") (Some "comp_b") (Some "input")
                       None None "undefined") = None ∧
  resolve (layer ex_two)
          (Params None (Some "comp_a") (Some "output") (Some "comp_b") (Some "input")
                  None None "undefined") = Resolved ex_outA ex_inB ∧
  findOne_id (layer ex_two) None = None ∧
  connections (st (onmessage (JVal (Some "v1.connection.load")
                     (PObj (Params None (Some "comp_a") (Some "output") (Some "comp_b")
                                   (Some "input") None None "undefined")))
                     (st (onmessage (JVal (Some "v1.connection.load")
                            (PObj (Params None (Some "comp_a") (Some "output") (Some "comp_b")
                                          (Some "input") None None "undefined"))) ex_two))))
    = <[None := Connection None ex_outA ex_inB (S (next_oid ex_two))]> (connections ex_two).
Proof.
  assert (E : resolve (layer ex_two)
                (Params None (Some "comp_a") (Some "output") (Some "comp_b") (Some "input")
                        None None "undefined") = Resolved ex_outA ex_inB)
    by (vm_compute; reflexivity).
  assert (F : findOne_id (layer ex_two) None = None) by (vm_compute; reflexivity).
  split; [reflexivity|]. split; [exact E|]. split; [exact F|].
  exact (proj2 (X19_idless_descriptor_redrawn ex_two
                  (Params None (Some "comp_a") (Some "output") (Some "comp_b") (Some "input")
                          None None "undefined") _ _ eq_refl E F)).
Defined.

(** *** What arms the drain timer, and what sends *)





Lemma silent_bind {A B} (m : M A) (k : A → M B) :
  silent m → (∀ a, silent (k a)) → silent (bind m k).
Proof.
  intros Hm Hk s. rewrite out_bind. destruct (res (m s)); [|apply Hm].
  by rewrite sends_app, Hm, Hk.
Qed.

Lemma silent_ret {A} (a : A) : silent (ret a).
Proof. by intros s. Qed.

Lemma silent_throw {A} : silent (@throw A).
Proof. by intros s. Qed.

Lemma silent_gets {A} (f : state → A) : silent (gets f).
Proof. by intros s. Qed.

Lemma silent_modify f : silent (modify f).
Proof. by intros s. Qed.

Lemma silent_log lv msg : silent (log lv msg).
Proof. by intros s. Qed.

Lemma silent_draw : silent draw.
Proof. by intros s. Qed.

Lemma silent_lift {A} (r : result A) : silent (lift r).
Proof. by intros s. Qed.

Lemma silent_require {A} (o : option A) : silent (require o).
Proof. by destruct o; intros s. Qed.

Lemma silent_new_oid : silent new_oid.
Proof. by intros s. Qed.

Lemma silent_when b m : silent m → silent (when b m).
Proof. intros H. destruct b; [done|apply silent_ret]. Qed.

Lemma silent_try_catch m h : silent m → silent h → silent (try_catch m h).
Proof.
  intros Hm Hh s. unfold try_catch. cbn zeta. destruct (res (m s)); [apply Hm|].
  cbn. by rewrite sends_app, Hm, Hh.
Qed.

Ltac silence_step :=
  first
    [ apply silent_ret | apply silent_throw | apply silent_gets | apply silent_modify
    | apply silent_log | apply silent_draw | apply silent_lift | apply silent_require
    | apply silent_new_oid | apply silent_when
    | apply silent_bind; [|intros ?]
    | match goal with
      | |- silent (let _ := _ in _) => cbn zeta
      | |- silent (if ?b then _ else _) => destruct b
      | |- silent (match ?x with _ => _ end) => destruct x
      end ].

Lemma silent_createWire id a b : silent (createWire id a b).
Proof. unfold createWire. repeat silence_step. Qed.

Lemma silent_render p r : silent (renderLoadedConnection p r).
Proof.
  unfold renderLoadedConnection, queue_unless_queued.
  repeat first [ apply silent_createWire | silence_step ].
Qed.

Ltac silence :=
  repeat first [ apply silent_render | apply silent_createWire | silence_step ].

Lemma silent_retry_each ids n : silent (retry_each ids n).
Proof.
  revert n. induction ids as [|cid ids IH]; intros n; cbn [retry_each]; [apply silent_ret|].
  apply silent_bind; [apply silent_gets|]. intros pq.
  destruct (snd <$> list_find _ pq).
  - apply silent_bind; [apply silent_render|]. intros ok. apply IH.
  - apply IH.
Qed.

Lemma silent_drain : silent processPendingConnections.
Proof.
  unfold processPendingConnections. apply silent_bind; [apply silent_gets|]. intros pq.
  destruct (connectionId <$> pq) eqn:E; [apply silent_ret|].
  apply silent_bind; [apply silent_log|]. intros _.
  apply silent_bind; [apply silent_retry_each|]. intros n. silence.
Qed.

Lemma silent_onmessage d : silent (onmessage d).
Proof.
  unfold onmessage. apply silent_bind; [apply silent_log|]. intros _.
  apply silent_try_catch; [|apply silent_log].
  unfold dispatch, emitOutput, on_created, on_removed. silence.
Qed.

Lemma silent_handler e :
  match e with EInputUp _ _ | EContextMenu _ _ => True | _ => silent (handler e) end.
Proof.
  destruct e as [pos id|p|pos|q cid|name|d|w confirmed|b|dt|]; cbn [handler]; try done.
  - unfold dummyComponent_dragend, stage_on_add, debouncedProcessPendingConnections,
      debounce_executedFunction. silence.
  - unfold outputPort_mousedown. silence.
  - unfold stage_mousemove. silence.
  - unfold stage_mouseup, destroy_currentWire, reenable_drag. silence.
  - apply silent_onmessage.
  - unfold debounce_later. apply silent_bind; [silence|]. intros _. apply silent_drain.
Qed.

(** X21.  Only two handlers ever write to the socket: the release of a
    drag on an input port and the context menu of a wire.  Handling an
    inbound message, whatever it is, sends nothing, and neither do a
    component drop, a press, a pointer move, a release on the stage,
    the drain timer, or a change of the socket or the clock. *)
Theorem X21_only_gestures_send e s :
  match e with
  | EInputUp _ _ | EContextMenu _ _ => True
  | _ => sends (out (handler e s)) = []
  end.
Proof.
  pose proof (silent_handler e) as H.
  destruct e as [pos id|p|pos|q cid|name|d|w confirmed|b|dt|]; try done; apply H.
Qed.
